(** * Depth-of-search functions (DoSFuncs.py): a shallow embedding

    The numerical core of [DoSFuncs.py] is embedded function by function:
    [one_DoS_grid], [one_DoS_bins], [DoS_sum], the [ck] offset of [__init__],
    [find_ck] and [select_obs].

    Numbers.  numpy's float64 arithmetic is idealised by the real numbers
    ([np.sqrt] is [sqrt], [np.arcsin] is [asin], [np.cos] is [cos], [np.pi]
    is [PI]); rounding, overflow and underflow are not modelled there.
    [sqrt] and [asin] are total on the reals where numpy returns NaN (a
    negative radicand, an argument outside [-1, 1]); the theorems on
    [one_DoS_grid] therefore assume positive [a], [R], [p] and non-negative
    [smin], [smax], for which the only NaN numpy forms, [arcsin(smin/a)]
    at grid points with [smin > a], is overwritten by line 363.  The one
    place where an IEEE special value decides the behaviour, the
    normalisation [val/(tup - tlow)] of [DoS_sum], is embedded a second time
    over binary64 floats (module [Float64]).

    Arrays.  A numpy array is its shape and its row-major buffer.  Boolean
    masks, masked reads [x[m]] and masked writes [x[m] = v] are modelled as
    numpy performs them, on the buffer. *)

From Stdlib Require Import Reals Lra Lia List Bool Arith ZArith.
From Stdlib Require Floats.
From Stdlib Require Import Sorted.
From Stdlib Require String.
Import String.StringSyntax.
Delimit Scope string_scope with string.
Import ListNotations.

Open Scope R_scope.

(** ** Comparisons as numpy evaluates them: to a boolean *)

Definition Rltb (x y : R) : bool := if Rlt_dec x y then true else false.
Definition Rgtb (x y : R) : bool := Rltb y x.
Definition Rgeb (x y : R) : bool := if Rle_dec y x then true else false.
Definition Reqb (x y : R) : bool := if Req_dec_T x y then true else false.

(** ** Vectors: the buffer of an array, and numpy's elementwise operations *)

Module Np.

Section Masks.
Context {A : Type}.

(** [x[m]] for a boolean mask [m]: the entries of [x] where [m] holds, in
    order. *)
Fixpoint take_mask (m : list bool) (x : list A) : list A :=
  match m, x with
  | b :: m', v :: x' => if b then v :: take_mask m' x' else take_mask m' x'
  | _, _ => []
  end.

(** [x[m] = vs] for an array [vs] with one value per [True] of [m], as
    every masked write of the code has (numpy raises on any other count
    but one; here the entries beyond the values keep what they held). *)
Fixpoint put_mask (m : list bool) (x vs : list A) : list A :=
  match m, x with
  | b :: m', v :: x' =>
      if b then
        match vs with
        | w :: vs' => w :: put_mask m' x' vs'
        | [] => v :: put_mask m' x' []
        end
      else v :: put_mask m' x' vs
  | _, _ => x
  end.

(** [x[m] = c] for a scalar [c]. *)
Fixpoint fill_mask (m : list bool) (x : list A) (c : A) : list A :=
  match m, x with
  | b :: m', v :: x' => (if b then c else v) :: fill_mask m' x' c
  | _, _ => x
  end.
End Masks.

(** Elementwise binary operation on two arrays of the same shape. *)
Fixpoint map2 {A B C : Type} (f : A -> B -> C) (x : list A) (y : list B)
  : list C :=
  match x, y with
  | u :: x', v :: y' => f u v :: map2 f x' y'
  | _, _ => []
  end.

Definition zeros (n : nat) : list R := repeat 0 n.
Definition ones (n : nat) : list R := repeat 1 n.

Definition vadd := map2 Rplus.
Definition vsub := map2 Rminus.
Definition vmul := map2 Rmult.
Definition vdiv := map2 Rdiv.
Definition vpow (x : list R) (n : nat) : list R := map (fun u => u ^ n) x.
Definition vsqrt : list R -> list R := map sqrt.
Definition vcos : list R -> list R := map cos.
Definition varcsin : list R -> list R := map asin.
(** scalar-with-array broadcasts *)
Definition smul (c : R) : list R -> list R := map (fun u => c * u).
Definition sdiv (c : R) : list R -> list R := map (fun u => c / u).
Definition ssub (c : R) : list R -> list R := map (fun u => c - u).
Definition vdivs (x : list R) (c : R) : list R := map (fun u => u / c) x.
(** comparisons, giving masks *)
Definition vlt : list R -> list R -> list bool := map2 Rltb.
Definition vgt : list R -> list R -> list bool := map2 Rgtb.
Definition slt (c : R) : list R -> list bool := map (fun u => Rltb c u).
Definition sge (c : R) : list R -> list bool := map (fun u => Rgeb c u).
Definition sgt (c : R) : list R -> list bool := map (fun u => Rgtb c u).
Definition vlts (x : list R) (c : R) : list bool := map (fun u => Rltb u c) x.

End Np.

Import Np.

(** ** [one_DoS_grid] on the buffers *)

(** Lines 316-336: the grid points with [smax < a]. *)
Definition grid_contained (p smin smax : R) (ag Rg Cgmin : list R) : list R :=
  let b1g := varcsin (sdiv smin ag) in
  let b2g := ssub PI (varcsin (sdiv smin ag)) in
  let b3g := varcsin (sdiv smax ag) in
  let b4g := ssub PI (varcsin (sdiv smax ag)) in
  let C1g := vmul (smul p (vpow (vdiv Rg ag) 2)) (vpow (vcos (vdivs b1g 2)) 4) in
  let C2g := vmul (smul p (vpow (vdiv Rg ag) 2)) (vpow (vcos (vdivs b2g 2)) 4) in
  let C3g := vmul (smul p (vpow (vdiv Rg ag) 2)) (vpow (vcos (vdivs b3g 2)) 4) in
  let C4g := vmul (smul p (vpow (vdiv Rg ag) 2)) (vpow (vcos (vdivs b4g 2)) 4) in
  let C2g := put_mask (vlt C2g Cgmin) C2g (take_mask (vlt C2g Cgmin) Cgmin) in
  let C3g := put_mask (vlt C3g Cgmin) C3g (take_mask (vlt C3g Cgmin) Cgmin) in
  let vals := vgt C3g C1g in
  let C3g := fill_mask vals C3g 0 in
  let C1g := fill_mask vals C1g 0 in
  let vals := vgt C2g C4g in
  let C2g := fill_mask vals C2g 0 in
  let C4g := fill_mask vals C4g 0 in
  vmul (vdiv ag (vsqrt (smul p (vpow Rg 2))))
       (vsub (vadd (vsub (vsqrt C4g) (vsqrt C2g)) (vsqrt C1g)) (vsqrt C3g)).

(** Lines 343-359: the grid points with [smax >= a]. *)
Definition grid_extended (p smin : R) (al Rl Clmin : list R) : list R :=
  let inside := vlts (sdiv smin al) 1 in
  let b1l := zeros (length al) in
  let b1l := put_mask inside b1l (varcsin (sdiv smin (take_mask inside al))) in
  let b2l := smul PI (ones (length al)) in
  let b2l :=
    put_mask inside b2l (ssub PI (varcsin (sdiv smin (take_mask inside al)))) in
  let C1l := ones (length al) in
  let C1l :=
    put_mask inside C1l
      (vmul (smul p (vpow (vdiv (take_mask inside Rl) (take_mask inside al)) 2))
            (vpow (vcos (vdivs (take_mask inside b1l) 2)) 4)) in
  let C2l := ones (length al) in
  let C2l :=
    put_mask inside C2l
      (vmul (smul p (vpow (vdiv (take_mask inside Rl) (take_mask inside al)) 2))
            (vpow (vcos (vdivs (take_mask inside b2l) 2)) 4)) in
  let C2l := put_mask (vlt C2l Clmin) C2l (take_mask (vlt C2l Clmin) Clmin) in
  let vals := vgt C2l C1l in
  let C1l := fill_mask vals C1l 0 in
  let C2l := fill_mask vals C2l 0 in
  vmul (vdiv al (vsqrt (smul p (vpow Rl 2)))) (vsub (vsqrt C1l) (vsqrt C2l)).

(** Lines 309-363 on the buffers of [a], [R] and [Cmin]. *)
Definition one_DoS_grid_data (a R_ : list R) (p smin smax : R)
    (Cmin : list R) : list R :=
  let f := zeros (length a) in
  let fg :=
    grid_contained p smin smax
      (take_mask (slt smax a) a) (take_mask (slt smax a) R_)
      (take_mask (slt smax a) Cmin) in
  let fl :=
    grid_extended p smin
      (take_mask (sge smax a) a) (take_mask (sge smax a) R_)
      (take_mask (sge smax a) Cmin) in
  let f := put_mask (slt smax a) f fg in
  let f := put_mask (sge smax a) f fl in
  fill_mask (sgt smin a) f 0.

(** ** The same computation at one grid point *)

Definition clip_below (C Cmin : R) : R := if Rltb C Cmin then Cmin else C.

Definition contained_point (p smin smax a R_ Cmin : R) : R :=
  let b1 := asin (smin / a) in
  let b2 := PI - asin (smin / a) in
  let b3 := asin (smax / a) in
  let b4 := PI - asin (smax / a) in
  let C1 := p * (R_ / a) ^ 2 * cos (b1 / 2) ^ 4 in
  let C2 := p * (R_ / a) ^ 2 * cos (b2 / 2) ^ 4 in
  let C3 := p * (R_ / a) ^ 2 * cos (b3 / 2) ^ 4 in
  let C4 := p * (R_ / a) ^ 2 * cos (b4 / 2) ^ 4 in
  let C2 := clip_below C2 Cmin in
  let C3 := clip_below C3 Cmin in
  let vals31 := Rgtb C3 C1 in
  let C3 := if vals31 then 0 else C3 in
  let C1 := if vals31 then 0 else C1 in
  let vals24 := Rgtb C2 C4 in
  let C2 := if vals24 then 0 else C2 in
  let C4 := if vals24 then 0 else C4 in
  a / sqrt (p * R_ ^ 2) * (sqrt C4 - sqrt C2 + sqrt C1 - sqrt C3).

Definition extended_point (p smin a R_ Cmin : R) : R :=
  let inside := Rltb (smin / a) 1 in
  let b1 := if inside then asin (smin / a) else 0 in
  let b2 := if inside then PI - asin (smin / a) else PI * 1 in
  let C1 := if inside then p * (R_ / a) ^ 2 * cos (b1 / 2) ^ 4 else 1 in
  let C2 := if inside then p * (R_ / a) ^ 2 * cos (b2 / 2) ^ 4 else 1 in
  let C2 := clip_below C2 Cmin in
  let vals := Rgtb C2 C1 in
  let C1 := if vals then 0 else C1 in
  let C2 := if vals then 0 else C2 in
  a / sqrt (p * R_ ^ 2) * (sqrt C1 - sqrt C2).

Definition one_DoS_point (p smin smax a R_ Cmin : R) : R :=
  let f := 0 in
  let f := if Rltb smax a then contained_point p smin smax a R_ Cmin else f in
  let f := if Rgeb smax a then extended_point p smin a R_ Cmin else f in
  if Rgtb smin a then 0 else f.

(** One pair of phase-boundary contrasts, as both regimes treat it:
    [sqrt Cout - sqrt Cin] after [Cin] was clipped to [Cmin] and the pair
    zeroed where the clipped [Cin] exceeds [Cout]. *)
Definition pair_term (Cout Cin Cmin : R) : R :=
  let Cin := clip_below Cin Cmin in
  let vals := Rgtb Cin Cout in
  sqrt (if vals then 0 else Cout) - sqrt (if vals then 0 else Cin).

Fixpoint map3 {A B C D : Type} (f : A -> B -> C -> D)
    (x : list A) (y : list B) (z : list C) : list D :=
  match x, y, z with
  | u :: x', v :: y', w :: z' => f u v w :: map3 f x' y' z'
  | _, _, _ => []
  end.

(** ** Two-dimensional arrays: a shape and a row-major buffer *)

Record ndarray : Type := mk_ndarray {
  shape0 : nat;
  shape1 : nat;
  data : list R
}.

(** The buffer has one entry per index. *)
Definition wf (x : ndarray) : Prop :=
  length (data x) = (shape0 x * shape1 x)%nat.

Definition same_shape (x y : ndarray) : bool :=
  (shape0 x =? shape0 y)%nat && (shape1 x =? shape1 y)%nat.

(** Every entry is positive (a grid of semi-major axes or of radii). *)
Definition positive (x : ndarray) : Prop := Forall (fun v => 0 < v) (data x).

(** [x[i, j]] *)
Definition item (x : ndarray) (i j : nat) : R :=
  nth (i * shape1 x + j) (data x) 0.

(** The basic slice [x[r0:r1, c0:c1]] for bounds within the shape. *)
Definition slice (x : ndarray) (r0 r1 c0 c1 : nat) : ndarray :=
  {| shape0 := r1 - r0;
     shape1 := c1 - c0;
     data :=
       flat_map
         (fun i => map (fun j => item x (r0 + i) (c0 + j)) (seq 0 (c1 - c0)))
         (seq 0 (r1 - r0)) |}.

(** [x + y] for two arrays of one shape (the only sums the code forms: the
    four slices of [one_DoS_bins], and [DoS += tmp]). *)
Definition ndadd (x y : ndarray) : ndarray :=
  {| shape0 := shape0 x; shape1 := shape1 x;
     data := vadd (data x) (data y) |}.

(** [c * x] for a scalar [c]. *)
Definition ndscale (c : R) (x : ndarray) : ndarray :=
  {| shape0 := shape0 x; shape1 := shape1 x; data := smul c (data x) |}.

(** [np.zeros((n, m))] for integers [n], [m]: a negative dimension raises
    [ValueError]. *)
Definition np_zeros (n m : Z) : option ndarray :=
  if ((0 <=? n) && (0 <=? m))%Z then
    Some {| shape0 := Z.to_nat n; shape1 := Z.to_nat m;
            data := zeros (Z.to_nat n * Z.to_nat m) |}
  else None.

(** [np.meshgrid(x, y)]: two arrays of shape [(len y, len x)], the first
    repeating [x] along the rows, the second [y] along the columns. *)
Definition meshgrid (x y : list R) : ndarray * ndarray :=
  ({| shape0 := length y; shape1 := length x;
      data := flat_map (fun _ => x) y |},
   {| shape0 := length y; shape1 := length x;
      data := flat_map (fun v => repeat v (length x)) y |}).

(** ** Errors: a Python exception is [None] *)

Definition bind {A B : Type} (c : option A) (k : A -> option B) : option B :=
  match c with
  | Some v => k v
  | None => None
  end.

Notation "x <- c ;; k" := (bind c (fun x => k))
  (at level 61, c at next level, right associativity).

Fixpoint traverse {A B : Type} (f : A -> option B) (l : list A)
  : option (list B) :=
  match l with
  | [] => Some []
  | v :: l' => w <- f v ;; ws <- traverse f l' ;; Some (w :: ws)
  end.

(** ** [one_DoS_grid] and [one_DoS_bins] *)

(** A boolean mask indexes only an array of its own shape ([IndexError]
    otherwise), so [a], [R] and [Cmin] have one shape. *)
Definition one_DoS_grid (a R_ : ndarray) (p smin smax : R) (Cmin : ndarray)
  : option ndarray :=
  if same_shape a R_ && same_shape a Cmin then
    Some {| shape0 := shape0 a; shape1 := shape1 a;
            data := one_DoS_grid_data (data a) (data R_) p smin smax
                      (data Cmin) |}
  else None.

(** [0.25*(tmp[:-1,:-1]+tmp[1:,:-1]+tmp[:-1,1:]+tmp[1:,1:])] *)
Definition one_DoS_bins (a R_ : ndarray) (p smin smax : R) (Cmin : ndarray)
  : option ndarray :=
  tmp <- one_DoS_grid a R_ p smin smax Cmin ;;
  let n := shape0 tmp in
  let m := shape1 tmp in
  Some (ndscale 0.25
         (ndadd (ndadd (ndadd (slice tmp 0 (n - 1) 0 (m - 1))
                              (slice tmp 1 n 0 (m - 1)))
                       (slice tmp 0 (n - 1) 1 m))
                (slice tmp 1 n 1 m))).

(** ** [DoS_sum] *)

Section DoS_sum.

(** scipy's routines are taken as they are.  The constructor
    [InterpolatedUnivariateSpline(WA, C, k=1, ext=3)] raises on knots and
    values it cannot interpolate (arrays of different lengths, too few
    points, knots out of order) and otherwise gives the function that
    line 443 calls; [integrate.quad(f, lo, hi, ...)[0]] is the value of
    the quadrature. *)
Variable InterpolatedUnivariateSpline : list R -> list R -> option (R -> R).
Variable quad : (R -> R) -> R -> R -> R.

(** The body of the loop on [j] (lines 433-445) for the star [i].  Over
    the reals a quotient by zero is [0]; what float64 returns when
    [tup = tlow] is the matter of [Float64.expected_Cmin] below. *)
Definition expected_Cmin (Cs : R -> R) (smin_i smax_i : R) (dist : list R)
    (i : nat) (aj : R) : option R :=
  if Rltb aj smin_i then Some 1
  else
    let su := if Rgtb aj smax_i then smax_i else aj in
    let tup := sqrt (1 - (smin_i / aj) ^ 2) in
    let tlow := sqrt (1 - (su / aj) ^ 2) in
    d <- nth_error dist i ;;
    let f := fun t => Cs (aj * sqrt (1 - t ^ 2) / d) in
    let val := quad f tlow tup in
    Some (val / (tup - tlow)).

(** The loop on the stars (lines 428-449), over the indices still to do. *)
Fixpoint DoS_loop (a : list R) (aa : ndarray) (R_ : list R) (pexp : R)
    (smin smax dist : list R) (C_inst : list (list R)) (WA : list R)
    (todo : list nat) (DoS : ndarray) : option ndarray :=
  match todo with
  | [] => Some DoS
  | i :: todo' =>
      C_i <- nth_error C_inst i ;;
      Cs <- InterpolatedUnivariateSpline WA C_i ;;
      smin_i <- nth_error smin i ;;
      smax_i <- nth_error smax i ;;
      Cmin <- traverse (expected_Cmin Cs smin_i smax_i dist i) a ;;
      let '(CC, RR) := meshgrid Cmin R_ in
      tmp <- one_DoS_bins aa RR pexp smin_i smax_i CC ;;
      DoS_loop a aa R_ pexp smin smax dist C_inst WA todo' (ndadd DoS tmp)
  end.

(** The argument [RR] is rebound inside the loop before it is read. *)
Definition DoS_sum (a : list R) (aa : ndarray) (R_ : list R) (RR : ndarray)
    (pexp : R) (smin smax dist : list R) (C_inst : list (list R))
    (WA : list R) : option ndarray :=
  DoS <- np_zeros (Z.of_nat (shape0 aa) - 1) (Z.of_nat (shape1 aa) - 1) ;;
  DoS_loop a aa R_ pexp smin smax dist C_inst WA (seq 0 (length smin)) DoS.

End DoS_sum.

(** Lines 241-245 of [__init__]: no selected star, no call of [DoS_sum]. *)
Definition init_DoS
    (InterpolatedUnivariateSpline : list R -> list R -> option (R -> R))
    (quad : (R -> R) -> R -> R -> R)
    (nStars : nat) (aedges : list R) (aa : ndarray) (Redges : list R)
    (RR : ndarray) (pexp : R) (smin smax dist : list R)
    (C_inst : list (list R)) (WA : list R) : option ndarray :=
  if (0 <? nStars)%nat then
    DoS_sum InterpolatedUnivariateSpline quad aedges aa Redges RR pexp
      smin smax dist C_inst WA
  else np_zeros (Z.of_nat (shape0 aa) - 1) (Z.of_nat (shape1 aa) - 1).

(** ** A small grid, for the examples *)

Definition ex_a : ndarray := mk_ndarray 2 2 [1; 2; 1; 2].
Definition ex_R : ndarray := mk_ndarray 2 2 [1; 1; 3; 3].
Definition ex_Cmin : ndarray := mk_ndarray 2 2 [0.1; 0.1; 0.2; 0.2].
Definition ex_Cmin' : ndarray := mk_ndarray 2 2 [0.1; 0.3; 0.2; 0.5].

(** ** The offset of [ck] in [__init__] (line 202) *)

(** [x.min()]: [ValueError] on an empty array. *)
Definition np_min (x : list R) : option R :=
  match x with
  | [] => None
  | v :: x' => Some (fold_left Rmin x' v)
  end.

(** [ck += ck[ck>0.0].min()*1e-2] *)
Definition ck_offset (ck : list R) : option (list R) :=
  m <- np_min (take_mask (map (fun c => Rgtb c 0) ck) ck) ;;
  Some (map (fun c => c + m * 1e-2) ck).

(** ** [find_ck] *)

Section find_ck.

(** [integrate.quad(f, lo, hi, limit=50, epsabs=0, epsrel=1e-4)[0]], and the
    lambdified third and fourth roots in [z] that [sympy.solve] returns for
    [z**4 - z**3/sqrt(k) + b**2/(4*k)], as functions of [(k, b)]. *)
Variable quad : (R -> R) -> R -> R -> R.
Variables sol3 sol4 : R -> R -> R.

(** The six breakpoints (lines 484-489) of one star. *)
Definition k1 (amax smin : R) : R := cos (0.5 * (PI - asin (smin / amax))) ^ 4 / amax ^ 2.
Definition k2 (amax smax : R) : R := cos (0.5 * (PI - asin (smax / amax))) ^ 4 / amax ^ 2.
Definition k3 (amax smax : R) : R := cos (0.5 * asin (smax / amax)) ^ 4 / amax ^ 2.
Definition k4 (smax : R) : R := 27 / 64 * / smax ^ 2.
Definition k5 (amax smin : R) : R := cos (0.5 * asin (smin / amax)) ^ 4 / amax ^ 2.
Definition k6 (smin : R) : R := 27 / 64 * / smin ^ 2.

(** Lines 478-482 and 504-585 for one star [i]. *)
Definition find_ck_star (amin amax Cmin pexp Rexp smin smax : R) : R :=
  let an := 1 / ln (amax / amin) in
  let cg :=
    an * (sqrt (1 - (smax / amax) ^ 2) - sqrt (1 - (smin / amax) ^ 2)
          + ln (smax / (sqrt (1 - (smax / amax) ^ 2) + 1))
          - ln (smin / (sqrt (1 - (smin / amax) ^ 2) + 1))) in
  let anp := an / cg in
  let k1 := k1 amax smin in
  let k2 := k2 amax smax in
  let k3 := k3 amax smax in
  let k4 := k4 smax in
  let k5 := k5 amax smin in
  let k6 := k6 smin in
  let kmin := Cmin / (pexp * Rexp ^ 2) in
  if Reqb smin smax then 0
  else
    let al1 := fun k => sol3 k smin in
    let au1 := fun k => sol4 k smin in
    let au2 := fun k => sol3 k smax in
    let al2 := fun k => sol4 k smax in
    let f12 := fun k => anp / (2 * sqrt k) * (amax - al1 k) in
    let f23 := fun k => anp / (2 * sqrt k) * (au2 k - al1 k) in
    let f34 := fun k => anp / (2 * sqrt k) * (amax - al2 k + au2 k - al1 k) in
    let f45 := fun k => anp / (2 * sqrt k) * (amax - al1 k) in
    let f56 := fun k => anp / (2 * sqrt k) * (au1 k - al1 k) in
    let f35 := fun k => anp / (2 * sqrt k) * (amax - al2 k + au2 k - al1 k) in
    let f54 := fun k => anp / (2 * sqrt k) * (au1 k - al2 k + au2 k - al1 k) in
    let f46 := fun k => anp / (2 * sqrt k) * (au1 k - al1 k) in
    if Rltb k4 k5 then
      if Rltb kmin k1 then
        let ck := quad f12 k1 k2 in
        let ck := if negb (Reqb k2 k3) then ck + quad f23 k2 k3 else ck in
        let ck := ck + quad f34 k3 k4 in
        let ck := ck + quad f45 k4 k5 in
        ck + quad f56 k5 k6
      else if Rgtb kmin k1 && Rltb kmin k2 then
        let ck := quad f12 kmin k2 in
        let ck := if negb (Reqb k2 k3) then ck + quad f23 k2 k3 else ck in
        let ck := ck + quad f34 k3 k4 in
        let ck := ck + quad f45 k4 k5 in
        ck + quad f56 k5 k6
      else if Rgtb kmin k2 && Rltb kmin k3 then
        let ck := quad f23 kmin k3 in
        let ck := ck + quad f34 k3 k4 in
        let ck := ck + quad f45 k4 k5 in
        ck + quad f56 k5 k6
      else if Rgtb kmin k3 && Rltb kmin k4 then
        let ck := quad f34 kmin k4 in
        let ck := ck + quad f45 k4 k5 in
        ck + quad f56 k5 k6
      else if Rgtb kmin k4 && Rltb kmin k5 then
        let ck := quad f45 kmin k5 in
        ck + quad f56 k5 k6
      else if Rltb kmin k6 then quad f56 kmin k6
      else 0
    else
      if Rltb kmin k1 then
        let ck := quad f12 k1 k2 in
        let ck := if negb (Reqb k2 k3) then ck + quad f23 k2 k3 else ck in
        let ck := ck + quad f35 k3 k5 in
        let ck := ck + quad f54 k5 k4 in
        ck + quad f46 k4 k6
      else if Rgtb kmin k1 && Rltb kmin k2 then
        let ck := quad f12 kmin k2 in
        let ck := if negb (Reqb k2 k3) then ck + quad f23 k2 k3 else ck in
        let ck := ck + quad f35 k3 k5 in
        let ck := ck + quad f54 k5 k4 in
        ck + quad f46 k4 k6
      else if Rgtb kmin k2 && Rltb kmin k3 then
        let ck := quad f23 kmin k3 in
        let ck := ck + quad f35 k3 k5 in
        let ck := ck + quad f54 k5 k4 in
        ck + quad f46 k4 k6
      else if Rgtb kmin k3 && Rltb kmin k5 then
        let ck := quad f35 kmin k5 in
        let ck := ck + quad f54 k5 k4 in
        ck + quad f46 k4 k6
      else if Rgtb kmin k5 && Rltb kmin k4 then
        let ck := quad f54 kmin k4 in
        ck + quad f46 k4 k6
      else if Rltb kmin k6 then quad f46 kmin k6
      else 0.

(** [smin] and [smax] are arrays of one length, one entry per star. *)
Definition find_ck (amin amax : R) (smin smax : list R) (Cmin pexp Rexp : R)
  : list R :=
  map2 (find_ck_star amin amax Cmin pexp Rexp) smin smax.

End find_ck.

(** ** [select_obs] *)

(** The value [sum_j c[j]*x[j]] of a linear form at an assignment. *)
Definition dot (c x : list R) : R := fold_right Rplus 0 (map2 Rmult c x).

(** The program of lines 607-618: one variable [IntVar(0.0, 1.0)] per entry
    of [ck], the constraint [-infinity <= sum_j t0[j]*x[j] <= maxTime], the
    objective [sum_j ck[j]*x[j]], maximised. *)
Definition binary (x : list R) : Prop := Forall (fun v => v = 0 \/ v = 1) x.

Definition feasible (t0 : list R) (maxTime : R) (x : list R) : Prop :=
  length x = length t0 /\ binary x /\ dot t0 x <= maxTime.

Definition optimal (t0 : list R) (maxTime : R) (ck x : list R) : Prop :=
  feasible t0 maxTime x /\
  forall y, feasible t0 maxTime y -> dot ck y <= dot ck x.

(** What [solver.Solve()] owes its caller: whenever some assignment is
    feasible, the solution values are an optimal assignment. *)
Definition exact_solver (Solve : list R -> R -> list R -> list R) : Prop :=
  forall t0 maxTime ck x0,
    length t0 = length ck -> feasible t0 maxTime x0 ->
    optimal t0 maxTime ck (Solve t0 maxTime ck).

(** [np.where(m)[0]]: the indices where the mask holds. *)
Fixpoint where_from (i : nat) (m : list bool) : list nat :=
  match m with
  | [] => []
  | b :: m' => if b then i :: where_from (S i) m' else where_from (S i) m'
  end.

Definition np_where (m : list bool) : list nat := where_from 0 m.

Section select_obs.

(** The solution values [x.solution_value()] that the CBC solver of
    or-tools leaves after [solver.Solve()], as a function of the
    coefficients of the constraint, its upper bound, and the coefficients
    of the objective. *)
Variable Solve : list R -> R -> list R -> list R.

(** [t0[j]] is read for every [j < len(ck)]: [IndexError] when [t0] is
    shorter, and the entries of [t0] beyond [len(ck)] are not read. *)
Definition select_obs (t0 : list R) (maxTime : R) (ck : list R)
  : option (list nat) :=
  if (length ck <=? length t0)%nat then
    let xs2 := Solve (firstn (length ck) t0) maxTime ck in
    Some (np_where (map (fun v => Rgtb v 0) xs2))
  else None.

(** [solver.Objective().Value()], which line 620 prints. *)
Definition objective_value (t0 : list R) (maxTime : R) (ck : list R) : R :=
  dot ck (Solve (firstn (length ck) t0) maxTime ck).

End select_obs.

(** An exact method, by enumeration of the [2^n] assignments: a witness
    that [exact_solver] can be met. *)
Fixpoint assignments (n : nat) : list (list R) :=
  match n with
  | O => [[]]
  | S n' => map (cons 0) (assignments n') ++ map (cons 1) (assignments n')
  end.

Definition Rleb (x y : R) : bool := if Rle_dec x y then true else false.

(** Keep the incumbent unless the candidate is feasible and strictly
    better. *)
Definition improve (t0 : list R) (maxTime : R) (ck : list R)
    (best : option (list R)) (y : list R) : option (list R) :=
  if Rleb (dot t0 y) maxTime then
    match best with
    | None => Some y
    | Some x => if Rltb (dot ck x) (dot ck y) then Some y else Some x
    end
  else best.

Definition enumerate_solve (t0 : list R) (maxTime : R) (ck : list R)
  : list R :=
  match fold_left (improve t0 maxTime ck) (assignments (length t0)) None with
  | Some x => x
  | None => zeros (length t0)
  end.

(** ** The normalisation of [DoS_sum] over binary64 *)

Module Float64.
Import Floats.
Local Open Scope float_scope.

(** Lines 433-445 in float64 arithmetic, for the spline [Cs] and the
    quadrature [quad] of scipy; [x**2] is the product [x*x]. *)
Definition expected_Cmin (quad : (float -> float) -> float -> float -> float)
    (Cs : float -> float) (smin_i smax_i dist_i aj : float) : float :=
  if aj <? smin_i then 1
  else
    let su := if smax_i <? aj then smax_i else aj in
    let tup := sqrt (1 - (smin_i / aj) * (smin_i / aj)) in
    let tlow := sqrt (1 - (su / aj) * (su / aj)) in
    let f := fun t => Cs (aj * sqrt (1 - t * t) / dist_i) in
    let val := quad f tlow tup in
    val / (tup - tlow).

End Float64.

(** ** Further code of [__init__]: the quantities the aggregation reads *)

(** [x[idx]] for an array [idx] of indices: [IndexError] when an index is
    not below [len(x)] (the indices built here are never negative). *)
Definition take_idx {A : Type} (x : list A) (idx : list nat)
  : option (list A) :=
  traverse (nth_error x) idx.

(** The total of [c] over a list of indices, [c[idx].sum()]. *)
Definition sum_at (c : list R) (idx : list nat) : R :=
  fold_right Rplus 0 (map (fun i => nth i c 0) idx).

(** The 0/1 assignment that selects exactly the indices of [S]. *)
Definition indicator (n : nat) (S : list nat) : list R :=
  map (fun j => if existsb (Nat.eqb j) S then 1 else 0) (seq 0 n).

(** [x] with the entry [i] replaced by [v]. *)
Fixpoint set_nth (i : nat) (v : R) (x : list R) : list R :=
  match x, i with
  | [], _ => []
  | _ :: x', O => v :: x'
  | u :: x', S i' => u :: set_nth i' v x'
  end.

(** Lines 103-112: the range of planetary radii, with what is printed.  An
    [assert] that fails is [None]. *)
Definition radius_range (Rmin Rmax : R) : option (R * R * list String.string) :=
  if Rltb Rmin 45.0 then
    let '(Rmin, out) :=
      if Rltb Rmin 0.35 then (0.35, ["Rmin reset to 0.35*R_earth"%string])
      else (Rmin, []) in
    if Rgtb Rmax 0.35 then
      let out :=
        if Rgtb Rmax 45.0 then out ++ ["Rmax reset to 45.0*R_earth"%string]
        else out in
      if Rgtb Rmax Rmin then Some (Rmin, Rmax, out) else None
    else None
  else None.

(** Lines 230-232: the bin edges.  [np.linspace(start, stop, num)] with its
    end point, [np.logspace] as [10 ** linspace], [np.log10]. *)
Definition np_linspace (start stop : R) (num : nat) : list R :=
  match num with
  | O => []
  | S O => [start]
  | _ =>
      map (fun i => start + INR i * ((stop - start) / INR (num - 1)))
          (seq 0 num)
  end.

Definition np_log10 (x : R) : R := ln x / ln 10.

Definition np_logspace (start stop : R) (num : nat) : list R :=
  map (fun y => Rpower 10 y) (np_linspace start stop num).

(** [aedges] (line 230); [Redges] (lines 231-232) is the same with
    [Rmin*u.earthRad.to('AU')] and [Rmax*u.earthRad.to('AU')]. *)
Definition bin_edges (lo hi : R) (bins : nat) : list R :=
  np_logspace (np_log10 lo) (np_log10 hi) (bins + 1).

(** Lines 172-184: [smax] is capped at [amax]; the stars with
    [smin > amin] are kept, then of those the stars with [smin < amax]. *)
Definition filter_separations (amin amax : R) (smin smax : list R)
  : option (list R * list R) :=
  let smax := fill_mask (map (fun s => Rgtb s amax) smax) smax amax in
  let bigger := np_where (map (fun s => Rgtb s amin) smin) in
  smin <- take_idx smin bigger ;;
  smax <- take_idx smax bigger ;;
  let smaller := np_where (map (fun s => Rltb s amax) smin) in
  smin <- take_idx smin smaller ;;
  smax <- take_idx smax smaller ;;
  Some (smin, smax).

(** Lines 193-197: the stars whose integration time is below the cutoff. *)
Definition apply_cutoff (intCutoff : R) (smin smax t_int : list R)
  : option (list R * list R * list R) :=
  let cutoff := np_where (map (fun t => Rltb t intCutoff) t_int) in
  smin <- take_idx smin cutoff ;;
  smax <- take_idx smax cutoff ;;
  t_int <- take_idx t_int cutoff ;;
  Some (smin, smax, t_int).

(** [x * y] for two arrays of one shape. *)
Definition ndmul (x y : ndarray) : ndarray :=
  {| shape0 := shape0 x; shape1 := shape1 x;
     data := vmul (data x) (data y) |}.

(** [x[1:] - x[:-1]] *)
Definition np_diff (x : list R) : list R := vsub (tl x) (removelast x).

(** Lines 258-274: the occurrence rates [etas] and their product [DoS_occ]
    with the depth of search.  [func] is the joint density of semi-major
    axis and radius of the planet population, evaluated on the two corner
    grids; [Redges] is in Earth radii (line 251).  The arrays multiplied
    have one shape in [__init__]; any other case is left out as [None]
    (numpy would broadcast or raise). *)
Definition occurrence (func : ndarray -> ndarray -> ndarray) (eta : R)
    (aedges Redges : list R) (DoS : ndarray) : option (ndarray * ndarray) :=
  let '(aa, RR) := meshgrid aedges Redges in
  let r_norm := np_diff Redges in
  let a_norm := np_diff aedges in
  let '(norma, normR) := meshgrid a_norm r_norm in
  let tmp := func aa RR in
  let n := shape0 tmp in
  let m := shape1 tmp in
  let corners :=
    ndadd (ndadd (ndadd (slice tmp 0 (n - 1) 0 (m - 1))
                        (slice tmp 1 n 0 (m - 1)))
                 (slice tmp 0 (n - 1) 1 m))
          (slice tmp 1 n 1 m) in
  if same_shape corners norma && same_shape DoS norma then
    let etas := ndmul (ndmul (ndscale 0.25 corners) norma) normR in
    let etas := ndscale eta etas in
    let DoS_occ := ndmul (ndmul (ndmul DoS etas) norma) normR in
    Some (etas, DoS_occ)
  else None.

(** ** [plot_dos] and [plot_nplan]: the grid handed to the contour plot
    (lines 644-662, and the same lines 694-712) *)

(** A Python index [k] into a sequence of length [n]: negative indices
    count from the end; [IndexError] outside [-n .. n-1]. *)
Definition py_index (n : nat) (k : Z) : option nat :=
  if ((0 <=? k) && (k <? Z.of_nat n))%Z then Some (Z.to_nat k)
  else if ((- Z.of_nat n <=? k) && (k <? 0))%Z
       then Some (Z.to_nat (Z.of_nat n + k))
       else None.

(** [x[k]] for a one-dimensional array. *)
Definition py_get (x : list R) (k : Z) : option R :=
  i <- py_index (length x) k ;; nth_error x i.

(** The array of shape [(n, m)] with entries [f i j]. *)
Definition tabulate2 (n m : nat) (f : nat -> nat -> R) : ndarray :=
  {| shape0 := n; shape1 := m;
     data := flat_map (fun i => map (f i) (seq 0 m)) (seq 0 n) |}.

(** [x[:, k]] and [x[k, :]] *)
Definition column (x : ndarray) (k : Z) : option (list R) :=
  j <- py_index (shape1 x) k ;;
  Some (map (fun i => item x i j) (seq 0 (shape0 x))).

Definition row (x : ndarray) (k : Z) : option (list R) :=
  i <- py_index (shape0 x) k ;;
  Some (map (fun j => item x i j) (seq 0 (shape1 x))).

(** The position [np.insert] inserts at, along an axis of length [n]:
    [IndexError] outside [-n .. n], and a negative index counts from the
    end, so that [-1] is the place before the last entry. *)
Definition insert_index (n : nat) (k : Z) : option nat :=
  if ((0 <=? k) && (k <=? Z.of_nat n))%Z then Some (Z.to_nat k)
  else if ((- Z.of_nat n <=? k) && (k <? 0))%Z
       then Some (Z.to_nat (Z.of_nat n + k))
       else None.

(** [np.insert(x, k, vals, axis=1)] and [np.insert(x, k, vals, axis=0)]
    for a one-dimensional [vals] with one value per row, resp. per column
    (any other length is left out as [None]). *)
Definition insert_column (x : ndarray) (k : Z) (vals : list R)
  : option ndarray :=
  j0 <- insert_index (shape1 x) k ;;
  if (length vals =? shape0 x)%nat then
    Some (tabulate2 (shape0 x) (S (shape1 x))
            (fun i j => if (j <? j0)%nat then item x i j
                        else if (j =? j0)%nat then nth i vals 0
                             else item x i (j - 1)))
  else None.

Definition insert_row (x : ndarray) (k : Z) (vals : list R)
  : option ndarray :=
  i0 <- insert_index (shape0 x) k ;;
  if (length vals =? shape1 x)%nat then
    Some (tabulate2 (S (shape0 x)) (shape1 x)
            (fun i j => if (i <? i0)%nat then item x i j
                        else if (i =? i0)%nat then nth j vals 0
                             else item x (i - 1) j))
  else None.

(** [base + s*((v - u)/d)] for arrays [base], [v], [u] and scalars [s],
    [d]. *)
Definition extrapolate (base v u : list R) (s d : R) : list R :=
  vadd base (smul s (vdivs (vsub v u) d)).

Section plot.

(** [np.around(x, 4)] on one entry. *)
Variable around4 : R -> R.

(** Lines 644-646 (and 647-649): the first edge, the bin centres, the last
    edge, rounded. *)
Definition plot_axis (edges : list R) : option (list R) :=
  let cents := smul 0.5 (vadd (tl edges) (removelast edges)) in
  first <- py_get edges 0 ;;
  last <- py_get edges (-1) ;;
  Some (map around4 (first :: cents ++ [last])).

(** Lines 650-662 for the rounded axes [a] and [R]. *)
Definition plot_grid (a R_ : list R) (DoS : ndarray) : option ndarray :=
  (* extrapolate to left-most boundary *)
  c0 <- column DoS 0 ;; c1 <- column DoS 1 ;;
  a0 <- py_get a 0 ;; a1 <- py_get a 1 ;; a2 <- py_get a 2 ;;
  DoS <- insert_column DoS 0 (extrapolate c0 c1 c0 (a0 - a1) (a2 - a1)) ;;
  (* extrapolate to right-most boundary *)
  cl <- column DoS (-1) ;; cl2 <- column DoS (-2) ;;
  al <- py_get a (-1) ;; al2 <- py_get a (-2) ;; al3 <- py_get a (-3) ;;
  DoS <- insert_column DoS (-1) (extrapolate cl cl cl2 (al - al2) (al2 - al3)) ;;
  (* extrapolate to bottom-most boundary *)
  r0 <- row DoS 0 ;; r1 <- row DoS 1 ;;
  R0 <- py_get R_ 0 ;; R1 <- py_get R_ 1 ;; R2 <- py_get R_ 2 ;;
  DoS <- insert_row DoS 0 (extrapolate r0 r1 r0 (R0 - R1) (R2 - R1)) ;;
  (* extrapolate to upper-most boundary *)
  rl <- row DoS (-1) ;; rl2 <- row DoS (-2) ;;
  Rl <- py_get R_ (-1) ;; Rl2 <- py_get R_ (-2) ;; Rl3 <- py_get R_ (-3) ;;
  insert_row DoS (-1) (extrapolate rl rl rl2 (Rl - Rl2) (Rl2 - Rl3)).

(** Lines 644-662: the two axes and the grid the contour plot is given
    (before the mask of line 663). *)
Definition plot_input (aedges Redges : list R) (DoS : ndarray)
  : option (list R * list R * ndarray) :=
  a <- plot_axis aedges ;;
  R_ <- plot_axis Redges ;;
  g <- plot_grid a R_ DoS ;;
  Some (a, R_, g).

End plot.

Lemma Rltb_true x y : Rltb x y = true <-> x < y.
Proof. unfold Rltb; destruct (Rlt_dec x y); split; intros; try easy. Qed.

Lemma Rltb_false x y : Rltb x y = false <-> y <= x.
Proof.
  unfold Rltb; destruct (Rlt_dec x y); split; intros; try easy; lra.
Qed.

Lemma Rgeb_true x y : Rgeb x y = true <-> y <= x.
Proof. unfold Rgeb; destruct (Rle_dec y x); split; intros; try easy. Qed.

Lemma Rgeb_false x y : Rgeb x y = false <-> x < y.
Proof.
  unfold Rgeb; destruct (Rle_dec y x); split; intros; try easy; lra.
Qed.

Lemma Reqb_true x y : Reqb x y = true <-> x = y.
Proof. unfold Reqb; destruct (Req_dec_T x y); split; intros; try easy. Qed.

(** *** The vectorised code computes the pointwise function *)

Lemma grid_contained_cons p smin smax a ag r Rg c Cg :
  grid_contained p smin smax (a :: ag) (r :: Rg) (c :: Cg) =
  contained_point p smin smax a r c :: grid_contained p smin smax ag Rg Cg.
Proof.
  unfold grid_contained, contained_point, clip_below; cbn -[pow cos asin PI].
  destruct (Rltb _ c); destruct (Rltb _ c); cbn -[pow cos asin PI];
    destruct (Rgtb _ _); destruct (Rgtb _ _); reflexivity.
Qed.

Lemma grid_extended_cons p smin a al r Rl c Cl :
  grid_extended p smin (a :: al) (r :: Rl) (c :: Cl) =
  extended_point p smin a r c :: grid_extended p smin al Rl Cl.
Proof.
  unfold grid_extended, extended_point, clip_below; cbn -[pow cos asin PI].
  destruct (Rltb (smin / a) 1); cbn -[pow cos asin PI];
    destruct (Rltb _ c); cbn -[pow cos asin PI];
    destruct (Rgtb _ _); reflexivity.
Qed.

Lemma one_DoS_grid_data_cons a al r Rl p smin smax c Cl :
  one_DoS_grid_data (a :: al) (r :: Rl) p smin smax (c :: Cl) =
  one_DoS_point p smin smax a r c :: one_DoS_grid_data al Rl p smin smax Cl.
Proof.
  unfold one_DoS_grid_data, one_DoS_point.
  cbn -[grid_contained grid_extended contained_point extended_point].
  destruct (Rltb smax a), (Rgeb smax a);
    rewrite ?grid_contained_cons, ?grid_extended_cons;
    cbn -[grid_contained grid_extended contained_point extended_point];
    reflexivity.
Qed.

Lemma one_DoS_grid_data_map3 p smin smax a :
  forall R_ Cmin,
    length R_ = length a -> length Cmin = length a ->
    one_DoS_grid_data a R_ p smin smax Cmin =
    map3 (one_DoS_point p smin smax) a R_ Cmin.
Proof.
  induction a as [|x a IH]; intros [|r R_] [|c Cmin] HR HC;
    try discriminate; [reflexivity|].
  rewrite one_DoS_grid_data_cons; cbn [map3]; f_equal.
  apply IH; simpl in *; lia.
Qed.

Lemma map3_length {A B C D} (f : A -> B -> C -> D) x :
  forall y z, length y = length x -> length z = length x ->
    length (map3 f x y z) = length x.
Proof.
  induction x as [|u x IH]; intros [|v y] [|w z] Hy Hz;
    try discriminate; [reflexivity|].
  cbn [map3 length]; f_equal; apply IH; simpl in *; lia.
Qed.

Lemma map3_nth {A B C D} (f : A -> B -> C -> D) da db dc dd x :
  forall y z k, length y = length x -> length z = length x ->
    (k < length x)%nat ->
    nth k (map3 f x y z) dd = f (nth k x da) (nth k y db) (nth k z dc).
Proof.
  induction x as [|u x IH]; intros [|v y] [|w z] k Hy Hz Hk;
    try discriminate; simpl in Hk; try lia.
  destruct k as [|k]; [reflexivity|].
  cbn [map3 nth]; apply IH; simpl in *; lia.
Qed.

(** *** One pair of phase-boundary contrasts: clip, then the feasibility
    check *)

Lemma clip_below_ge C Cmin : C <= clip_below C Cmin /\ Cmin <= clip_below C Cmin.
Proof.
  unfold clip_below; destruct (Rltb C Cmin) eqn:E.
  - apply Rltb_true in E; lra.
  - apply Rltb_false in E; lra.
Qed.

Lemma clip_below_mono C Cmin Cmin' :
  Cmin <= Cmin' -> clip_below C Cmin <= clip_below C Cmin'.
Proof.
  intros H; unfold clip_below.
  destruct (Rltb C Cmin) eqn:E, (Rltb C Cmin') eqn:E';
    rewrite ?Rltb_true, ?Rltb_false in *; lra.
Qed.

Lemma pair_term_nonneg Cout Cin Cmin : 0 <= pair_term Cout Cin Cmin.
Proof.
  unfold pair_term, Rgtb.
  destruct (Rltb Cout (clip_below Cin Cmin)) eqn:E.
  - lra.
  - apply Rltb_false in E; apply sqrt_le_1_alt in E; lra.
Qed.

Lemma pair_term_antitone Cout Cin Cmin Cmin' :
  Cmin <= Cmin' -> pair_term Cout Cin Cmin' <= pair_term Cout Cin Cmin.
Proof.
  intros H; pose proof (clip_below_mono Cin _ _ H) as Hc.
  unfold pair_term, Rgtb.
  destruct (Rltb Cout (clip_below Cin Cmin')) eqn:E';
    destruct (Rltb Cout (clip_below Cin Cmin)) eqn:E;
    rewrite ?Rltb_true, ?Rltb_false in *.
  - lra.
  - apply sqrt_le_1_alt in E; lra.
  - lra.
  - apply sqrt_le_1_alt in Hc; lra.
Qed.

Lemma pair_term_degenerate C Cmin : pair_term C C Cmin = 0.
Proof.
  unfold pair_term, Rgtb.
  destruct (Rltb C (clip_below C Cmin)) eqn:E.
  - lra.
  - apply Rltb_false in E; pose proof (clip_below_ge C Cmin) as [H _].
    replace (clip_below C Cmin) with C by lra; lra.
Qed.

Lemma contained_point_pairs p smin smax a R_ Cmin :
  contained_point p smin smax a R_ Cmin =
  a / sqrt (p * R_ ^ 2) *
  (pair_term (p * (R_ / a) ^ 2 * cos ((PI - asin (smax / a)) / 2) ^ 4)
             (p * (R_ / a) ^ 2 * cos ((PI - asin (smin / a)) / 2) ^ 4) Cmin
   + pair_term (p * (R_ / a) ^ 2 * cos (asin (smin / a) / 2) ^ 4)
               (p * (R_ / a) ^ 2 * cos (asin (smax / a) / 2) ^ 4) Cmin).
Proof. unfold contained_point, pair_term; cbv zeta; ring. Qed.

Lemma extended_point_pair p smin a R_ Cmin :
  extended_point p smin a R_ Cmin =
  a / sqrt (p * R_ ^ 2) *
  pair_term
    (if Rltb (smin / a) 1
     then p * (R_ / a) ^ 2 * cos (asin (smin / a) / 2) ^ 4 else 1)
    (if Rltb (smin / a) 1
     then p * (R_ / a) ^ 2 * cos ((PI - asin (smin / a)) / 2) ^ 4 else 1)
    Cmin.
Proof.
  unfold extended_point, pair_term; cbv zeta.
  destruct (Rltb (smin / a) 1); reflexivity.
Qed.

Lemma scale_nonneg p a R_ : 0 < a -> 0 < R_ -> 0 < p -> 0 < a / sqrt (p * R_ ^ 2).
Proof.
  intros Ha HR Hp; apply Rdiv_lt_0_compat; [lra|].
  apply sqrt_lt_R0; apply Rmult_lt_0_compat; [lra|]. 
  apply pow_lt; lra.
Qed.

(** *** [one_DoS_point]: sign, monotonicity, degenerate band *)

Lemma one_DoS_point_nonneg p smin smax a R_ Cmin :
  0 < a -> 0 < R_ -> 0 < p -> 0 <= one_DoS_point p smin smax a R_ Cmin.
Proof.
  intros Ha HR Hp; pose proof (scale_nonneg p a R_ Ha HR Hp) as HK.
  unfold one_DoS_point; cbv zeta.
  destruct (Rgtb smin a); [lra|].
  destruct (Rgeb smax a).
  - rewrite extended_point_pair.
    apply Rmult_le_pos; [lra | apply pair_term_nonneg].
  - destruct (Rltb smax a); [|lra].
    rewrite contained_point_pairs.
    apply Rmult_le_pos; [lra|].
    apply Rplus_le_le_0_compat; apply pair_term_nonneg.
Qed.

Lemma one_DoS_point_far p smin smax a R_ Cmin :
  a < smin -> one_DoS_point p smin smax a R_ Cmin = 0.
Proof.
  intros H; unfold one_DoS_point, Rgtb; cbv zeta.
  apply Rltb_true in H; rewrite H; reflexivity.
Qed.

Lemma one_DoS_point_antitone p smin smax a R_ Cmin Cmin' :
  0 < a -> 0 < R_ -> 0 < p -> Cmin <= Cmin' ->
  one_DoS_point p smin smax a R_ Cmin' <= one_DoS_point p smin smax a R_ Cmin.
Proof.
  intros Ha HR Hp HC; pose proof (scale_nonneg p a R_ Ha HR Hp) as HK.
  unfold one_DoS_point; cbv zeta.
  destruct (Rgtb smin a); [lra|].
  destruct (Rgeb smax a).
  - rewrite !extended_point_pair.
    apply Rmult_le_compat_l; [lra | apply pair_term_antitone, HC].
  - destruct (Rltb smax a); [|lra].
    rewrite !contained_point_pairs.
    apply Rmult_le_compat_l; [lra|].
    apply Rplus_le_compat; apply pair_term_antitone, HC.
Qed.

Lemma one_DoS_point_degenerate p s a R_ Cmin :
  0 < a -> one_DoS_point p s s a R_ Cmin = 0.
Proof.
  intros Ha; unfold one_DoS_point; cbv zeta.
  destruct (Rgtb s a) eqn:Efar; [reflexivity|].
  apply Rltb_false in Efar.
  destruct (Rgeb s a) eqn:Ege.
  - apply Rgeb_true in Ege.
    assert (s = a) by lra; subst s.
    rewrite extended_point_pair.
    replace (a / a) with 1 by (field; lra).
    assert (E : Rltb 1 1 = false) by (apply Rltb_false; lra).
    rewrite E, pair_term_degenerate; ring.
  - apply Rgeb_false in Ege.
    assert (E : Rltb s a = true) by (apply Rltb_true; lra).
    rewrite E, contained_point_pairs, !pair_term_degenerate; ring.
Qed.

(** *** From the buffer to the entries [f[i, j]] *)

Lemma index_in_shape i j n m : (i < n -> j < m -> i * m + j < n * m)%nat.
Proof. intros; nia. Qed.

Lemma same_shape_true x y :
  same_shape x y = true <-> shape0 x = shape0 y /\ shape1 x = shape1 y.
Proof.
  unfold same_shape; rewrite andb_true_iff, !Nat.eqb_eq; tauto.
Qed.

Lemma one_DoS_grid_item a R_ p smin smax Cmin :
  wf a -> wf R_ -> wf Cmin ->
  same_shape a R_ = true -> same_shape a Cmin = true ->
  exists f,
    one_DoS_grid a R_ p smin smax Cmin = Some f /\
    wf f /\ shape0 f = shape0 a /\ shape1 f = shape1 a /\
    forall i j, (i < shape0 a)%nat -> (j < shape1 a)%nat ->
      item f i j =
      one_DoS_point p smin smax (item a i j) (item R_ i j) (item Cmin i j).
Proof.
  intros Wa WR WC SR SC; unfold one_DoS_grid; rewrite SR, SC; cbn [andb].
  apply same_shape_true in SR, SC; destruct SR as [SR0 SR1], SC as [SC0 SC1].
  unfold wf in *.
  assert (LR : length (data R_) = length (data a)) by congruence.
  assert (LC : length (data Cmin) = length (data a)) by congruence.
  eexists; split; [reflexivity|]; cbn [shape0 shape1 data].
  rewrite one_DoS_grid_data_map3 by assumption.
  split; [|split; [reflexivity|split; [reflexivity|]]].
  - unfold wf; cbn [shape0 shape1 data]; rewrite map3_length; assumption.
  - intros i j Hi Hj; unfold item; cbn [shape1 data].
    rewrite <- SR1, <- SC1.
    apply map3_nth; try assumption.
    rewrite Wa; apply index_in_shape; assumption.
Qed.

Lemma positive_item x i j :
  wf x -> positive x -> (i < shape0 x)%nat -> (j < shape1 x)%nat ->
  0 < item x i j.
Proof.
  intros W P Hi Hj; unfold item.
  eapply Forall_nth with (d := 0) in P; [exact P|].
  rewrite W; apply index_in_shape; assumption.
Qed.

(** ** Geometric visibility model *)

(** C5: for arrays [a], [R], [Cmin] of one shape with positive [a] and [R],
    positive [p] and [smin, smax >= 0], [one_DoS_grid] returns an array
    that is non-negative at every grid point and zero at every grid point
    where [smin > a]. *)
Theorem one_DoS_grid_nonneg a R_ p smin smax Cmin :
  wf a -> wf R_ -> wf Cmin ->
  same_shape a R_ = true -> same_shape a Cmin = true ->
  positive a -> positive R_ -> 0 < p -> 0 <= smin -> 0 <= smax ->
  exists f,
    one_DoS_grid a R_ p smin smax Cmin = Some f /\
    shape0 f = shape0 a /\ shape1 f = shape1 a /\
    forall i j, (i < shape0 a)%nat -> (j < shape1 a)%nat ->
      0 <= item f i j /\ (smin > item a i j -> item f i j = 0).
Proof.
  intros Wa WR WC SR SC Pa PR Hp _ _.
  destruct (one_DoS_grid_item a R_ p smin smax Cmin Wa WR WC SR SC)
    as (f & Hf & _ & S0 & S1 & Hitem).
  exists f; repeat split; try assumption; rewrite Hitem by assumption.
  - apply same_shape_true in SR; destruct SR as [SR0 SR1].
    apply one_DoS_point_nonneg; try assumption.
    + apply positive_item; assumption.
    + apply positive_item; try assumption; congruence.
  - intros Hfar; apply one_DoS_point_far; lra.
Qed.

Lemma one_DoS_grid_nonneg_witness :
  exists f,
    one_DoS_grid ex_a ex_R 0.3 1.5 3 ex_Cmin = Some f /\
    shape0 f = 2%nat /\ shape1 f = 2%nat /\
    forall i j, (i < 2)%nat -> (j < 2)%nat ->
      0 <= item f i j /\ (1.5 > item ex_a i j -> item f i j = 0).
Proof.
  apply (one_DoS_grid_nonneg ex_a ex_R 0.3 1.5 3 ex_Cmin);
    try reflexivity; try (repeat constructor; lra); lra.
Defined.

(** C3: for a fixed star ([smin, smax >= 0], positive [p]) and a grid of
    positive [a] and [R], raising the contrast floor pointwise does not
    raise [one_DoS_grid] at any grid point. *)
Theorem one_DoS_grid_antitone a R_ p smin smax Cmin Cmin' :
  wf a -> wf R_ -> wf Cmin -> wf Cmin' ->
  same_shape a R_ = true -> same_shape a Cmin = true ->
  same_shape a Cmin' = true ->
  positive a -> positive R_ -> 0 < p -> 0 <= smin -> 0 <= smax ->
  (forall i j, (i < shape0 a)%nat -> (j < shape1 a)%nat ->
     item Cmin i j <= item Cmin' i j) ->
  exists f f',
    one_DoS_grid a R_ p smin smax Cmin = Some f /\
    one_DoS_grid a R_ p smin smax Cmin' = Some f' /\
    forall i j, (i < shape0 a)%nat -> (j < shape1 a)%nat ->
      item f' i j <= item f i j.
Proof.
  intros Wa WR WC WC' SR SC SC' Pa PR Hp _ _ Hle.
  destruct (one_DoS_grid_item a R_ p smin smax Cmin Wa WR WC SR SC)
    as (f & Hf & _ & _ & _ & Hitem).
  destruct (one_DoS_grid_item a R_ p smin smax Cmin' Wa WR WC' SR SC')
    as (f' & Hf' & _ & _ & _ & Hitem').
  exists f, f'; repeat split; try assumption.
  intros i j Hi Hj; rewrite Hitem, Hitem' by assumption.
  apply same_shape_true in SR; destruct SR as [SR0 SR1].
  apply one_DoS_point_antitone; try assumption.
  - apply positive_item; assumption.
  - apply positive_item; try assumption; congruence.
  - apply Hle; assumption.
Qed.

Lemma ex_Cmin_le i j :
  (i < 2)%nat -> (j < 2)%nat -> item ex_Cmin i j <= item ex_Cmin' i j.
Proof.
  intros Hi Hj.
  destruct i as [|[|i]]; [| |lia]; (destruct j as [|[|j]]; [| |lia]);
    unfold item; simpl; lra.
Defined.

Lemma one_DoS_grid_antitone_witness :
  exists f f',
    one_DoS_grid ex_a ex_R 0.3 0.5 1.5 ex_Cmin = Some f /\
    one_DoS_grid ex_a ex_R 0.3 0.5 1.5 ex_Cmin' = Some f' /\
    forall i j, (i < 2)%nat -> (j < 2)%nat -> item f' i j <= item f i j.
Proof.
  apply (one_DoS_grid_antitone ex_a ex_R 0.3 0.5 1.5 ex_Cmin ex_Cmin');
    try reflexivity; try (repeat constructor; lra); try lra.
  exact ex_Cmin_le.
Defined.

(** C10: for a degenerate band [smin = smax >= 0], a grid of positive [a]
    and [R] and positive [p], [one_DoS_grid] returns zero at every grid
    point. *)
Theorem one_DoS_grid_degenerate a R_ p s Cmin :
  wf a -> wf R_ -> wf Cmin ->
  same_shape a R_ = true -> same_shape a Cmin = true ->
  positive a -> positive R_ -> 0 < p -> 0 <= s ->
  exists f,
    one_DoS_grid a R_ p s s Cmin = Some f /\
    forall i j, (i < shape0 a)%nat -> (j < shape1 a)%nat -> item f i j = 0.
Proof.
  intros Wa WR WC SR SC Pa _ _ _.
  destruct (one_DoS_grid_item a R_ p s s Cmin Wa WR WC SR SC)
    as (f & Hf & _ & _ & _ & Hitem).
  exists f; split; [assumption|].
  intros i j Hi Hj; rewrite Hitem by assumption.
  apply one_DoS_point_degenerate, positive_item; assumption.
Qed.

Lemma one_DoS_grid_degenerate_witness :
  exists f,
    one_DoS_grid ex_a ex_R 0.3 1.5 1.5 ex_Cmin = Some f /\
    forall i j, (i < 2)%nat -> (j < 2)%nat -> item f i j = 0.
Proof.
  apply (one_DoS_grid_degenerate ex_a ex_R 0.3 1.5 ex_Cmin);
    try reflexivity; try (repeat constructor; lra); lra.
Defined.

(** ** Bin integrator *)

Lemma map2_length {A B C} (f : A -> B -> C) x :
  forall y, length y = length x -> length (map2 f x y) = length x.
Proof.
  induction x as [|u x IH]; intros [|v y] Hy; try discriminate;
    [reflexivity|].
  cbn [map2 length]; f_equal; apply IH; simpl in Hy; lia.
Qed.

Lemma map2_nth {A B C} (f : A -> B -> C) da db dc x :
  forall y k, length y = length x -> (k < length x)%nat ->
    nth k (map2 f x y) dc = f (nth k x da) (nth k y db).
Proof.
  induction x as [|u x IH]; intros [|v y] k Hy Hk; try discriminate;
    simpl in Hk; try lia.
  destruct k as [|k]; [reflexivity|].
  cbn [map2 nth]; apply IH; simpl in *; lia.
Qed.

Lemma flat_map_rows_length {A} (g : nat -> list A) m n :
  (forall i, length (g i) = m) ->
  forall s, length (flat_map g (seq s n)) = (n * m)%nat.
Proof.
  intros Hg; induction n as [|n IH]; intros s; [reflexivity|].
  cbn [seq flat_map]; rewrite length_app, Hg, IH; lia.
Qed.

Lemma flat_map_rows_nth {A} (g : nat -> list A) m d :
  (forall i, length (g i) = m) ->
  forall n s i j, (i < n)%nat -> (j < m)%nat ->
    nth (i * m + j) (flat_map g (seq s n)) d = nth j (g (s + i)%nat) d.
Proof.
  intros Hg; induction n as [|n IH]; intros s i j Hi Hj; [lia|].
  cbn [seq flat_map]; destruct i as [|i].
  - rewrite app_nth1 by (rewrite Hg; lia).
    rewrite Nat.add_0_r; reflexivity.
  - rewrite app_nth2 by (rewrite Hg; lia).
    rewrite Hg.
    replace (S i * m + j - m)%nat with (i * m + j)%nat by lia.
    rewrite IH by lia; f_equal; f_equal; lia.
Qed.

Lemma slice_wf x r0 r1 c0 c1 : wf (slice x r0 r1 c0 c1).
Proof.
  unfold wf, slice; cbn [shape0 shape1 data].
  apply flat_map_rows_length; intros i; rewrite length_map, length_seq.
  reflexivity.
Qed.

Lemma slice_item x r0 r1 c0 c1 i j :
  (i < r1 - r0)%nat -> (j < c1 - c0)%nat ->
  item (slice x r0 r1 c0 c1) i j = item x (r0 + i) (c0 + j).
Proof.
  intros Hi Hj; unfold item at 1; unfold slice; cbn [shape0 shape1 data].
  rewrite flat_map_rows_nth with (m := (c1 - c0)%nat); try assumption.
  - rewrite nth_indep with (d' := item x (r0 + (0 + i)) (c0 + 0))
      by (rewrite length_map, length_seq; assumption).
    rewrite (map_nth (fun j0 => item x (r0 + (0 + i)) (c0 + j0))).
    rewrite seq_nth by assumption; reflexivity.
  - intros k; rewrite length_map, length_seq; reflexivity.
Qed.

Lemma ndadd_wf x y :
  wf x -> wf y -> same_shape x y = true -> wf (ndadd x y).
Proof.
  intros Wx Wy S; apply same_shape_true in S; destruct S as [S0 S1].
  unfold wf, ndadd, vadd in *; cbn [shape0 shape1 data].
  rewrite map2_length; congruence.
Qed.

Lemma ndadd_item x y i j :
  wf x -> wf y -> same_shape x y = true ->
  (i < shape0 x)%nat -> (j < shape1 x)%nat ->
  item (ndadd x y) i j = item x i j + item y i j.
Proof.
  intros Wx Wy S Hi Hj; apply same_shape_true in S; destruct S as [S0 S1].
  unfold item, ndadd, vadd; cbn [shape0 shape1 data]; rewrite <- S1.
  unfold wf in *; apply map2_nth; [congruence|].
  rewrite Wx; apply index_in_shape; assumption.
Qed.

Lemma ndscale_wf c x : wf x -> wf (ndscale c x).
Proof.
  unfold wf, ndscale, smul; cbn [shape0 shape1 data].
  rewrite length_map; trivial.
Qed.

Lemma ndscale_item c x i j :
  wf x -> (i < shape0 x)%nat -> (j < shape1 x)%nat ->
  item (ndscale c x) i j = c * item x i j.
Proof.
  intros Wx Hi Hj; unfold item, ndscale, smul; cbn [shape0 shape1 data].
  assert (Hk : (i * shape1 x + j < length (data x))%nat)
    by (rewrite Wx; apply index_in_shape; assumption).
  rewrite nth_indep with (d' := c * 0) by (rewrite length_map; exact Hk).
  apply (map_nth (fun u => c * u)).
Qed.

(** The mean of the four corners of every bin of a corner grid [tmp]. *)
Lemma bin_mean_item tmp N M :
  wf tmp -> shape0 tmp = S N -> shape1 tmp = S M ->
  let f :=
    ndscale 0.25
      (ndadd (ndadd (ndadd (slice tmp 0 (shape0 tmp - 1) 0 (shape1 tmp - 1))
                           (slice tmp 1 (shape0 tmp) 0 (shape1 tmp - 1)))
                    (slice tmp 0 (shape0 tmp - 1) 1 (shape1 tmp)))
             (slice tmp 1 (shape0 tmp) 1 (shape1 tmp))) in
  shape0 f = N /\ shape1 f = M /\ wf f /\
  forall i j, (i < N)%nat -> (j < M)%nat ->
    item f i j =
    0.25 * (item tmp i j + item tmp (S i) j + item tmp i (S j)
            + item tmp (S i) (S j)).
Proof.
  intros W S0 S1; cbv zeta; rewrite S0, S1.
  replace (S N - 1)%nat with N by lia; replace (S M - 1)%nat with M by lia.
  set (s00 := slice tmp 0 N 0 M); set (s10 := slice tmp 1 (S N) 0 M).
  set (s01 := slice tmp 0 N 1 (S M)); set (s11 := slice tmp 1 (S N) 1 (S M)).
  assert (E00 : shape0 s00 = N /\ shape1 s00 = M)
    by (unfold s00; cbn [slice shape0 shape1]; split; lia).
  assert (E10 : same_shape s00 s10 = true)
    by (apply same_shape_true; cbn; split; lia).
  assert (E01 : same_shape (ndadd s00 s10) s01 = true)
    by (apply same_shape_true; cbn; split; lia).
  assert (E11 : same_shape (ndadd (ndadd s00 s10) s01) s11 = true)
    by (apply same_shape_true; cbn; split; lia).
  assert (W1 : wf (ndadd s00 s10))
    by (apply ndadd_wf; [apply slice_wf | apply slice_wf | exact E10]).
  assert (W2 : wf (ndadd (ndadd s00 s10) s01))
    by (apply ndadd_wf; [exact W1 | apply slice_wf | exact E01]).
  assert (W3 : wf (ndadd (ndadd (ndadd s00 s10) s01) s11))
    by (apply ndadd_wf; [exact W2 | apply slice_wf | exact E11]).
  split; [cbn; lia|]; split; [cbn; lia|]; split; [apply ndscale_wf, W3|].
  intros i j Hi Hj.
  rewrite ndscale_item by (try exact W3; cbn; lia).
  rewrite ndadd_item
    by (first [exact W2 | apply slice_wf | exact E11 | cbn; lia]).
  rewrite ndadd_item
    by (first [exact W1 | apply slice_wf | exact E01 | cbn; lia]).
  rewrite ndadd_item by (first [apply slice_wf | exact E10 | cbn; lia]).
  unfold s00, s10, s01, s11; rewrite !slice_item by lia.
  rewrite !Nat.add_0_l; reflexivity.
Qed.

(** C6: for inputs whose corner grid has shape [(N+1, M+1)],
    [one_DoS_bins] returns an array of shape [(N, M)] whose entry [(i, j)]
    is [0.25*(v[i,j] + v[i+1,j] + v[i,j+1] + v[i+1,j+1])] for the corner
    values [v] computed by [one_DoS_grid]. *)
Theorem one_DoS_bins_mean a R_ p smin smax Cmin N M :
  wf a -> wf R_ -> wf Cmin ->
  same_shape a R_ = true -> same_shape a Cmin = true ->
  shape0 a = S N -> shape1 a = S M ->
  exists v f,
    one_DoS_grid a R_ p smin smax Cmin = Some v /\
    shape0 v = S N /\ shape1 v = S M /\
    one_DoS_bins a R_ p smin smax Cmin = Some f /\
    shape0 f = N /\ shape1 f = M /\ wf f /\
    forall i j, (i < N)%nat -> (j < M)%nat ->
      item f i j =
      0.25 * (item v i j + item v (S i) j + item v i (S j)
              + item v (S i) (S j)).
Proof.
  intros Wa WR WC SR SC S0 S1.
  destruct (one_DoS_grid_item a R_ p smin smax Cmin Wa WR WC SR SC)
    as (v & Hv & Wv & V0 & V1 & _).
  rewrite S0 in V0; rewrite S1 in V1.
  destruct (bin_mean_item v N M Wv V0 V1) as (F0 & F1 & WF & Hitem).
  eexists v, _; split; [exact Hv|]; split; [exact V0|]; split; [exact V1|].
  split; [unfold one_DoS_bins; rewrite Hv; cbn [bind]; reflexivity|].
  repeat split; assumption.
Qed.

Lemma one_DoS_bins_mean_witness :
  exists v f,
    one_DoS_grid ex_a ex_R 0.3 0.5 1.5 ex_Cmin = Some v /\
    shape0 v = 2%nat /\ shape1 v = 2%nat /\
    one_DoS_bins ex_a ex_R 0.3 0.5 1.5 ex_Cmin = Some f /\
    shape0 f = 1%nat /\ shape1 f = 1%nat /\ wf f /\
    forall i j, (i < 1)%nat -> (j < 1)%nat ->
      item f i j =
      0.25 * (item v i j + item v (S i) j + item v i (S j)
              + item v (S i) (S j)).
Proof.
  apply (one_DoS_bins_mean ex_a ex_R 0.3 0.5 1.5 ex_Cmin 1 1); reflexivity.
Defined.

(** ** Depth-of-search aggregator *)

Lemma np_zeros_spec n m :
  exists z,
    np_zeros (Z.of_nat n) (Z.of_nat m) = Some z /\
    shape0 z = n /\ shape1 z = m /\ wf z /\
    forall i j, item z i j = 0.
Proof.
  unfold np_zeros.
  replace ((0 <=? Z.of_nat n)%Z && (0 <=? Z.of_nat m)%Z) with true
    by (symmetry; apply andb_true_iff; split; apply Z.leb_le; lia).
  rewrite !Nat2Z.id; eexists; split; [reflexivity|].
  cbn [shape0 shape1 data]; repeat split.
  - unfold wf, zeros; cbn [shape0 shape1 data]; apply repeat_length.
  - intros i j; unfold item, zeros; cbn [shape1 data]; apply nth_repeat.
Qed.

(** C9: over an empty star list, [DoS_sum] returns the all-zero array of
    shape [(aa.shape[0]-1, aa.shape[1]-1)] for every corner grid [aa] with
    at least one row and one column, and [__init__] takes the same array
    when no star is left. *)
Theorem DoS_sum_empty spline quad a aa R_ RR pexp smax dist C_inst WA :
  (1 <= shape0 aa)%nat -> (1 <= shape1 aa)%nat ->
  exists z,
    DoS_sum spline quad a aa R_ RR pexp [] smax dist C_inst WA = Some z /\
    init_DoS spline quad 0 a aa R_ RR pexp [] smax dist C_inst WA = Some z /\
    shape0 z = (shape0 aa - 1)%nat /\ shape1 z = (shape1 aa - 1)%nat /\
    wf z /\
    forall i j, (i < shape0 z)%nat -> (j < shape1 z)%nat -> item z i j = 0.
Proof.
  intros H0 H1.
  destruct (np_zeros_spec (shape0 aa - 1) (shape1 aa - 1))
    as (z & Hz & S0 & S1 & W & Hitem).
  replace (Z.of_nat (shape0 aa - 1)) with (Z.of_nat (shape0 aa) - 1)%Z in Hz
    by lia.
  replace (Z.of_nat (shape1 aa - 1)) with (Z.of_nat (shape1 aa) - 1)%Z in Hz
    by lia.
  exists z; split; [|split].
  - unfold DoS_sum; rewrite Hz; reflexivity.
  - unfold init_DoS; cbn [Nat.ltb Nat.leb]; exact Hz.
  - repeat split; auto.
Qed.

Lemma DoS_sum_empty_witness :
  exists z,
    DoS_sum (fun _ _ => Some (fun _ => 0)) (fun _ _ _ => 0) [1; 2] ex_a
      [1; 3] ex_R 0.3 [] [] [] [] [0.1; 0.2] = Some z /\
    init_DoS (fun _ _ => Some (fun _ => 0)) (fun _ _ _ => 0) 0 [1; 2] ex_a
      [1; 3] ex_R 0.3 [] [] [] [] [0.1; 0.2] = Some z /\
    shape0 z = 1%nat /\ shape1 z = 1%nat /\ wf z /\
    forall i j, (i < shape0 z)%nat -> (j < shape1 z)%nat -> item z i j = 0.
Proof.
  apply (DoS_sum_empty (fun _ _ => Some (fun _ => 0)) (fun _ _ _ => 0)
           [1; 2] ex_a [1; 3] ex_R 0.3 [] [] [] [0.1; 0.2]); simpl; lia.
Defined.

(** *** [DoS_sum] returns a grid when every star has a spline *)

Lemma flat_map_const_length {A B} (g : A -> list B) m l :
  (forall v, length (g v) = m) -> length (flat_map g l) = (length l * m)%nat.
Proof.
  intros Hg; induction l as [|v l IH]; [reflexivity|].
  cbn [flat_map length]; rewrite length_app, Hg, IH; lia.
Qed.

Lemma meshgrid_wf x y :
  wf (fst (meshgrid x y)) /\ wf (snd (meshgrid x y)).
Proof.
  unfold wf, meshgrid; cbn [fst snd shape0 shape1 data]; split;
    apply flat_map_const_length; intros v;
    [reflexivity | apply repeat_length].
Qed.

Lemma one_DoS_bins_total a R_ p smin smax Cmin :
  wf a -> wf R_ -> wf Cmin ->
  same_shape a R_ = true -> same_shape a Cmin = true ->
  exists f,
    one_DoS_bins a R_ p smin smax Cmin = Some f /\ wf f /\
    shape0 f = (shape0 a - 1)%nat /\ shape1 f = (shape1 a - 1)%nat.
Proof.
  intros Wa WR WC SR SC.
  destruct (one_DoS_grid_item a R_ p smin smax Cmin Wa WR WC SR SC)
    as (v & Hv & Wv & V0 & V1 & _).
  unfold one_DoS_bins; rewrite Hv; cbn [bind].
  eexists; split; [reflexivity|]; split.
  - apply ndscale_wf.
    repeat (apply ndadd_wf;
            [| apply slice_wf | apply same_shape_true; cbn; split; lia]).
    apply slice_wf.
  - cbn; rewrite V0, V1; split; lia.
Qed.

Section DoS_sum_total.
Variable spline : list R -> list R -> option (R -> R).
Variable quad : (R -> R) -> R -> R -> R.

Lemma traverse_expected_Cmin Cs smin_i smax_i dist i a :
  (i < length dist)%nat ->
  exists Cmin,
    traverse (expected_Cmin quad Cs smin_i smax_i dist i) a = Some Cmin /\
    length Cmin = length a.
Proof.
  intros Hi; induction a as [|aj a (Cmin & HC & HL)].
  - exists []; split; reflexivity.
  - cbn [traverse]; rewrite HC; unfold expected_Cmin.
    destruct (Rltb aj smin_i).
    + eexists; split; [reflexivity | simpl; lia].
    + destruct (nth_error dist i) as [d|] eqn:Ed;
        [|apply nth_error_None in Ed; lia].
      eexists; split; [reflexivity | simpl; lia].
Qed.

Lemma DoS_loop_total a aa R_ pexp smin smax dist C_inst WA n :
  wf aa -> shape0 aa = length R_ -> shape1 aa = length a ->
  length smin = n -> length smax = n -> length dist = n ->
  length C_inst = n ->
  Forall (fun C => exists Cs, spline WA C = Some Cs) C_inst ->
  forall todo DoS,
    Forall (fun i => (i < n)%nat) todo ->
    wf DoS -> shape0 DoS = (shape0 aa - 1)%nat ->
    shape1 DoS = (shape1 aa - 1)%nat ->
    exists z,
      DoS_loop spline quad a aa R_ pexp smin smax dist C_inst WA todo DoS
        = Some z /\
      wf z /\ shape0 z = (shape0 aa - 1)%nat /\
      shape1 z = (shape1 aa - 1)%nat.
Proof.
  intros Waa A0 A1 Lmin Lmax Ldist LC Hspl.
  induction todo as [|i todo IH]; intros DoS Hall WD D0 D1.
  - exists DoS; auto.
  - inversion Hall as [|? ? Hi Hall']; subst; cbn [DoS_loop].
    destruct (nth_error C_inst i) as [C_i|] eqn:EC;
      [|apply nth_error_None in EC; lia].
    cbn [bind].
    destruct (proj1 (Forall_forall _ _) Hspl C_i (nth_error_In _ _ EC))
      as [Cs ECs]; rewrite ECs.
    destruct (nth_error smin i) as [smin_i|] eqn:Emin;
      [|apply nth_error_None in Emin; lia].
    destruct (nth_error smax i) as [smax_i|] eqn:Emax;
      [|apply nth_error_None in Emax; lia].
    cbn [bind].
    destruct (traverse_expected_Cmin Cs smin_i smax_i dist i a)
      as (Cmin & HC & HL); [lia|].
    rewrite HC; cbn [bind].
    destruct (meshgrid_wf Cmin R_) as [WCC WRR].
    destruct (meshgrid Cmin R_) as [CC RR] eqn:EM.
    assert (SCC : shape0 CC = length R_ /\ shape1 CC = length Cmin)
      by (unfold meshgrid in EM; injection EM as <- <-; auto).
    assert (SRR : shape0 RR = length R_ /\ shape1 RR = length Cmin)
      by (unfold meshgrid in EM; injection EM as <- <-; auto).
    cbn [fst snd] in WCC, WRR.
    destruct (one_DoS_bins_total aa RR pexp smin_i smax_i CC)
      as (tmp & Htmp & Wtmp & T0 & T1); try assumption;
      try (apply same_shape_true; split; lia).
    rewrite Htmp; cbn [bind]; apply IH; try assumption.
    apply ndadd_wf; try assumption.
    apply same_shape_true; split; lia.
Qed.

Lemma DoS_sum_total a aa R_ RR pexp smin smax dist C_inst WA :
  wf aa -> shape0 aa = length R_ -> shape1 aa = length a ->
  (1 <= shape0 aa)%nat -> (1 <= shape1 aa)%nat ->
  length smax = length smin -> length dist = length smin ->
  length C_inst = length smin ->
  Forall (fun C => exists Cs, spline WA C = Some Cs) C_inst ->
  exists z,
    DoS_sum spline quad a aa R_ RR pexp smin smax dist C_inst WA = Some z /\
    wf z /\ shape0 z = (shape0 aa - 1)%nat /\
    shape1 z = (shape1 aa - 1)%nat.
Proof.
  intros Waa A0 A1 H0 H1 Lmax Ldist LC Hspl; unfold DoS_sum.
  destruct (np_zeros_spec (shape0 aa - 1) (shape1 aa - 1))
    as (z0 & Hz & S0 & S1 & W & _).
  replace (Z.of_nat (shape0 aa - 1)) with (Z.of_nat (shape0 aa) - 1)%Z in Hz
    by lia.
  replace (Z.of_nat (shape1 aa - 1)) with (Z.of_nat (shape1 aa) - 1)%Z in Hz
    by lia.
  rewrite Hz; cbn [bind].
  apply DoS_loop_total with (n := length smin); try assumption;
    try reflexivity.
  apply Forall_forall; intros i Hi; apply in_seq in Hi; lia.
Qed.

End DoS_sum_total.

(** The integration interval of line 444 has zero width as soon as the
    upper separation [su] equals [smin]: at [a[j] = smin <= smax], and for
    [smin = smax < a[j]]. *)
Lemma zero_width_interval smin_i smax_i aj :
  let su := if Rgtb aj smax_i then smax_i else aj in
  su = smin_i ->
  sqrt (1 - (smin_i / aj) ^ 2) - sqrt (1 - (su / aj) ^ 2) = 0.
Proof. intros su ->; ring. Qed.

(** ** The offset of [ck] *)

Lemma take_mask_map_filter {A} (f : A -> bool) l :
  take_mask (map f l) l = filter f l.
Proof.
  induction l as [|v l IH]; [reflexivity|].
  cbn [map take_mask filter]; rewrite IH; reflexivity.
Qed.




Lemma Rgtb_true x y : Rgtb x y = true <-> y < x.
Proof. apply Rltb_true. Qed.





Lemma ck_offset_no_positive ck :
  Forall (fun c => c <= 0) ck -> ck_offset ck = None.
Proof.
  intros H; unfold ck_offset; rewrite take_mask_map_filter.
  replace (filter (fun c => Rgtb c 0) ck) with (@nil R); [reflexivity|].
  induction H as [|c ck Hc _ IH]; [reflexivity|].
  cbn [filter]; replace (Rgtb c 0) with false; [exact IH|].
  symmetry; apply Rltb_false, Hc.
Qed.

(** ** Star selection *)

Lemma dot_cons c cs x xs : dot (c :: cs) (x :: xs) = c * x + dot cs xs.
Proof. reflexivity. Qed.

Lemma dot_zeros c : forall n, dot c (zeros n) = 0.
Proof.
  induction c as [|u c IH]; intros [|n]; try reflexivity.
  unfold zeros; cbn [repeat]; rewrite dot_cons; fold (zeros n).
  rewrite IH; ring.
Qed.

Lemma binary_zeros n : binary (zeros n).
Proof. apply Forall_forall; intros v Hv; apply repeat_spec in Hv; auto. Qed.

Lemma feasible_zeros t0 maxTime :
  0 <= maxTime -> feasible t0 maxTime (zeros (length t0)).
Proof.
  intros H; split; [apply repeat_length|]; split; [apply binary_zeros|].
  rewrite dot_zeros; exact H.
Qed.

Lemma dot_nonneg t0 :
  forall x, Forall (fun t => 0 <= t) t0 -> binary x -> 0 <= dot t0 x.
Proof.
  induction t0 as [|t t0 IH]; intros [|v x] Ht Hx;
    try (unfold dot; simpl; lra).
  inversion Ht; inversion Hx; subst; rewrite dot_cons.
  specialize (IH x H2 H6); destruct H5; subst; lra.
Qed.

(** When every star alone exceeds a non-negative budget, the only feasible
    assignment is zero. *)
Lemma feasible_none_fit t0 maxTime :
  0 <= maxTime -> Forall (fun t => maxTime < t) t0 ->
  forall x, feasible t0 maxTime x -> x = zeros (length t0).
Proof.
  intros Hm; induction 1 as [|t t0 Ht Hall IH]; intros x (Hl & Hb & Hd).
  - destruct x; [reflexivity | discriminate].
  - destruct x as [|v x]; [discriminate|].
    inversion Hb as [|? ? Hv Hb']; subst; rewrite dot_cons in Hd.
    assert (Hnn : 0 <= dot t0 x).
    { apply dot_nonneg; [|exact Hb'].
      eapply Forall_impl; [|exact Hall]; cbv beta; intros; lra. }
    destruct Hv as [-> | ->]; [|lra].
    cbn [length zeros repeat]; f_equal; apply IH.
    split; [simpl in Hl; lia|]; split; [exact Hb'|lra].
Qed.

Lemma where_from_zeros n : forall i,
  where_from i (map (fun v => Rgtb v 0) (zeros n)) = [].
Proof.
  induction n as [|n IH]; intros i; [reflexivity|].
  unfold zeros; cbn [repeat map where_from]; fold (zeros n).
  replace (Rgtb 0 0) with false by (symmetry; apply Rltb_false; lra).
  apply IH.
Qed.

(** C8: for an exact solver and a non-negative budget, if every star's
    integration time exceeds [maxTime] then [select_obs] returns the empty
    index array (no exception) and the objective value is 0. *)
Theorem select_obs_none_fit Solve t0 maxTime ck :
  exact_solver Solve ->
  length t0 = length ck ->
  0 <= maxTime ->
  Forall (fun t => maxTime < t) t0 ->
  select_obs Solve t0 maxTime ck = Some [] /\
  objective_value Solve t0 maxTime ck = 0.
Proof.
  intros HS Hl Hm Hall.
  unfold select_obs, objective_value.
  rewrite <- Hl, Nat.leb_refl, firstn_all.
  destruct (HS t0 maxTime ck _ Hl (feasible_zeros t0 maxTime Hm)) as [Hf _].
  rewrite (feasible_none_fit t0 maxTime Hm Hall _ Hf).
  split; [unfold np_where; rewrite where_from_zeros; reflexivity|].
  apply dot_zeros.
Qed.

(** *** The enumerating solver is exact *)

Lemma Rleb_true x y : Rleb x y = true <-> x <= y.
Proof. unfold Rleb; destruct (Rle_dec x y); split; intros; try easy. Qed.

Lemma Rleb_false x y : Rleb x y = false <-> y < x.
Proof.
  unfold Rleb; destruct (Rle_dec x y); split; intros; try easy; lra.
Qed.

Lemma assignments_sound n :
  forall x, In x (assignments n) -> binary x /\ length x = n.
Proof.
  induction n as [|n IH]; intros x Hx; cbn [assignments] in Hx.
  - destruct Hx as [<-|[]]; split; [constructor | reflexivity].
  - apply in_app_or in Hx; destruct Hx as [Hx|Hx];
      apply in_map_iff in Hx; destruct Hx as (y & <- & Hy);
      destruct (IH y Hy) as [Hb Hl];
      (split; [constructor; auto | simpl; lia]).
Qed.

Lemma assignments_complete n :
  forall x, binary x -> length x = n -> In x (assignments n).
Proof.
  induction n as [|n IH]; intros [|v x] Hb Hl; try discriminate.
  - left; reflexivity.
  - inversion Hb as [|? ? Hv Hb']; subst; cbn [assignments].
    apply in_or_app; destruct Hv as [-> | ->]; [left | right];
      apply in_map, IH; [exact Hb' | simpl in Hl; lia
                        | exact Hb' | simpl in Hl; lia].
Qed.

Lemma improve_spec t0 maxTime ck best y :
  (forall b, best = Some b -> dot t0 b <= maxTime) ->
  match improve t0 maxTime ck best y with
  | Some x =>
      dot t0 x <= maxTime /\ (best = Some x \/ x = y) /\
      (forall b, best = Some b -> dot ck b <= dot ck x) /\
      (dot t0 y <= maxTime -> dot ck y <= dot ck x)
  | None => best = None /\ maxTime < dot t0 y
  end.
Proof.
  intros Hbest; unfold improve.
  destruct (Rleb (dot t0 y) maxTime) eqn:Ey;
    [apply Rleb_true in Ey | apply Rleb_false in Ey].
  - destruct best as [b|].
    + specialize (Hbest b eq_refl).
      destruct (Rltb (dot ck b) (dot ck y)) eqn:Eb;
        [apply Rltb_true in Eb | apply Rltb_false in Eb];
        (split; [assumption|]); (split; [auto|]);
        (split; [intros ? [= <-]; lra | intros; lra]).
    + split; [assumption|]; split; [auto|].
      split; [intros ? [=] | intros; lra].
  - destruct best as [b|]; [|split; [reflexivity | exact Ey]].
    split; [auto|]; split; [auto|].
    split; [intros ? [= <-]; lra | intros; lra].
Qed.

Lemma fold_improve t0 maxTime ck l :
  forall best,
    (forall b, best = Some b -> dot t0 b <= maxTime) ->
    match fold_left (improve t0 maxTime ck) l best with
    | Some x =>
        dot t0 x <= maxTime /\ (best = Some x \/ In x l) /\
        (forall b, best = Some b -> dot ck b <= dot ck x) /\
        (forall y, In y l -> dot t0 y <= maxTime -> dot ck y <= dot ck x)
    | None => best = None /\ forall y, In y l -> maxTime < dot t0 y
    end.
Proof.
  induction l as [|y l IH]; intros best Hbest; cbn [fold_left].
  - destruct best as [b|].
    + split; [auto|]; split; [auto|]; split.
      * intros b' [= <-]; lra.
      * intros y [].
    + split; [reflexivity | intros y []].
  - pose proof (improve_spec t0 maxTime ck best y Hbest) as Hstep.
    specialize (IH (improve t0 maxTime ck best y)).
    destruct (improve t0 maxTime ck best y) as [nb|].
    + destruct Hstep as (S1 & S2 & S3 & S4).
      assert (Hnb : forall b, Some nb = Some b -> dot t0 b <= maxTime)
        by (intros ? [= <-]; exact S1).
      specialize (IH Hnb).
      destruct (fold_left _ l (Some nb)) as [x|];
        [|destruct IH; discriminate].
      destruct IH as (H1 & H2 & H3 & H4); specialize (H3 nb eq_refl).
      split; [exact H1|]; split.
      { destruct H2 as [[= <-]|H2]; [|right; right; exact H2].
        destruct S2 as [S2 | ->]; [left | right; left]; auto. }
      split.
      { intros b Hb; specialize (S3 b Hb); lra. }
      intros z [<-|Hz] Hfz; [specialize (S4 Hfz); lra | apply H4; assumption].
    + destruct Hstep as [-> Hy].
      assert (Hnb : forall b, @None (list R) = Some b -> dot t0 b <= maxTime)
        by (intros ? [=]).
      specialize (IH Hnb).
      destruct (fold_left _ l None) as [x|].
      * destruct IH as (H1 & H2 & H3 & H4).
        split; [exact H1|]; split.
        { destruct H2 as [[=]|H2]; right; right; exact H2. }
        split; [intros ? [=]|].
        intros z [<-|Hz] Hfz; [lra | apply H4; assumption].
      * destruct IH as [_ H2]; split; [reflexivity|].
        intros z [<-|Hz]; [exact Hy | apply H2, Hz].
Qed.

Lemma enumerate_solve_exact : exact_solver enumerate_solve.
Proof.
  intros t0 maxTime ck x0 Hl (Hx0l & Hx0b & Hx0d); unfold enumerate_solve.
  pose proof (fold_improve t0 maxTime ck (assignments (length t0)) None) as H.
  destruct (fold_left _ _ None) as [x|].
  - destruct H as (H1 & H2 & _ & H4); [intros b [=]|].
    destruct H2 as [[=]|H2]; apply assignments_sound in H2.
    split; [split; [apply H2|split; [apply H2|exact H1]]|].
    intros y (Hyl & Hyb & Hyd); apply H4; [|exact Hyd].
    apply assignments_complete; assumption.
  - destruct H as [_ H]; [intros b [=]|].
    specialize (H x0 (assignments_complete _ _ Hx0b Hx0l)); lra.
Qed.

(** *** The three-star instance of the specification *)

Lemma instance_optimum x :
  optimal [10; 20; 15] 30 [5; 8; 6] x -> x = [1; 1; 0].
Proof.
  intros ((Hl & Hb & Hd) & Hopt).
  assert (F0 : feasible [10; 20; 15] 30 [1; 1; 0]).
  { split; [reflexivity|]; split.
    - repeat (apply Forall_cons; [solve [auto]|]); apply Forall_nil.
    - unfold dot; cbn [map2 fold_right]; lra. }
  specialize (Hopt _ F0).
  destruct x as [|a [|b [|c [|? ?]]]]; try discriminate.
  inversion Hb as [|? ? Ha Hb1]; subst.
  inversion Hb1 as [|? ? Hb' Hb2]; subst.
  inversion Hb2 as [|? ? Hc _]; subst.
  unfold dot in Hd, Hopt; cbn [map2 fold_right] in Hd, Hopt.
  destruct Ha as [-> | ->], Hb' as [-> | ->], Hc as [-> | ->];
    try reflexivity; exfalso; lra.
Qed.

Lemma instance_solution Solve :
  exact_solver Solve -> Solve [10; 20; 15] 30 [5; 8; 6] = [1; 1; 0].
Proof.
  intros HS; apply instance_optimum.
  apply (HS [10; 20; 15] 30 [5; 8; 6] (zeros 3) eq_refl).
  apply (feasible_zeros [10; 20; 15] 30); lra.
Qed.

Lemma selected_instance :
  np_where (map (fun v => Rgtb v 0) [1; 1; 0]) = [0; 1]%nat.
Proof.
  assert (E1 : Rgtb 1 0 = true) by (apply Rgtb_true; lra).
  assert (E0 : Rgtb 0 0 = false) by (apply Rltb_false; lra).
  unfold np_where; cbn [map where_from]; rewrite E1, E0; reflexivity.
Qed.

Lemma select_obs_instance Solve :
  exact_solver Solve ->
  select_obs Solve [10; 20; 15] 30 [5; 8; 6] = Some [0; 1]%nat /\
  objective_value Solve [10; 20; 15] 30 [5; 8; 6] = 13.
Proof.
  intros HS; unfold select_obs, objective_value.
  cbn [length Nat.leb firstn]; rewrite (instance_solution Solve HS).
  rewrite selected_instance; split; [reflexivity|].
  unfold dot; cbn [map2 fold_right]; lra.
Qed.

Lemma select_obs_none_fit_witness :
  select_obs enumerate_solve [1; 2] 0 [3; 4] = Some [] /\
  objective_value enumerate_solve [1; 2] 0 [3; 4] = 0.
Proof.
  apply (select_obs_none_fit enumerate_solve [1; 2] 0 [3; 4]
           enumerate_solve_exact eq_refl).
  - lra.
  - repeat constructor; lra.
Defined.

(** C2 (amended): for an exact solver and a program with a feasible
    assignment, [select_obs] returns the indices with decision value [> 0]
    of an optimal assignment of the 0/1 program, whose objective is the
    value the solver reports; for [t0 = [10, 20, 15]], [ck = [5, 8, 6]],
    [maxTime = 30] the selected stars are 0 and 1 and the objective is 13. *)
Theorem select_obs_exact Solve :
  exact_solver Solve ->
  (forall t0 maxTime ck x0,
      length t0 = length ck -> feasible t0 maxTime x0 ->
      exists x,
        optimal t0 maxTime ck x /\
        select_obs Solve t0 maxTime ck =
          Some (np_where (map (fun v => Rgtb v 0) x)) /\
        objective_value Solve t0 maxTime ck = dot ck x) /\
  select_obs Solve [10; 20; 15] 30 [5; 8; 6] = Some [0; 1]%nat /\
  objective_value Solve [10; 20; 15] 30 [5; 8; 6] = 13.
Proof.
  intros HS; split; [|apply select_obs_instance, HS].
  intros t0 maxTime ck x0 Hl Hf.
  exists (Solve t0 maxTime ck); split; [apply (HS _ _ _ x0 Hl Hf)|].
  unfold select_obs, objective_value.
  rewrite <- Hl, Nat.leb_refl, firstn_all; split; reflexivity.
Qed.

Lemma select_obs_exact_witness :
  (forall t0 maxTime ck x0,
      length t0 = length ck -> feasible t0 maxTime x0 ->
      exists x,
        optimal t0 maxTime ck x /\
        select_obs enumerate_solve t0 maxTime ck =
          Some (np_where (map (fun v => Rgtb v 0) x)) /\
        objective_value enumerate_solve t0 maxTime ck = dot ck x) /\
  select_obs enumerate_solve [10; 20; 15] 30 [5; 8; 6] = Some [0; 1]%nat /\
  objective_value enumerate_solve [10; 20; 15] 30 [5; 8; 6] = 13.
Proof.
  apply (select_obs_exact enumerate_solve enumerate_solve_exact).
Defined.

(** C2 as stated fails on its own instance: stars 0 and 2 give 5 + 6 = 11,
    the objective 14 needs stars 1 and 2 (35 days), and the optimum is 13
    with stars 0 and 1 (30 days); so with an exact solver the objective is
    not 14 and the selection is not stars 0 and 2. *)
Lemma select_obs_instance_counterexample :
  exact_solver enumerate_solve /\
  dot [5; 8; 6] [1; 0; 1] = 11 /\
  ~ (exists Solve,
       exact_solver Solve /\
       (objective_value Solve [10; 20; 15] 30 [5; 8; 6] = 14 \/
        select_obs Solve [10; 20; 15] 30 [5; 8; 6] = Some [0; 2]%nat)).
Proof.
  split; [exact enumerate_solve_exact|]; split.
  - unfold dot; cbn [map2 fold_right]; lra.
  - intros (Solve & HS & H).
    destruct (select_obs_instance Solve HS) as [Hsel Hobj].
    destruct H as [H|H]; [lra | congruence].
Qed.

(** ** [find_ck]: the two cases the code sets to zero *)

Lemma Reqb_refl x : Reqb x x = true.
Proof. apply Reqb_true; reflexivity. Qed.

Lemma find_ck_star_degenerate quad sol3 sol4 amin amax Cmin pexp Rexp s :
  find_ck_star quad sol3 sol4 amin amax Cmin pexp Rexp s s = 0.
Proof. unfold find_ck_star; cbv zeta; rewrite Reqb_refl; reflexivity. Qed.

Lemma find_ck_star_floor_above
    quad sol3 sol4 amin amax Cmin pexp Rexp smin smax :
  let kmin := Cmin / (pexp * Rexp ^ 2) in
  k1 amax smin <= kmin -> k2 amax smax <= kmin -> k3 amax smax <= kmin ->
  k4 smax <= kmin -> k5 amax smin <= kmin -> k6 smin <= kmin ->
  find_ck_star quad sol3 sol4 amin amax Cmin pexp Rexp smin smax = 0.
Proof.
  intros kmin H1 H2 H3 H4 H5 H6; unfold find_ck_star; cbv zeta.
  fold kmin.
  apply Rltb_false in H1, H2, H3, H4, H5, H6.
  rewrite H1, H2, H3, H4, H5, H6, !andb_false_r.
  destruct (Reqb smin smax), (Rltb (k4 smax) (k5 amax smin)); reflexivity.
Qed.

Lemma find_ck_nth quad sol3 sol4 amin amax Cmin pexp Rexp smin smax i :
  length smax = length smin -> (i < length smin)%nat ->
  nth i (find_ck quad sol3 sol4 amin amax smin smax Cmin pexp Rexp) 0 =
  find_ck_star quad sol3 sol4 amin amax Cmin pexp Rexp
    (nth i smin 0) (nth i smax 0).
Proof. intros Hl Hi; unfold find_ck; apply map2_nth; assumption. Qed.

(** The facts a branch of [find_ck] has tested, as inequalities. *)
Ltac branch_facts :=
  repeat match goal with
         | H : andb _ _ = true |- _ => apply andb_true_iff in H; destruct H
         | H : Rltb _ _ = true |- _ => apply Rltb_true in H
         | H : Rltb _ _ = false |- _ => apply Rltb_false in H
         | H : andb _ _ = false |- _ => clear H
         end.

(** Name every value the quadrature returns in the goal, with its sign
    where the bounds of the interval are known to be ordered. *)
Ltac quad_signs quad Hnn Hpos :=
  repeat match goal with
         | |- context [quad ?f ?lo ?hi] =>
             let q := fresh "q" in
             first [ assert (0 < quad f lo hi) by (apply Hpos; lra)
                   | assert (0 <= quad f lo hi) by (apply Hnn; lra)
                   | idtac ];
             set (q := quad f lo hi) in *; clearbody q
         end.

(** What is left of the sign of [ck] rests on the numbers the quadrature
    returns: if it returns a non-negative number on every interval
    [lo <= hi] and a positive one when [lo < hi], and the breakpoints are
    ordered as the case analysis expects, then [ck >= 0], and [ck = 0]
    only for [smin = smax] or [kmin] at or above every breakpoint. *)
Lemma find_ck_star_sign quad sol3 sol4 amin amax Cmin pexp Rexp smin smax :
  (forall f lo hi, lo <= hi -> 0 <= quad f lo hi) ->
  (forall f lo hi, lo < hi -> 0 < quad f lo hi) ->
  let kmin := Cmin / (pexp * Rexp ^ 2) in
  k1 amax smin < k2 amax smax -> k2 amax smax <= k3 amax smax ->
  k3 amax smax <= k4 smax -> k3 amax smax <= k5 amax smin ->
  k4 smax <= k6 smin -> k5 amax smin <= k6 smin ->
  let ck := find_ck_star quad sol3 sol4 amin amax Cmin pexp Rexp smin smax in
  0 <= ck /\
  (ck = 0 -> smin = smax \/
             (k1 amax smin <= kmin /\ k2 amax smax <= kmin /\
              k3 amax smax <= kmin /\ k4 smax <= kmin /\
              k5 amax smin <= kmin /\ k6 smin <= kmin)).
Proof.
  intros Hnn Hpos kmin O12 O23 O34 O35 O46 O56 ck; subst ck.
  unfold find_ck_star; cbv zeta; fold kmin.
  set (K1 := k1 amax smin) in *; set (K2 := k2 amax smax) in *.
  set (K3 := k3 amax smax) in *; set (K4 := k4 smax) in *.
  set (K5 := k5 amax smin) in *; set (K6 := k6 smin) in *.
  destruct (Reqb smin smax) eqn:Eeq;
    [apply Reqb_true in Eeq; split; [lra | auto]|].
  unfold Rgtb.
  assert (leaf : forall c : R,
             0 < c -> 0 <= c /\ (c = 0 -> smin = smax \/
               (K1 <= kmin /\ K2 <= kmin /\ K3 <= kmin /\ K4 <= kmin /\
                K5 <= kmin /\ K6 <= kmin)))
    by (intros c Hc; split; [lra | intros; lra]).
  destruct (Rltb K4 K5) eqn:E45.
  - destruct (Rltb kmin K1) eqn:E1;
      [branch_facts; quad_signs quad Hnn Hpos; apply leaf;
       destruct (Reqb K2 K3); cbn [negb]; lra|].
    destruct (Rltb K1 kmin && Rltb kmin K2) eqn:E2;
      [branch_facts; quad_signs quad Hnn Hpos; apply leaf;
       destruct (Reqb K2 K3); cbn [negb]; lra|].
    destruct (Rltb K2 kmin && Rltb kmin K3) eqn:E3;
      [branch_facts; quad_signs quad Hnn Hpos; apply leaf; lra|].
    destruct (Rltb K3 kmin && Rltb kmin K4) eqn:E4;
      [branch_facts; quad_signs quad Hnn Hpos; apply leaf; lra|].
    destruct (Rltb K4 kmin && Rltb kmin K5) eqn:E5;
      [branch_facts; quad_signs quad Hnn Hpos; apply leaf; lra|].
    destruct (Rltb kmin K6) eqn:E6;
      [branch_facts; quad_signs quad Hnn Hpos; apply leaf; lra|].
    branch_facts; split; [lra | intros _; right; lra].
  - destruct (Rltb kmin K1) eqn:E1;
      [branch_facts; quad_signs quad Hnn Hpos; apply leaf;
       destruct (Reqb K2 K3); cbn [negb]; lra|].
    destruct (Rltb K1 kmin && Rltb kmin K2) eqn:E2;
      [branch_facts; quad_signs quad Hnn Hpos; apply leaf;
       destruct (Reqb K2 K3); cbn [negb]; lra|].
    destruct (Rltb K2 kmin && Rltb kmin K3) eqn:E3;
      [branch_facts; quad_signs quad Hnn Hpos; apply leaf; lra|].
    destruct (Rltb K3 kmin && Rltb kmin K5) eqn:E4;
      [branch_facts; quad_signs quad Hnn Hpos; apply leaf; lra|].
    destruct (Rltb K5 kmin && Rltb kmin K4) eqn:E5;
      [branch_facts; quad_signs quad Hnn Hpos; apply leaf; lra|].
    destruct (Rltb kmin K6) eqn:E6;
      [branch_facts; quad_signs quad Hnn Hpos; apply leaf; lra|].
    branch_facts; split; [lra | intros _; right; lra].
Qed.

(** ** The zero-width integration interval of [DoS_sum] *)

(** * Further properties of the code *)

(** ** [select_obs]: what the returned indices satisfy *)

Lemma where_from_In m : forall k i,
  In i (where_from k m) <->
  (k <= i < k + length m)%nat /\ nth (i - k) m false = true.
Proof.
  induction m as [|b m IH]; intros k i; cbn [where_from length].
  - split; [intros [] | intros [H _]; lia].
  - assert (Hstep : In i (where_from (S k) m) <->
                    (k < i < k + S (length m))%nat /\
                    nth (i - k) (b :: m) false = true).
    { rewrite IH; split; intros [H1 H2]; (split; [lia|]).
      - replace (i - k)%nat with (S (i - S k)) by lia; exact H2.
      - replace (i - k)%nat with (S (i - S k)) in H2 by lia; exact H2. }
    destruct b; cbn [In]; rewrite Hstep; split.
    + intros [<-|[H1 H2]]; [rewrite Nat.sub_diag; split; [lia|reflexivity]|].
      split; [lia | exact H2].
    + intros [H1 H2]; destruct (Nat.eq_dec k i) as [->|Hne]; [left; auto|].
      right; split; [lia | exact H2].
    + intros [H1 H2]; split; [lia | exact H2].
    + intros [H1 H2]; split; [|exact H2].
      destruct (Nat.eq_dec k i) as [->|Hne]; [|lia].
      rewrite Nat.sub_diag in H2; discriminate.
Qed.

Lemma where_from_sorted m : forall k, StronglySorted lt (where_from k m).
Proof.
  induction m as [|b m IH]; intros k; cbn [where_from]; [constructor|].
  destruct b; [|apply IH].
  constructor; [apply IH|].
  apply Forall_forall; intros i Hi; apply where_from_In in Hi; lia.
Qed.

Lemma sum_where_dot c : forall x pre,
  binary x -> length x = length c ->
  fold_right Rplus 0
    (map (fun i => nth i (pre ++ c) 0)
         (where_from (length pre) (map (fun v => Rgtb v 0) x))) = dot c x.
Proof.
  assert (E1 : Rgtb 1 0 = true) by (apply Rgtb_true; lra).
  assert (E0 : Rgtb 0 0 = false) by (apply Rltb_false; lra).
  induction c as [|u c IH]; intros [|v x] pre Hb Hl; try discriminate;
    [reflexivity|].
  inversion Hb as [|? ? Hv Hb']; subst.
  specialize (IH x (pre ++ [u]) Hb' ltac:(simpl in Hl; lia)).
  rewrite <- app_assoc, length_app in IH; cbn [app length] in IH.
  rewrite Nat.add_1_r in IH.
  cbn [map where_from]; rewrite dot_cons.
  destruct Hv as [-> | ->]; rewrite ?E0, ?E1; cbn [map fold_right].
  - rewrite IH; ring.
  - rewrite IH, nth_middle; ring.
Qed.

Lemma sum_at_where c x :
  binary x -> length x = length c ->
  sum_at c (np_where (map (fun v => Rgtb v 0) x)) = dot c x.
Proof. intros Hb Hl; apply (sum_where_dot c x [] Hb Hl). Qed.

(** X1: the indices [select_obs] returns are increasing and below [len(ck)];
    the stars they select fit the budget; their total [ck] is the objective
    value the solver reports. *)
Theorem select_obs_within_budget Solve t0 maxTime ck x0 :
  exact_solver Solve ->
  length t0 = length ck ->
  feasible t0 maxTime x0 ->
  exists sInds,
    select_obs Solve t0 maxTime ck = Some sInds /\
    StronglySorted lt sInds /\
    Forall (fun i => (i < length ck)%nat) sInds /\
    sum_at t0 sInds <= maxTime /\
    sum_at ck sInds = objective_value Solve t0 maxTime ck.
Proof.
  intros HS Hl Hf.
  destruct (HS t0 maxTime ck x0 Hl Hf) as [(Hxl & Hxb & Hxd) _].
  unfold select_obs, objective_value.
  rewrite <- Hl, Nat.leb_refl, firstn_all.
  eexists; split; [reflexivity|]; split; [apply where_from_sorted|].
  split; [|split].
  - apply Forall_forall; intros i Hi; apply where_from_In in Hi.
    rewrite length_map in Hi; lia.
  - rewrite sum_at_where by assumption; exact Hxd.
  - apply sum_at_where; [assumption | congruence].
Qed.

Lemma select_obs_within_budget_witness :
  exists sInds,
    select_obs enumerate_solve [10; 20; 15] 30 [5; 8; 6] = Some sInds /\
    StronglySorted lt sInds /\
    Forall (fun i => (i < 3)%nat) sInds /\
    sum_at [10; 20; 15] sInds <= 30 /\
    sum_at [5; 8; 6] sInds =
      objective_value enumerate_solve [10; 20; 15] 30 [5; 8; 6].
Proof.
  apply (select_obs_within_budget enumerate_solve [10; 20; 15] 30 [5; 8; 6]
           (zeros 3) enumerate_solve_exact eq_refl).
  apply (feasible_zeros [10; 20; 15] 30); lra.
Defined.

Lemma dot_map_plus c (f g : nat -> R) : forall l,
  dot c (map (fun j => f j + g j) l) = dot c (map f l) + dot c (map g l).
Proof.
  induction c as [|u c IH]; intros [|j l]; cbn [map];
    try (unfold dot; cbn [map2 fold_right]; lra).
  rewrite !dot_cons, IH; ring.
Qed.

Lemma dot_unit c i : forall k,
  dot c (map (fun j => if (j =? i)%nat then 1 else 0) (seq k (length c))) =
  if ((k <=? i) && (i <? k + length c))%nat then nth (i - k) c 0 else 0.
Proof.
  induction c as [|u c IH]; intros k; cbn [length seq map].
  - destruct ((k <=? i)%nat && (i <? k + 0)%nat) eqn:E; [|reflexivity].
    apply andb_true_iff in E; destruct E as [E1 E2].
    apply Nat.leb_le in E1; apply Nat.ltb_lt in E2; lia.
  - rewrite dot_cons, IH.
    destruct (Nat.eqb_spec k i) as [->|Hne].
    + rewrite Nat.sub_diag, Nat.leb_refl; cbn [andb nth].
      replace (i <? i + S (length c))%nat with true
        by (symmetry; apply Nat.ltb_lt; lia).
      replace (S i <=? i)%nat with false
        by (symmetry; apply Nat.leb_gt; lia).
      cbn [andb]; ring.
    + destruct (Nat.leb_spec k i) as [Hle|Hgt].
      * replace (S k <=? i)%nat with true
          by (symmetry; apply Nat.leb_le; lia).
        replace (i <? S k + length c)%nat with (i <? k + S (length c))%nat
          by (f_equal; lia).
        cbn [andb]; destruct (i <? k + S (length c))%nat; [|ring].
        replace (i - k)%nat with (S (i - S k)) by lia; cbn [nth]; ring.
      * replace (S k <=? i)%nat with false
          by (symmetry; apply Nat.leb_gt; lia).
        cbn [andb]; ring.
Qed.

Lemma indicator_binary n S : binary (indicator n S) /\ length (indicator n S) = n.
Proof.
  unfold indicator; split; [|rewrite length_map, length_seq; reflexivity].
  apply Forall_forall; intros v Hv; apply in_map_iff in Hv.
  destruct Hv as (j & <- & _); destruct (existsb _ S); auto.
Qed.

Lemma dot_indicator c S :
  NoDup S -> Forall (fun i => (i < length c)%nat) S ->
  dot c (indicator (length c) S) = sum_at c S.
Proof.
  unfold indicator, sum_at; induction 1 as [|i S Hni Hnd IH]; intros Hall.
  - cbn [existsb map fold_right].
    replace (map (fun _ : nat => 0) (seq 0 (length c)))
      with (zeros (length c)); [apply dot_zeros|].
    clear Hall; unfold zeros; generalize 0%nat;
      induction (length c) as [|n IHn];
      intros k; cbn [repeat seq map]; [reflexivity | f_equal; apply IHn].
  - inversion Hall as [|? ? Hi Hall']; subst.
    cbn [map fold_right]; rewrite <- IH by assumption.
    pose proof (dot_unit c i 0) as Hu; rewrite Nat.sub_0_r in Hu.
    replace ((0 <=? i)%nat && (i <? 0 + length c)%nat) with true in Hu
      by (symmetry; apply andb_true_iff; split;
          [apply Nat.leb_le | apply Nat.ltb_lt]; lia).
    rewrite <- Hu, <- dot_map_plus; f_equal.
    apply map_ext; intros j; cbn [existsb].
    destruct (Nat.eqb_spec j i) as [->|Hne]; cbn [orb].
    + replace (existsb (Nat.eqb i) S) with false; [ring|].
      symmetry; apply not_true_is_false; intros He.
      apply existsb_exists in He; destruct He as (i' & Hin & He).
      apply Nat.eqb_eq in He; subst i'; contradiction.
    + destruct (existsb (Nat.eqb j) S); ring.
Qed.

(** X2: no set of stars that fits the budget has a larger total [ck] than the
    stars [select_obs] returns. *)
Theorem select_obs_best_subset Solve t0 maxTime ck S :
  exact_solver Solve ->
  length t0 = length ck ->
  NoDup S -> Forall (fun i => (i < length ck)%nat) S ->
  sum_at t0 S <= maxTime ->
  exists sInds,
    select_obs Solve t0 maxTime ck = Some sInds /\
    sum_at ck S <= sum_at ck sInds.
Proof.
  intros HS Hl Hnd Hall Hfit.
  destruct (indicator_binary (length t0) S) as [Hb Hlen].
  assert (Hf : feasible t0 maxTime (indicator (length t0) S)).
  { split; [exact Hlen|]; split; [exact Hb|].
    rewrite dot_indicator; [exact Hfit | exact Hnd | rewrite Hl; exact Hall]. }
  destruct (HS t0 maxTime ck _ Hl Hf) as [(Hxl & Hxb & Hxd) Hopt].
  unfold select_obs; rewrite <- Hl, Nat.leb_refl, firstn_all.
  eexists; split; [reflexivity|].
  rewrite sum_at_where by (try assumption; congruence).
  specialize (Hopt _ Hf); rewrite Hl, dot_indicator in Hopt; assumption.
Qed.

Lemma select_obs_best_subset_witness :
  exists sInds,
    select_obs enumerate_solve [10; 20; 15] 30 [5; 8; 6] = Some sInds /\
    sum_at [5; 8; 6] [0; 2]%nat <= sum_at [5; 8; 6] sInds.
Proof.
  apply (select_obs_best_subset enumerate_solve [10; 20; 15] 30 [5; 8; 6]
           [0; 2]%nat enumerate_solve_exact eq_refl).
  - repeat constructor; simpl; intuition lia.
  - repeat constructor.
  - unfold sum_at; cbn [map nth fold_right]; lra.
Defined.

Lemma dot_ones c : dot c (ones (length c)) = fold_right Rplus 0 c.
Proof.
  induction c as [|u c IH]; [reflexivity|].
  cbn [length fold_right]; unfold ones; cbn [repeat]; fold (ones (length c)).
  rewrite dot_cons, IH; ring.
Qed.

Lemma binary_ones n : binary (ones n).
Proof. apply Forall_forall; intros v Hv; apply repeat_spec in Hv; auto. Qed.

Lemma dot_le_total c :
  forall x, Forall (fun u => 0 < u) c -> binary x ->
    dot c x <= fold_right Rplus 0 c.
Proof.
  induction c as [|u c IH]; intros [|v x] Hc Hb; cbn [fold_right];
    try (unfold dot; cbn [map2 fold_right]; lra).
  - inversion Hc; subst; unfold dot; cbn [map2 fold_right].
    assert (0 <= fold_right Rplus 0 c); [|lra].
    clear - H2; induction H2; cbn [fold_right]; lra.
  - inversion Hc; inversion Hb as [|? ? Hv Hb']; subst; rewrite dot_cons.
    specialize (IH x H2 Hb'); destruct Hv as [-> | ->]; lra.
Qed.

Lemma total_only_ones c :
  forall x, Forall (fun u => 0 < u) c -> binary x -> length x = length c ->
    fold_right Rplus 0 c <= dot c x -> x = ones (length c).
Proof.
  induction c as [|u c IH]; intros [|v x] Hc Hb Hl Hd; try discriminate;
    [reflexivity|].
  inversion Hc; inversion Hb as [|? ? Hv Hb']; subst.
  rewrite dot_cons in Hd; cbn [fold_right] in Hd.
  pose proof (dot_le_total c x H2 Hb') as Hle.
  destruct Hv as [-> | ->]; [lra|].
  cbn [length]; unfold ones; cbn [repeat]; f_equal.
  apply IH; try assumption; [simpl in Hl; lia | lra].
Qed.

Lemma where_from_ones n : forall k,
  where_from k (map (fun v => Rgtb v 0) (ones n)) = seq k n.
Proof.
  assert (E1 : Rgtb 1 0 = true) by (apply Rgtb_true; lra).
  induction n as [|n IH]; intros k; [reflexivity|].
  unfold ones; cbn [repeat map where_from seq]; fold (ones n).
  rewrite E1, IH; reflexivity.
Qed.

(** X3: when all the stars together fit the budget and every [ck] is positive
    (as after the offset of line 202), [select_obs] selects every star. *)
Theorem select_obs_all_fit Solve t0 maxTime ck :
  exact_solver Solve ->
  length t0 = length ck ->
  fold_right Rplus 0 t0 <= maxTime ->
  Forall (fun c => 0 < c) ck ->
  select_obs Solve t0 maxTime ck = Some (seq 0 (length ck)).
Proof.
  intros HS Hl Hfit Hpos.
  assert (Hf : feasible t0 maxTime (ones (length t0))).
  { split; [apply repeat_length|]; split; [apply binary_ones|].
    rewrite dot_ones; exact Hfit. }
  destruct (HS t0 maxTime ck _ Hl Hf) as [(Hxl & Hxb & Hxd) Hopt].
  specialize (Hopt _ Hf); rewrite Hl, dot_ones in Hopt.
  unfold select_obs; rewrite <- Hl, Nat.leb_refl, firstn_all.
  rewrite (total_only_ones ck _ Hpos Hxb) by (try assumption; congruence).
  unfold np_where; rewrite where_from_ones, Hl; reflexivity.
Qed.

Lemma select_obs_all_fit_witness :
  select_obs enumerate_solve [10; 20; 15] 50 [5; 8; 6] = Some [0; 1; 2]%nat.
Proof.
  apply (select_obs_all_fit enumerate_solve [10; 20; 15] 50 [5; 8; 6]
           enumerate_solve_exact eq_refl).
  - cbn [fold_right]; lra.
  - repeat constructor; lra.
Defined.

Lemma set_nth_length v x : forall i, length (set_nth i v x) = length x.
Proof.
  induction x as [|u x IH]; intros [|i]; cbn [set_nth length]; auto.
Qed.

Lemma set_nth_binary x : forall i, binary x -> binary (set_nth i 1 x).
Proof.
  induction x as [|u x IH]; intros [|i] Hb; cbn [set_nth]; auto;
    inversion Hb; subst; constructor; auto.
  apply IH; assumption.
Qed.

Lemma dot_set_nth v c : forall x i,
  length x = length c -> (i < length x)%nat ->
  dot c (set_nth i v x) = dot c x + nth i c 0 * (v - nth i x 0).
Proof.
  induction c as [|u c IH]; intros [|w x] i Hl Hi; try discriminate;
    simpl in Hi; try lia.
  destruct i as [|i]; cbn [set_nth nth]; rewrite !dot_cons.
  - ring.
  - rewrite IH by (simpl in Hl; lia); ring.
Qed.

Lemma where_positive_nth x i :
  binary x -> (i < length x)%nat ->
  ~ In i (np_where (map (fun v => Rgtb v 0) x)) -> nth i x 0 = 0.
Proof.
  intros Hb Hi Hni.
  assert (Hv : nth i x 0 = 0 \/ nth i x 0 = 1)
    by (eapply Forall_nth with (d := 0) in Hb; eauto).
  destruct Hv as [Hv|Hv]; [exact Hv|]; exfalso; apply Hni.
  apply where_from_In; rewrite Nat.sub_0_r, length_map.
  split; [lia|].
  rewrite nth_indep with (d' := Rgtb 0 0) by (rewrite length_map; exact Hi).
  rewrite (map_nth (fun v => Rgtb v 0)), Hv; apply Rgtb_true; lra.
Qed.

(** X4: the selection cannot be extended: a star with positive [ck] that was
    left out does not fit in what remains of the budget. *)
Theorem select_obs_maximal Solve t0 maxTime ck x0 i :
  exact_solver Solve ->
  length t0 = length ck ->
  feasible t0 maxTime x0 ->
  (i < length ck)%nat -> 0 < nth i ck 0 ->
  exists sInds,
    select_obs Solve t0 maxTime ck = Some sInds /\
    (~ In i sInds -> maxTime < sum_at t0 sInds + nth i t0 0).
Proof.
  intros HS Hl Hf Hi Hc.
  destruct (HS t0 maxTime ck x0 Hl Hf) as [(Hxl & Hxb & Hxd) Hopt].
  unfold select_obs; rewrite <- Hl, Nat.leb_refl, firstn_all.
  eexists; split; [reflexivity|]; intros Hni.
  set (x := Solve t0 maxTime ck) in *.
  assert (Hix : (i < length x)%nat) by lia.
  pose proof (where_positive_nth x i Hxb Hix Hni) as Hz.
  rewrite sum_at_where by assumption.
  destruct (Rlt_le_dec maxTime (dot t0 x + nth i t0 0)) as [Hlt|Hle];
    [exact Hlt|exfalso].
  assert (Hy : feasible t0 maxTime (set_nth i 1 x)).
  { split; [rewrite set_nth_length; exact Hxl|].
    split; [apply set_nth_binary, Hxb|].
    rewrite dot_set_nth, Hz by assumption; lra. }
  specialize (Hopt _ Hy).
  rewrite dot_set_nth, Hz in Hopt by (try assumption; congruence); lra.
Qed.

Lemma select_obs_maximal_witness :
  exists sInds,
    select_obs enumerate_solve [10; 20; 15] 30 [5; 8; 6] = Some sInds /\
    (~ In 2%nat sInds -> 30 < sum_at [10; 20; 15] sInds + nth 2 [10; 20; 15] 0).
Proof.
  apply (select_obs_maximal enumerate_solve [10; 20; 15] 30 [5; 8; 6]
           (zeros 3) 2 enumerate_solve_exact eq_refl).
  - apply (feasible_zeros [10; 20; 15] 30); lra.
  - simpl; lia.
  - cbn [nth]; lra.
Defined.

(** ** [one_DoS_bins] and [DoS_sum]: what every bin satisfies *)

(** A property of the corner values passes to the bin means when it is
    kept by sums and by the factor [0.25]. *)
Lemma one_DoS_bins_entries (T : R -> Prop) a R_ p smin smax Cmin :
  (forall u v, T u -> T v -> T (u + v)) -> (forall u, T u -> T (0.25 * u)) ->
  wf a -> wf R_ -> wf Cmin ->
  same_shape a R_ = true -> same_shape a Cmin = true ->
  (1 <= shape0 a)%nat -> (1 <= shape1 a)%nat ->
  (forall i j, (i < shape0 a)%nat -> (j < shape1 a)%nat ->
     T (one_DoS_point p smin smax (item a i j) (item R_ i j)
          (item Cmin i j))) ->
  exists f,
    one_DoS_bins a R_ p smin smax Cmin = Some f /\ wf f /\
    shape0 f = (shape0 a - 1)%nat /\ shape1 f = (shape1 a - 1)%nat /\
    forall i j, (i < shape0 a - 1)%nat -> (j < shape1 a - 1)%nat ->
      T (item f i j).
Proof.
  intros Tadd Tq Wa WR WC SR SC H0 H1 HT.
  destruct (one_DoS_grid_item a R_ p smin smax Cmin Wa WR WC SR SC)
    as (v & Hv & Wv & V0 & V1 & Hitem).
  destruct (shape0 a) as [|N] eqn:E0; [lia|].
  destruct (shape1 a) as [|M] eqn:E1; [lia|].
  destruct (bin_mean_item v N M Wv V0 V1) as (F0 & F1 & WF & Hmean).
  unfold one_DoS_bins; rewrite Hv; cbn [bind].
  eexists; split; [reflexivity|]; split; [exact WF|].
  split; [rewrite F0; lia|]; split; [rewrite F1; lia|].
  intros i j Hi Hj; rewrite Hmean by lia.
  apply Tq; repeat apply Tadd; rewrite Hitem by lia; apply HT; lia.
Qed.

Lemma meshgrid_rows_positive x y :
  Forall (fun v => 0 < v) y -> positive (snd (meshgrid x y)).
Proof.
  unfold positive, meshgrid; cbn [snd data]; intros Hy.
  apply Forall_forall; intros v Hv; apply in_flat_map in Hv.
  destruct Hv as (w & Hw & Hv); apply repeat_spec in Hv; subst v.
  eapply Forall_forall in Hy; eauto.
Qed.

Lemma flat_map_list_nth {A B} (g : A -> list B) m d d0 :
  (forall v, length (g v) = m) ->
  forall l i j, (i < length l)%nat -> (j < m)%nat ->
    nth (i * m + j) (flat_map g l) d = nth j (g (nth i l d0)) d.
Proof.
  intros Hg; induction l as [|v l IH]; intros i j Hi Hj;
    [simpl in Hi; lia|].
  cbn [flat_map]; destruct i as [|i].
  - rewrite app_nth1 by (rewrite Hg; lia); reflexivity.
  - rewrite app_nth2 by (rewrite Hg; lia).
    rewrite Hg; replace (S i * m + j - m)%nat with (i * m + j)%nat by lia.
    cbn [nth]; apply IH; [simpl in Hi; lia | exact Hj].
Qed.

Lemma meshgrid_item x y i j :
  (i < length y)%nat -> (j < length x)%nat ->
  item (fst (meshgrid x y)) i j = nth j x 0 /\
  item (snd (meshgrid x y)) i j = nth i y 0.
Proof.
  intros Hi Hj; unfold item, meshgrid; cbn [fst snd shape1 data]; split.
  - rewrite flat_map_list_nth with (m := length x) (d0 := 0); auto.
  - rewrite flat_map_list_nth with (m := length x) (d0 := 0);
      [|intros; apply repeat_length|assumption|assumption].
    apply nth_repeat_lt; assumption.
Qed.

Section DoS_sum_entries.
Variable spline : list R -> list R -> option (R -> R).
Variable quad : (R -> R) -> R -> R -> R.

(** The loop keeps every property of the entries that the grid of each
    star has at every point and that sums and the factor [0.25] keep. *)
Lemma DoS_loop_entries (T : R -> Prop)
    a aa R_ pexp smin smax dist C_inst WA n :
  (forall u v, T u -> T v -> T (u + v)) -> (forall u, T u -> T (0.25 * u)) ->
  wf aa -> shape0 aa = length R_ -> shape1 aa = length a ->
  (1 <= shape0 aa)%nat -> (1 <= shape1 aa)%nat ->
  length smin = n -> length smax = n -> length dist = n ->
  length C_inst = n ->
  Forall (fun C => exists Cs, spline WA C = Some Cs) C_inst ->
  (forall k i j c, (k < n)%nat ->
     (i < shape0 aa)%nat -> (j < shape1 aa)%nat ->
     T (one_DoS_point pexp (nth k smin 0) (nth k smax 0) (item aa i j)
          (nth i R_ 0) c)) ->
  forall todo DoS,
    Forall (fun k => (k < n)%nat) todo ->
    wf DoS -> shape0 DoS = (shape0 aa - 1)%nat ->
    shape1 DoS = (shape1 aa - 1)%nat ->
    (forall i j, (i < shape0 aa - 1)%nat -> (j < shape1 aa - 1)%nat ->
       T (item DoS i j)) ->
    exists z,
      DoS_loop spline quad a aa R_ pexp smin smax dist C_inst WA todo DoS
        = Some z /\
      wf z /\ shape0 z = (shape0 aa - 1)%nat /\
      shape1 z = (shape1 aa - 1)%nat /\
      forall i j, (i < shape0 aa - 1)%nat -> (j < shape1 aa - 1)%nat ->
        T (item z i j).
Proof.
  intros Tadd Tq Waa A0 A1 H0 H1 Lmin Lmax Ldist LC Hspl HT.
  induction todo as [|k todo IH]; intros DoS Hall WD D0 D1 HD.
  - exists DoS; auto.
  - inversion Hall as [|? ? Hk Hall']; subst; cbn [DoS_loop].
    destruct (nth_error C_inst k) as [C_k|] eqn:EC;
      [|apply nth_error_None in EC; lia].
    cbn [bind].
    destruct (proj1 (Forall_forall _ _) Hspl C_k (nth_error_In _ _ EC))
      as [Cs ECs]; rewrite ECs.
    destruct (nth_error smin k) as [smin_k|] eqn:Emin;
      [|apply nth_error_None in Emin; lia].
    destruct (nth_error smax k) as [smax_k|] eqn:Emax;
      [|apply nth_error_None in Emax; lia].
    cbn [bind].
    destruct (traverse_expected_Cmin quad Cs smin_k smax_k dist k a)
      as (Cmin & HC & HL); [lia|].
    rewrite HC; cbn [bind].
    destruct (meshgrid_wf Cmin R_) as [WCC WRR].
    pose proof (fun i j c => HT k i j c Hk) as HTk.
    rewrite (nth_error_nth _ _ 0 Emin), (nth_error_nth _ _ 0 Emax) in HTk.
    pose proof (meshgrid_item Cmin R_) as HM.
    destruct (meshgrid Cmin R_) as [CC RR] eqn:EM.
    assert (SCC : shape0 CC = length R_ /\ shape1 CC = length Cmin)
      by (unfold meshgrid in EM; injection EM as <- <-; auto).
    assert (SRR : shape0 RR = length R_ /\ shape1 RR = length Cmin)
      by (unfold meshgrid in EM; injection EM as <- <-; auto).
    cbn [fst snd] in WCC, WRR, HM.
    destruct (one_DoS_bins_entries T aa RR pexp smin_k smax_k CC Tadd Tq)
      as (tmp & Htmp & Wtmp & T0 & T1 & HTtmp); try assumption;
      try (apply same_shape_true; split; lia).
    { intros i j Hi Hj.
      destruct (HM i j) as [_ ->]; [lia | lia | apply HTk; assumption]. }
    rewrite Htmp; cbn [bind]; apply IH; try assumption.
    + apply ndadd_wf; try assumption; apply same_shape_true; split; lia.
    + intros i j Hi Hj; rewrite ndadd_item;
        [apply Tadd; [apply HD | apply HTtmp]; assumption
        | assumption | assumption | apply same_shape_true; split; lia
        | lia | lia].
Qed.

(** [DoS_sum] starts from zeros, so it keeps every such property that
    [0] has. *)
Lemma DoS_sum_entries (T : R -> Prop)
    a aa R_ RR pexp smin smax dist C_inst WA :
  T 0 -> (forall u v, T u -> T v -> T (u + v)) ->
  (forall u, T u -> T (0.25 * u)) ->
  wf aa -> shape0 aa = length R_ -> shape1 aa = length a ->
  (1 <= shape0 aa)%nat -> (1 <= shape1 aa)%nat ->
  length smax = length smin -> length dist = length smin ->
  length C_inst = length smin ->
  Forall (fun C => exists Cs, spline WA C = Some Cs) C_inst ->
  (forall k i j c, (k < length smin)%nat ->
     (i < shape0 aa)%nat -> (j < shape1 aa)%nat ->
     T (one_DoS_point pexp (nth k smin 0) (nth k smax 0) (item aa i j)
          (nth i R_ 0) c)) ->
  exists z,
    DoS_sum spline quad a aa R_ RR pexp smin smax dist C_inst WA = Some z /\
    shape0 z = (shape0 aa - 1)%nat /\ shape1 z = (shape1 aa - 1)%nat /\
    forall i j, (i < shape0 z)%nat -> (j < shape1 z)%nat -> T (item z i j).
Proof.
  intros T0 Tadd Tq Waa A0 A1 H0 H1 Lmax Ldist LC Hspl HT; unfold DoS_sum.
  destruct (np_zeros_spec (shape0 aa - 1) (shape1 aa - 1))
    as (z0 & Hz & S0 & S1 & W & Hzero).
  replace (Z.of_nat (shape0 aa - 1)) with (Z.of_nat (shape0 aa) - 1)%Z in Hz
    by lia.
  replace (Z.of_nat (shape1 aa - 1)) with (Z.of_nat (shape1 aa) - 1)%Z in Hz
    by lia.
  rewrite Hz; cbn [bind].
  destruct (DoS_loop_entries T a aa R_ pexp smin smax dist
              C_inst WA (length smin))
    with (todo := seq 0 (length smin)) (DoS := z0)
    as (z & Hloop & Wz & Z0 & Z1 & Hent); try assumption; try reflexivity.
  - apply Forall_forall; intros i Hi; apply in_seq in Hi; lia.
  - intros i j _ _; rewrite Hzero; exact T0.
  - exists z; split; [exact Hloop|]; split; [exact Z0|]; split; [exact Z1|].
    intros i j Hi Hj; apply Hent; lia.
Qed.

(** X5: for a corner grid [aa] of positive semi-major axes with one row per
    entry of [R] and one column per entry of [a], positive [a], radii and
    albedo, and stars with [smin >= 0], [smax >= 0], one positive [dist]
    and one contrast curve each that the spline constructor accepts,
    [DoS_sum] returns a grid of one bin per cell whose entries are all
    non-negative. *)
Theorem DoS_sum_nonneg a aa R_ RR pexp smin smax dist C_inst WA :
  wf aa -> shape0 aa = length R_ -> shape1 aa = length a ->
  (1 <= shape0 aa)%nat -> (1 <= shape1 aa)%nat ->
  length smax = length smin -> length dist = length smin ->
  length C_inst = length smin ->
  Forall (fun C => exists Cs, spline WA C = Some Cs) C_inst ->
  Forall (fun v => 0 < v) a -> positive aa -> Forall (fun r => 0 < r) R_ ->
  0 < pexp -> Forall (fun d => 0 < d) dist ->
  Forall (fun s => 0 <= s) smin -> Forall (fun s => 0 <= s) smax ->
  exists z,
    DoS_sum spline quad a aa R_ RR pexp smin smax dist C_inst WA = Some z /\
    shape0 z = (shape0 aa - 1)%nat /\ shape1 z = (shape1 aa - 1)%nat /\
    forall i j, (i < shape0 z)%nat -> (j < shape1 z)%nat -> 0 <= item z i j.
Proof.
  intros Waa A0 A1 H0 H1 Lmax Ldist LC Hspl Pa Paa PR Hp Pd Hmin Hmax.
  apply (DoS_sum_entries (fun u => 0 <= u)); try assumption.
  - lra.
  - intros; lra.
  - intros; lra.
  - intros k i j c Hk Hi Hj; apply one_DoS_point_nonneg; try assumption.
    + apply positive_item; assumption.
    + eapply Forall_nth with (d := 0) in PR; [exact PR | lia].
Qed.

(** X6: stars whose separation band is degenerate ([smin = smax >= 0]) add
    nothing: if every star is so, on a grid of positive semi-major axes and
    radii with positive albedo, positive distances and contrast curves
    that the spline constructor accepts, [DoS_sum] returns the all-zero
    grid. *)
Theorem DoS_sum_degenerate a aa R_ RR pexp s dist C_inst WA :
  wf aa -> shape0 aa = length R_ -> shape1 aa = length a ->
  (1 <= shape0 aa)%nat -> (1 <= shape1 aa)%nat ->
  length dist = length s -> length C_inst = length s ->
  Forall (fun C => exists Cs, spline WA C = Some Cs) C_inst ->
  Forall (fun v => 0 < v) a -> positive aa -> Forall (fun r => 0 < r) R_ ->
  0 < pexp -> Forall (fun d => 0 < d) dist ->
  Forall (fun v => 0 <= v) s ->
  exists z,
    DoS_sum spline quad a aa R_ RR pexp s s dist C_inst WA = Some z /\
    shape0 z = (shape0 aa - 1)%nat /\ shape1 z = (shape1 aa - 1)%nat /\
    forall i j, (i < shape0 z)%nat -> (j < shape1 z)%nat -> item z i j = 0.
Proof.
  intros Waa A0 A1 H0 H1 Ldist LC Hspl Pa Paa PR Hp Pd Hs.
  apply (DoS_sum_entries (fun u => u = 0)); try assumption; try reflexivity.
  - intros; lra.
  - intros; lra.
  - intros k i j c Hk Hi Hj; apply one_DoS_point_degenerate.
    apply positive_item; assumption.
Qed.

(** X7: [DoS_sum] raises before the loop when the corner grid has no row or no
    column ([np.zeros] of a negative dimension), also for an empty list of
    stars. *)
Theorem DoS_sum_no_cell a aa R_ RR pexp smin smax dist C_inst WA :
  shape0 aa = 0%nat \/ shape1 aa = 0%nat ->
  DoS_sum spline quad a aa R_ RR pexp smin smax dist C_inst WA = None.
Proof.
  intros H; unfold DoS_sum, np_zeros.
  replace ((0 <=? Z.of_nat (shape0 aa) - 1)%Z
           && (0 <=? Z.of_nat (shape1 aa) - 1)%Z) with false; [reflexivity|].
  symmetry; apply andb_false_iff.
  destruct H as [H|H]; [left | right]; apply Z.leb_gt; lia.
Qed.

Lemma DoS_loop_missing a aa R_ pexp smin smax dist C_inst WA k :
  nth_error C_inst k = None \/ nth_error smax k = None ->
  forall todo DoS, In k todo ->
    DoS_loop spline quad a aa R_ pexp smin smax dist C_inst WA todo DoS
      = None.
Proof.
  intros Hk; induction todo as [|k' todo IH]; intros DoS Hin; [destruct Hin|].
  cbn [DoS_loop].
  destruct (nth_error C_inst k') as [C_k|] eqn:EC; [|reflexivity].
  cbn [bind]; destruct (spline WA C_k) as [Cs|]; [|reflexivity].
  destruct (nth_error smin k') as [smin_k|]; [|reflexivity].
  destruct (nth_error smax k') as [smax_k|] eqn:Emax; [|reflexivity].
  cbn [bind].
  destruct (traverse _ a) as [Cmin|]; [|reflexivity]; cbn [bind].
  destruct (meshgrid Cmin R_) as [CC RR'].
  destruct (one_DoS_bins aa RR' pexp smin_k smax_k CC) as [tmp|];
    [|reflexivity]; cbn [bind].
  destruct Hin as [->|Hin]; [|apply IH, Hin].
  destruct Hk as [Hk|Hk]; congruence.
Qed.

(** X8: [DoS_sum] raises [IndexError] when [C_inst] or [smax] has fewer entries
    than [smin]. *)
Theorem DoS_sum_missing_star a aa R_ RR pexp smin smax dist C_inst WA :
  (length C_inst < length smin)%nat \/ (length smax < length smin)%nat ->
  DoS_sum spline quad a aa R_ RR pexp smin smax dist C_inst WA = None.
Proof.
  intros H; unfold DoS_sum.
  destruct (np_zeros _ _) as [z0|]; [|reflexivity]; cbn [bind].
  destruct H as [H|H].
  - apply DoS_loop_missing with (k := length C_inst);
      [left; apply nth_error_None; lia | apply in_seq; lia].
  - apply DoS_loop_missing with (k := length smax);
      [right; apply nth_error_None; lia | apply in_seq; lia].
Qed.

End DoS_sum_entries.

Lemma DoS_sum_nonneg_witness :
  exists z,
    DoS_sum (fun _ _ => Some (fun _ => 0)) (fun _ _ _ => 0) [1; 2] ex_a
      [1; 3] ex_R 0.3 [0.5] [1.5] [10] [[0.1; 0.2]] [0.1; 0.2] = Some z /\
    shape0 z = 1%nat /\ shape1 z = 1%nat /\
    forall i j, (i < shape0 z)%nat -> (j < shape1 z)%nat -> 0 <= item z i j.
Proof.
  apply (DoS_sum_nonneg (fun _ _ => Some (fun _ => 0)) (fun _ _ _ => 0)
           [1; 2] ex_a [1; 3] ex_R 0.3 [0.5] [1.5] [10] [[0.1; 0.2]]
           [0.1; 0.2]);
    try reflexivity; try (simpl; lia);
    try (apply Forall_cons; [eexists; reflexivity | apply Forall_nil]);
    try (repeat constructor; lra); lra.
Defined.

Lemma DoS_sum_degenerate_witness :
  exists z,
    DoS_sum (fun _ _ => Some (fun _ => 0)) (fun _ _ _ => 0) [1; 2] ex_a
      [1; 3] ex_R 0.3 [1.5] [1.5] [10] [[0.1; 0.2]] [0.1; 0.2] = Some z /\
    shape0 z = 1%nat /\ shape1 z = 1%nat /\
    forall i j, (i < shape0 z)%nat -> (j < shape1 z)%nat -> item z i j = 0.
Proof.
  apply (DoS_sum_degenerate (fun _ _ => Some (fun _ => 0)) (fun _ _ _ => 0)
           [1; 2] ex_a [1; 3] ex_R 0.3 [1.5] [10] [[0.1; 0.2]] [0.1; 0.2]);
    try reflexivity; try (simpl; lia);
    try (apply Forall_cons; [eexists; reflexivity | apply Forall_nil]);
    try (repeat constructor; lra); lra.
Defined.

Lemma DoS_sum_no_cell_witness :
  DoS_sum (fun _ _ => Some (fun _ => 0)) (fun _ _ _ => 0) []
    (mk_ndarray 0 0 []) [] ex_R 0.3 [] [] [] [] [] = None.
Proof.
  apply (DoS_sum_no_cell (fun _ _ => Some (fun _ => 0)) (fun _ _ _ => 0) []
           (mk_ndarray 0 0 []) [] ex_R 0.3 [] [] [] [] []).
  left; reflexivity.
Defined.

Lemma DoS_sum_missing_star_witness :
  DoS_sum (fun _ _ => Some (fun _ => 0)) (fun _ _ _ => 0) [1; 2] ex_a [1; 3]
    ex_R 0.3 [0.5] [1.5] [10] [] [0.1; 0.2] = None.
Proof.
  apply (DoS_sum_missing_star (fun _ _ => Some (fun _ => 0))
           (fun _ _ _ => 0) [1; 2] ex_a [1; 3] ex_R 0.3 [0.5] [1.5] [10] []
           [0.1; 0.2]).
  left; simpl; lia.
Defined.

(** ** [__init__]: the radius range and the bin edges *)

(** X9: lines 103-112 accept exactly the ranges with [Rmin < 45],
    [Rmax > 0.35] and [Rmax > Rmin]; then [Rmin] is raised to [0.35] when
    below it, and [Rmax] is returned as it was given, also above 45, where
    only the message is printed. *)
Theorem radius_range_spec lo hi :
  match radius_range lo hi with
  | Some (lo', hi', out) =>
      lo < 45 /\ 0.35 < hi /\ lo < hi /\
      lo' = Rmax lo 0.35 /\ hi' = hi /\ 0.35 <= lo' < hi' /\
      (45 < hi -> In "Rmax reset to 45.0*R_earth"%string out /\ 45 < hi')
  | None => 45 <= lo \/ hi <= 0.35 \/ hi <= lo
  end.
Proof.
  unfold radius_range, Rgtb.
  destruct (Rltb lo 45.0) eqn:E1;
    [apply Rltb_true in E1 | apply Rltb_false in E1; left; lra].
  destruct (Rltb lo 0.35) eqn:E2;
    [apply Rltb_true in E2 | apply Rltb_false in E2];
    (destruct (Rltb 0.35 hi) eqn:E3;
     [apply Rltb_true in E3 | apply Rltb_false in E3; right; left; lra]).
  - destruct (Rltb 45.0 hi) eqn:E4;
      [apply Rltb_true in E4 | apply Rltb_false in E4];
      rewrite Rmax_right by lra;
      repeat split; try lra; intros; try lra.
    right; left; reflexivity.
  - destruct (Rltb 45.0 hi) eqn:E4;
      [apply Rltb_true in E4 | apply Rltb_false in E4];
      (destruct (Rltb lo hi) eqn:E5;
       [apply Rltb_true in E5 | apply Rltb_false in E5; right; right; lra]);
      rewrite Rmax_left by lra;
      repeat split; try lra; intros; try lra.
    left; reflexivity.
Qed.

Lemma ln_10_pos : 0 < ln 10.
Proof. rewrite <- ln_1; apply ln_increasing; lra. Qed.

Lemma Rpower_10_log10 x : 0 < x -> Rpower 10 (np_log10 x) = x.
Proof.
  intros Hx; unfold Rpower, np_log10.
  replace (ln x / ln 10 * ln 10) with (ln x)
    by (field; pose proof ln_10_pos; lra).
  apply exp_ln, Hx.
Qed.

Lemma np_linspace_nth start stop n i :
  (i <= S n)%nat ->
  nth i (np_linspace start stop (S (S n))) 0 =
  start + INR i * ((stop - start) / INR (S n)).
Proof.
  intros Hi; unfold np_linspace.
  replace (S (S n) - 1)%nat with (S n) by lia.
  rewrite nth_indep with (d' := start + INR 0 * ((stop - start) / INR (S n)))
    by (rewrite length_map, length_seq; lia).
  rewrite (map_nth (fun k => start + INR k * ((stop - start) / INR (S n)))).
  rewrite seq_nth by lia; reflexivity.
Qed.

Lemma bin_edges_length lo hi bins : length (bin_edges lo hi bins) = (bins + 1)%nat.
Proof.
  unfold bin_edges, np_logspace, np_linspace; rewrite length_map.
  rewrite Nat.add_1_r; destruct bins as [|n]; [reflexivity|].
  rewrite length_map, length_seq; reflexivity.
Qed.

Lemma bin_edges_nth lo hi n i :
  (i <= S n)%nat ->
  nth i (bin_edges lo hi (S n)) 0 =
  Rpower 10 (np_log10 lo
             + INR i * ((np_log10 hi - np_log10 lo) / INR (S n))).
Proof.
  intros Hi; unfold bin_edges, np_logspace.
  replace (S n + 1)%nat with (S (S n)) by lia.
  rewrite <- np_linspace_nth by exact Hi.
  rewrite nth_indep with (d' := Rpower 10 0); [apply map_nth|].
  rewrite length_map; unfold np_linspace.
  rewrite length_map, length_seq; lia.
Qed.

Lemma bin_edges_lt lo hi n i j :
  0 < lo -> lo < hi -> (i < j <= S n)%nat ->
  nth i (bin_edges lo hi (S n)) 0 < nth j (bin_edges lo hi (S n)) 0.
Proof.
  intros Hlo Hlt Hij; rewrite !bin_edges_nth by lia.
  apply Rpower_lt; [lra|].
  assert (Hstep : 0 < (np_log10 hi - np_log10 lo) / INR (S n)).
  { apply Rdiv_lt_0_compat; [|apply lt_0_INR; lia].
    unfold np_log10; pose proof ln_10_pos as H10.
    pose proof (ln_increasing lo hi Hlo Hlt) as Hln.
    assert (ln lo / ln 10 < ln hi / ln 10); [|lra].
    apply Rmult_lt_compat_r; [apply Rinv_0_lt_compat, H10 | exact Hln]. }
  assert (Hinr : INR i < INR j) by (apply lt_INR; lia).
  apply Rplus_lt_compat_l, Rmult_lt_compat_r; assumption.
Qed.

Lemma bin_edges_positive lo hi bins :
  Forall (fun e => 0 < e) (bin_edges lo hi bins).
Proof.
  unfold bin_edges, np_logspace; apply Forall_forall; intros e He.
  apply in_map_iff in He; destruct He as (y & <- & _).
  unfold Rpower; apply exp_pos.
Qed.

(** X10: for [0 < lo < hi] and at least one bin, the [bins + 1] edges of line
    230 start at [lo], end at [hi], increase strictly and are positive. *)
Theorem bin_edges_spec lo hi bins :
  0 < lo -> lo < hi -> (1 <= bins)%nat ->
  let edges := bin_edges lo hi bins in
  length edges = (bins + 1)%nat /\
  nth 0 edges 0 = lo /\ nth bins edges 0 = hi /\
  (forall i j, (i < j <= bins)%nat -> nth i edges 0 < nth j edges 0) /\
  Forall (fun e => 0 < e) edges.
Proof.
  intros Hlo Hlt Hb edges; subst edges.
  destruct bins as [|n]; [lia|].
  split; [apply bin_edges_length|].
  split; [|split; [|split; [|apply bin_edges_positive]]].
  - rewrite bin_edges_nth by lia; cbn [INR].
    rewrite Rmult_0_l, Rplus_0_r; apply Rpower_10_log10, Hlo.
  - rewrite bin_edges_nth by lia.
    replace (np_log10 lo + INR (S n) * ((np_log10 hi - np_log10 lo) / INR (S n)))
      with (np_log10 hi)
      by (field; apply not_0_INR; lia).
    apply Rpower_10_log10; lra.
  - intros i j Hij; apply bin_edges_lt; assumption.
Qed.

Lemma bin_edges_spec_witness :
  let edges := bin_edges 1 100 2 in
  length edges = 3%nat /\
  nth 0 edges 0 = 1 /\ nth 2 edges 0 = 100 /\
  (forall i j, (i < j <= 2)%nat -> nth i edges 0 < nth j edges 0) /\
  Forall (fun e => 0 < e) edges.
Proof. apply (bin_edges_spec 1 100 2); [lra | lra | lia]. Defined.

(** With no bin asked for, there is one edge, [lo], and [hi] is not
    reached. *)
Lemma bin_edges_no_bin lo hi : 0 < lo -> bin_edges lo hi 0 = [lo].
Proof.
  intros Hlo; unfold bin_edges, np_logspace, np_linspace; cbn [Nat.add map].
  rewrite Rpower_10_log10 by exact Hlo; reflexivity.
Qed.

Lemma meshgrid_cols_positive x y :
  Forall (fun v => 0 < v) x -> positive (fst (meshgrid x y)).
Proof.
  unfold positive, meshgrid; cbn [fst data]; intros Hx.
  apply Forall_forall; intros v Hv; apply in_flat_map in Hv.
  destruct Hv as (w & Hw & Hv); eapply Forall_forall in Hx; eauto.
Qed.

(** X11: lines 230-246: on the grid [__init__] builds from [0 < amin < amax]
    and [0 < Rlo < Rhi] with at least one bin each way, the depth of search
    is a grid of [Rbins] rows and [abins] columns with non-negative entries,
    for stars with [smin >= 0], [smax >= 0], one positive [dist] and one
    contrast curve each that the spline constructor accepts, and also for
    no star. *)
Theorem init_DoS_grid spline quad nStars amin amax Rlo Rhi abins Rbins
    pexp smin smax dist C_inst WA :
  0 < amin -> amin < amax -> 0 < Rlo -> Rlo < Rhi ->
  (1 <= abins)%nat -> (1 <= Rbins)%nat ->
  length smax = length smin -> length dist = length smin ->
  length C_inst = length smin ->
  Forall (fun C => exists Cs, spline WA C = Some Cs) C_inst ->
  0 < pexp -> Forall (fun d => 0 < d) dist ->
  Forall (fun s => 0 <= s) smin -> Forall (fun s => 0 <= s) smax ->
  let aedges := bin_edges amin amax abins in
  let Redges := bin_edges Rlo Rhi Rbins in
  let aa := fst (meshgrid aedges Redges) in
  let RR := snd (meshgrid aedges Redges) in
  exists z,
    init_DoS spline quad nStars aedges aa Redges RR pexp smin smax dist
      C_inst WA = Some z /\
    shape0 z = Rbins /\ shape1 z = abins /\
    forall i j, (i < Rbins)%nat -> (j < abins)%nat -> 0 <= item z i j.
Proof.
  intros Ha Haa HR HRR Hab HRb Lmax Ldist LC Hspl Hp Pd Hmin Hmax
    aedges Redges aa RR.
  assert (La : length aedges = (abins + 1)%nat) by apply bin_edges_length.
  assert (LR : length Redges = (Rbins + 1)%nat) by apply bin_edges_length.
  assert (S0 : shape0 aa = (Rbins + 1)%nat) by exact LR.
  assert (S1 : shape1 aa = (abins + 1)%nat) by exact La.
  unfold init_DoS; destruct (0 <? nStars)%nat.
  - assert (Waa : wf aa) by apply meshgrid_wf.
    assert (Paa : positive aa)
      by apply meshgrid_cols_positive, bin_edges_positive.
    assert (PR : Forall (fun r => 0 < r) Redges) by apply bin_edges_positive.
    destruct (DoS_sum_entries spline quad (fun u => 0 <= u) aedges aa Redges
                RR pexp smin smax dist C_inst WA)
      as (z & Hz & Z0 & Z1 & Hent); try assumption; try reflexivity;
      try (intros; lra); try lia.
    { intros k i j c Hk Hi Hj; apply one_DoS_point_nonneg; try assumption.
      - apply positive_item; assumption.
      - eapply Forall_nth with (d := 0) in PR; [exact PR | exact Hi]. }
    exists z; split; [exact Hz|].
    split; [rewrite Z0, S0; lia|]; split; [rewrite Z1, S1; lia|].
    intros i j Hi Hj; apply Hent; [rewrite Z0, S0 | rewrite Z1, S1]; lia.
  - destruct (np_zeros_spec (shape0 aa - 1) (shape1 aa - 1))
      as (z & Hz & Z0 & Z1 & _ & Hzero).
    replace (Z.of_nat (shape0 aa - 1)) with (Z.of_nat (shape0 aa) - 1)%Z
      in Hz by lia.
    replace (Z.of_nat (shape1 aa - 1)) with (Z.of_nat (shape1 aa) - 1)%Z
      in Hz by lia.
    exists z; split; [exact Hz|].
    split; [rewrite Z0, S0; lia|]; split; [rewrite Z1, S1; lia|].
    intros i j _ _; rewrite Hzero; lra.
Qed.

Lemma init_DoS_grid_witness :
  let aedges := bin_edges 1 100 2 in
  let Redges := bin_edges 2 50 3 in
  let aa := fst (meshgrid aedges Redges) in
  let RR := snd (meshgrid aedges Redges) in
  exists z,
    init_DoS (fun _ _ => Some (fun _ => 0)) (fun _ _ _ => 0) 1 aedges aa
      Redges RR 0.3 [0.5] [1.5] [10] [[0.1; 0.2]] [0.1; 0.2] = Some z /\
    shape0 z = 3%nat /\ shape1 z = 2%nat /\
    forall i j, (i < 3)%nat -> (j < 2)%nat -> 0 <= item z i j.
Proof.
  apply (init_DoS_grid (fun _ _ => Some (fun _ => 0)) (fun _ _ _ => 0) 1
           1 100 2 50 2 3 0.3 [0.5] [1.5] [10] [[0.1; 0.2]] [0.1; 0.2]);
    try reflexivity; try lia;
    try (apply Forall_cons; [eexists; reflexivity | apply Forall_nil]);
    try (repeat constructor; lra); lra.
Defined.

(** ** [__init__]: the filters on the target list *)

Lemma take_idx_where_from {A} (m : list bool) : forall (x pre : list A),
  (length m <= length x)%nat ->
  traverse (nth_error (pre ++ x)) (where_from (length pre) m) =
  Some (take_mask m x).
Proof.
  induction m as [|b m IH]; intros x pre Hl; [reflexivity|].
  destruct x as [|v x]; [simpl in Hl; lia|].
  specialize (IH x (pre ++ [v]) ltac:(simpl in Hl; lia)).
  rewrite <- app_assoc, length_app in IH; cbn [app length] in IH.
  rewrite Nat.add_1_r in IH.
  cbn [where_from take_mask]; destruct b; [|exact IH].
  cbn [traverse]; rewrite IH, nth_error_app2, Nat.sub_diag by lia.
  reflexivity.
Qed.

Lemma take_idx_where {A} (m : list bool) (x : list A) :
  (length m <= length x)%nat ->
  take_idx x (np_where m) = Some (take_mask m x).
Proof. intros Hl; apply (take_idx_where_from m x [] Hl). Qed.

Lemma take_mask_pairs {A B} (f : A -> bool) (x : list A) : forall (y : list B),
  length y = length x ->
  combine (take_mask (map f x) x) (take_mask (map f x) y) =
  filter (fun p => f (fst p)) (combine x y).
Proof.
  induction x as [|u x IH]; intros [|v y] Hl; try discriminate;
    [reflexivity|].
  cbn [map take_mask combine filter fst]; destruct (f u); cbn [combine];
    rewrite IH by (simpl in Hl; lia); reflexivity.
Qed.

Lemma take_mask_same_length {A B} (m : list bool) (x : list A) :
  forall (y : list B), length y = length x ->
    length (take_mask m y) = length (take_mask m x).
Proof.
  revert x; induction m as [|b m IH]; intros [|u x] [|v y] Hl;
    try discriminate; try reflexivity.
  cbn [take_mask]; destruct b; cbn [length]; rewrite (IH x y);
    simpl in Hl; try reflexivity; lia.
Qed.

Lemma fill_mask_length {A} (m : list bool) (x : list A) c :
  length (fill_mask m x c) = length x.
Proof.
  revert x; induction m as [|b m IH]; intros [|v x]; cbn [fill_mask length];
    auto.
Qed.

Lemma capped_pairs amax (smin : list R) : forall (smax : list R) (s m : R),
  length smax = length smin ->
  In (s, m)
     (combine smin (fill_mask (map (fun v => Rgtb v amax) smax) smax amax)) ->
  exists m0, In (s, m0) (combine smin smax) /\ m = Rmin m0 amax.
Proof.
  induction smin as [|u smin IH]; intros [|v smax] s m Hl Hin;
    try discriminate; [destruct Hin|].
  cbn [map fill_mask combine] in Hin; destruct Hin as [Heq|Hin].
  - injection Heq as <- <-; exists v; split; [left; reflexivity|].
    destruct (Rgtb v amax) eqn:E;
      [apply Rgtb_true in E; rewrite Rmin_right by lra
      |apply Rltb_false in E; rewrite Rmin_left by lra]; reflexivity.
  - destruct (IH smax s m ltac:(simpl in Hl; lia) Hin) as (m0 & H1 & H2).
    exists m0; split; [right; exact H1 | exact H2].
Qed.

(** X12: lines 172-184, for arrays with one entry per star: the stars kept are
    those with [amin < smin < amax], in their order; [smin] and [smax] stay
    aligned; every kept [smax] is the given one capped at [amax]; and a star
    that came with [smin < smax] keeps [smin < smax], so that no kept band
    is degenerate. *)
Theorem filter_separations_spec amin amax smin smax :
  length smax = length smin ->
  exists smin' smax',
    filter_separations amin amax smin smax = Some (smin', smax') /\
    length smax' = length smin' /\
    smin' = filter (fun s => Rgtb s amin && Rltb s amax) smin /\
    forall s m, In (s, m) (combine smin' smax') ->
      amin < s /\ s < amax /\ m <= amax /\
      exists m0, In (s, m0) (combine smin smax) /\ m = Rmin m0 amax /\
                 (s < m0 -> s < m).
Proof.
  intros Hl; unfold filter_separations.
  set (smaxc := fill_mask (map (fun s => Rgtb s amax) smax) smax amax).
  assert (Hlc : length smaxc = length smin)
    by (unfold smaxc; rewrite fill_mask_length; exact Hl).
  set (m1 := map (fun s => Rgtb s amin) smin).
  rewrite (take_idx_where m1 smin) by (unfold m1; rewrite length_map; lia).
  rewrite (take_idx_where m1 smaxc)
    by (unfold m1; rewrite length_map; lia).
  cbn [bind].
  set (smin1 := take_mask m1 smin); set (smax1 := take_mask m1 smaxc).
  assert (Hl1 : length smax1 = length smin1)
    by (apply take_mask_same_length; exact Hlc).
  set (m2 := map (fun s => Rltb s amax) smin1).
  rewrite (take_idx_where m2 smin1) by (unfold m2; rewrite length_map; lia).
  rewrite (take_idx_where m2 smax1) by (unfold m2; rewrite length_map; lia).
  cbn [bind].
  eexists _, _; split; [reflexivity|].
  split; [apply take_mask_same_length; exact Hl1|].
  split.
  - unfold m2, smin1, m1; rewrite !take_mask_map_filter.
    clear; induction smin as [|u smin IH]; [reflexivity|].
    cbn [filter]; destruct (Rgtb u amin); cbn [filter andb];
      [destruct (Rltb u amax)|]; rewrite IH; reflexivity.
  - intros s m Hin.
    unfold m2 in Hin; rewrite take_mask_pairs in Hin by exact Hl1.
    apply filter_In in Hin; destruct Hin as [Hin H2].
    unfold smin1, smax1, m1 in Hin; rewrite take_mask_pairs in Hin
      by exact Hlc.
    apply filter_In in Hin; destruct Hin as [Hin H1].
    cbn [fst] in H1, H2; apply Rgtb_true in H1; apply Rltb_true in H2.
    destruct (capped_pairs amax smin smax s m Hl Hin) as (m0 & Hm0 & ->).
    split; [exact H1|]; split; [exact H2|]; split; [apply Rmin_r|].
    exists m0; split; [exact Hm0|]; split; [reflexivity|].
    intros Hlt; apply Rmin_glb_lt; assumption.
Qed.

Lemma filter_separations_spec_witness :
  exists smin' smax',
    filter_separations 0.1 30 [0.05; 2; 40] [0.5; 50; 400]
      = Some (smin', smax') /\
    length smax' = length smin' /\
    smin' = filter (fun s => Rgtb s 0.1 && Rltb s 30) [0.05; 2; 40] /\
    forall s m, In (s, m) (combine smin' smax') ->
      0.1 < s /\ s < 30 /\ m <= 30 /\
      exists m0, In (s, m0) (combine [0.05; 2; 40] [0.5; 50; 400]) /\
                 m = Rmin m0 30 /\ (s < m0 -> s < m).
Proof.
  apply (filter_separations_spec 0.1 30 [0.05; 2; 40] [0.5; 50; 400]).
  reflexivity.
Defined.

(** X13: lines 193-197, for arrays with one entry per star: the stars kept are
    those with [t_int < intCutoff]; [smin], [smax] and [t_int] stay
    aligned. *)
Theorem apply_cutoff_spec intCutoff smin smax t_int :
  length smin = length t_int -> length smax = length t_int ->
  exists smin' smax' t_int',
    apply_cutoff intCutoff smin smax t_int = Some (smin', smax', t_int') /\
    length smin' = length t_int' /\ length smax' = length t_int' /\
    Forall (fun t => t < intCutoff) t_int' /\
    combine t_int' smin' =
      filter (fun p => Rltb (fst p) intCutoff) (combine t_int smin) /\
    combine t_int' smax' =
      filter (fun p => Rltb (fst p) intCutoff) (combine t_int smax).
Proof.
  intros Hmin Hmax; unfold apply_cutoff.
  set (m := map (fun t => Rltb t intCutoff) t_int).
  rewrite !take_idx_where by (unfold m; rewrite length_map; lia).
  cbn [bind]; eexists _, _, _; split; [reflexivity|].
  split; [apply take_mask_same_length; exact Hmin|].
  split; [apply take_mask_same_length; exact Hmax|].
  split; [|split; unfold m;
            apply (take_mask_pairs (fun t => Rltb t intCutoff)); assumption].
  unfold m; rewrite take_mask_map_filter.
  apply Forall_forall; intros t Ht; apply filter_In in Ht.
  apply Rltb_true, Ht.
Qed.

Lemma apply_cutoff_spec_witness :
  exists smin' smax' t_int',
    apply_cutoff 30 [1; 2; 3] [4; 5; 6] [10; 40; 20]
      = Some (smin', smax', t_int') /\
    length smin' = length t_int' /\ length smax' = length t_int' /\
    Forall (fun t => t < 30) t_int' /\
    combine t_int' smin' =
      filter (fun p => Rltb (fst p) 30) (combine [10; 40; 20] [1; 2; 3]) /\
    combine t_int' smax' =
      filter (fun p => Rltb (fst p) 30) (combine [10; 40; 20] [4; 5; 6]).
Proof.
  apply (apply_cutoff_spec 30 [1; 2; 3] [4; 5; 6] [10; 40; 20]);
    reflexivity.
Defined.

(** ** [__init__]: occurrence rates *)

Lemma ndmul_wf x y :
  wf x -> wf y -> same_shape x y = true -> wf (ndmul x y).
Proof.
  intros Wx Wy S; apply same_shape_true in S; destruct S as [S0 S1].
  unfold wf, ndmul, vmul in *; cbn [shape0 shape1 data].
  rewrite map2_length; congruence.
Qed.

Lemma ndmul_item x y i j :
  wf x -> wf y -> same_shape x y = true ->
  (i < shape0 x)%nat -> (j < shape1 x)%nat ->
  item (ndmul x y) i j = item x i j * item y i j.
Proof.
  intros Wx Wy S Hi Hj; apply same_shape_true in S; destruct S as [S0 S1].
  unfold item, ndmul, vmul; cbn [shape0 shape1 data]; rewrite <- S1.
  unfold wf in *; apply map2_nth; [congruence|].
  rewrite Wx; apply index_in_shape; assumption.
Qed.

Lemma removelast_length {A} (x : list A) :
  length (removelast x) = (length x - 1)%nat.
Proof.
  induction x as [|u [|v x] IH]; try reflexivity.
  change (removelast (u :: v :: x)) with (u :: removelast (v :: x)).
  cbn [length] in *; lia.
Qed.

Lemma removelast_nth {A} (x : list A) d : forall j,
  (j < length x - 1)%nat -> nth j (removelast x) d = nth j x d.
Proof.
  induction x as [|u [|v x] IH]; intros j Hj; try (simpl in Hj; lia).
  change (removelast (u :: v :: x)) with (u :: removelast (v :: x)).
  destruct j as [|j]; [reflexivity|].
  cbn [nth]; apply IH; simpl in *; lia.
Qed.

Lemma np_diff_length x : length (np_diff x) = (length x - 1)%nat.
Proof.
  unfold np_diff, vsub; rewrite map2_length;
    destruct x; cbn [tl length]; rewrite ?removelast_length;
    cbn [length]; lia.
Qed.

Lemma np_diff_nth x j :
  (j < length x - 1)%nat ->
  nth j (np_diff x) 0 = nth (S j) x 0 - nth j x 0.
Proof.
  intros Hj; unfold np_diff, vsub.
  assert (Ht : length (tl x) = (length x - 1)%nat)
    by (destruct x; cbn [tl length]; lia).
  rewrite (map2_nth Rminus 0 0) by (rewrite ?removelast_length; lia).
  rewrite removelast_nth by exact Hj.
  destruct x as [|u x]; [simpl in Hj; lia | reflexivity].
Qed.

Lemma occurrence_eq func eta aedges Redges DoS :
  occurrence func eta aedges Redges DoS =
  let tmp := func (fst (meshgrid aedges Redges))
                  (snd (meshgrid aedges Redges)) in
  let norma := fst (meshgrid (np_diff aedges) (np_diff Redges)) in
  let normR := snd (meshgrid (np_diff aedges) (np_diff Redges)) in
  let corners :=
    ndadd (ndadd (ndadd (slice tmp 0 (shape0 tmp - 1) 0 (shape1 tmp - 1))
                        (slice tmp 1 (shape0 tmp) 0 (shape1 tmp - 1)))
                 (slice tmp 0 (shape0 tmp - 1) 1 (shape1 tmp)))
          (slice tmp 1 (shape0 tmp) 1 (shape1 tmp)) in
  let etas := ndscale eta (ndmul (ndmul (ndscale 0.25 corners) norma) normR) in
  if same_shape corners norma && same_shape DoS norma then
    Some (etas, ndmul (ndmul (ndmul DoS etas) norma) normR)
  else None.
Proof. reflexivity. Qed.

(** X14: lines 258-274: each occurrence rate is [eta] times the mean of the
    density at the four corners of the bin times the area [da*dR] of the
    bin, and [DoS_occ] multiplies the product of [DoS] and that rate by the
    area of the bin once more. *)
Theorem occurrence_spec func eta aedges Redges DoS N M :
  length Redges = S N -> length aedges = S M ->
  let tmp := func (fst (meshgrid aedges Redges))
                  (snd (meshgrid aedges Redges)) in
  wf tmp -> shape0 tmp = S N -> shape1 tmp = S M ->
  wf DoS -> shape0 DoS = N -> shape1 DoS = M ->
  exists etas DoS_occ,
    occurrence func eta aedges Redges DoS = Some (etas, DoS_occ) /\
    shape0 etas = N /\ shape1 etas = M /\
    shape0 DoS_occ = N /\ shape1 DoS_occ = M /\
    forall i j, (i < N)%nat -> (j < M)%nat ->
      let da := nth (S j) aedges 0 - nth j aedges 0 in
      let dR := nth (S i) Redges 0 - nth i Redges 0 in
      let mean :=
        0.25 * (item tmp i j + item tmp (S i) j + item tmp i (S j)
                + item tmp (S i) (S j)) in
      item etas i j = eta * (mean * da * dR) /\
      item DoS_occ i j = item DoS i j * item etas i j * da * dR.
Proof.
  intros LR La tmp Wt T0 T1 WD D0 D1.
  rewrite occurrence_eq; cbv zeta; fold tmp.
  destruct (bin_mean_item tmp N M Wt T0 T1) as (F0 & F1 & WF & Hmean).
  cbv zeta in F0, F1, WF, Hmean.
  set (corners :=
         ndadd (ndadd (ndadd (slice tmp 0 (shape0 tmp - 1) 0 (shape1 tmp - 1))
                             (slice tmp 1 (shape0 tmp) 0 (shape1 tmp - 1)))
                      (slice tmp 0 (shape0 tmp - 1) 1 (shape1 tmp)))
               (slice tmp 1 (shape0 tmp) 1 (shape1 tmp))) in *.
  destruct (meshgrid_wf (np_diff aedges) (np_diff Redges)) as [Wna WnR].
  pose proof (meshgrid_item (np_diff aedges) (np_diff Redges)) as Hn.
  rewrite !np_diff_length, LR, La in Hn.
  replace (S N - 1)%nat with N in Hn by lia.
  replace (S M - 1)%nat with M in Hn by lia.
  set (norma := fst (meshgrid (np_diff aedges) (np_diff Redges))) in *.
  set (normR := snd (meshgrid (np_diff aedges) (np_diff Redges))) in *.
  assert (Sna : shape0 norma = N /\ shape1 norma = M).
  { unfold norma, meshgrid; cbn [fst shape0 shape1].
    rewrite !np_diff_length, LR, La; split; lia. }
  assert (SnR : shape0 normR = N /\ shape1 normR = M).
  { unfold normR, meshgrid; cbn [snd shape0 shape1].
    rewrite !np_diff_length, LR, La; split; lia. }
  assert (Sc : shape0 corners = N /\ shape1 corners = M) by (split; assumption).
  assert (E1 : same_shape corners norma = true)
    by (apply same_shape_true; split; lia).
  assert (E2 : same_shape DoS norma = true)
    by (apply same_shape_true; split; lia).
  rewrite E1, E2; cbn [andb].
  set (q := ndscale 0.25 corners) in *.
  assert (Sq : shape0 q = N /\ shape1 q = M) by (split; assumption).
  assert (Eq1 : same_shape q norma = true)
    by (apply same_shape_true; split; lia).
  assert (W1 : wf (ndmul q norma)) by (apply ndmul_wf; assumption).
  assert (Eq2 : same_shape (ndmul q norma) normR = true)
    by (apply same_shape_true; cbn [ndmul shape0 shape1]; split; lia).
  assert (W2 : wf (ndmul (ndmul q norma) normR))
    by (apply ndmul_wf; assumption).
  set (etas := ndscale eta (ndmul (ndmul q norma) normR)).
  assert (We : wf etas) by (apply ndscale_wf, W2).
  assert (Se : shape0 etas = N /\ shape1 etas = M)
    by (unfold etas; cbn [ndscale ndmul shape0 shape1]; split; lia).
  assert (Ee : same_shape DoS etas = true)
    by (apply same_shape_true; split; lia).
  assert (W3 : wf (ndmul DoS etas)) by (apply ndmul_wf; assumption).
  assert (E3 : same_shape (ndmul DoS etas) norma = true)
    by (apply same_shape_true; cbn [ndmul shape0 shape1]; split; lia).
  assert (W4 : wf (ndmul (ndmul DoS etas) norma))
    by (apply ndmul_wf; assumption).
  assert (E4 : same_shape (ndmul (ndmul DoS etas) norma) normR = true)
    by (apply same_shape_true; cbn [ndmul shape0 shape1]; split; lia).
  eexists _, _; split; [reflexivity|].
  split; [apply Se|]; split; [apply Se|].
  split; [cbn [ndmul shape0]; lia|]; split; [cbn [ndmul shape1]; lia|].
  intros i j Hi Hj; cbv zeta.
  assert (Hetas : item etas i j =
            eta * (0.25 * (item tmp i j + item tmp (S i) j + item tmp i (S j)
                           + item tmp (S i) (S j))
                   * (nth (S j) aedges 0 - nth j aedges 0)
                   * (nth (S i) Redges 0 - nth i Redges 0))).
  { unfold etas; rewrite ndscale_item
      by (try assumption; cbn [ndmul shape0 shape1]; lia).
    rewrite !ndmul_item
      by (try assumption; cbn [ndmul shape0 shape1]; lia).
    rewrite Hmean by assumption.
    destruct (Hn i j Hi Hj) as [-> ->].
    rewrite !np_diff_nth by lia; reflexivity. }
  split; [exact Hetas|].
  rewrite !ndmul_item by (try assumption; cbn [ndmul shape0 shape1]; lia).
  destruct (Hn i j Hi Hj) as [-> ->].
  rewrite !np_diff_nth by lia; reflexivity.
Qed.

Lemma occurrence_spec_witness :
  let func := fun aa RR : ndarray => ndmul aa RR in
  let tmp := func (fst (meshgrid [1; 2] [1; 3]))
                  (snd (meshgrid [1; 2] [1; 3])) in
  exists etas DoS_occ,
    occurrence func 0.5 [1; 2] [1; 3] (mk_ndarray 1 1 [0.2])
      = Some (etas, DoS_occ) /\
    shape0 etas = 1%nat /\ shape1 etas = 1%nat /\
    shape0 DoS_occ = 1%nat /\ shape1 DoS_occ = 1%nat /\
    forall i j, (i < 1)%nat -> (j < 1)%nat ->
      let da := nth (S j) [1; 2] 0 - nth j [1; 2] 0 in
      let dR := nth (S i) [1; 3] 0 - nth i [1; 3] 0 in
      let mean :=
        0.25 * (item tmp i j + item tmp (S i) j + item tmp i (S j)
                + item tmp (S i) (S j)) in
      item etas i j = 0.5 * (mean * da * dR) /\
      item DoS_occ i j = item (mk_ndarray 1 1 [0.2]) i j * item etas i j
                         * da * dR.
Proof.
  intros func tmp.
  apply (occurrence_spec (fun aa RR : ndarray => ndmul aa RR) 0.5 [1; 2]
           [1; 3] (mk_ndarray 1 1 [0.2]) 1 1); reflexivity.
Defined.

(** ** [plot_dos]: the grid given to the contour plot *)

Lemma tabulate2_wf n m f : wf (tabulate2 n m f).
Proof.
  unfold wf, tabulate2; cbn [shape0 shape1 data].
  apply flat_map_rows_length; intros i; rewrite length_map, length_seq.
  reflexivity.
Qed.

Lemma tabulate2_item n m f i j :
  (i < n)%nat -> (j < m)%nat -> item (tabulate2 n m f) i j = f i j.
Proof.
  intros Hi Hj; unfold item, tabulate2; cbn [shape1 data].
  rewrite flat_map_rows_nth with (m := m); try assumption.
  - rewrite nth_indep with (d' := f (0 + i)%nat 0%nat)
      by (rewrite length_map, length_seq; assumption).
    rewrite (map_nth (f (0 + i)%nat)), seq_nth by assumption; reflexivity.
  - intros k; rewrite length_map, length_seq; reflexivity.
Qed.

Lemma py_index_nonneg n k :
  (0 <= k < Z.of_nat n)%Z -> py_index n k = Some (Z.to_nat k).
Proof.
  intros H; unfold py_index.
  replace ((0 <=? k)%Z && (k <? Z.of_nat n)%Z) with true; [reflexivity|].
  symmetry; apply andb_true_iff; split; [apply Z.leb_le | apply Z.ltb_lt]; lia.
Qed.

Lemma py_index_neg n k :
  (- Z.of_nat n <= k < 0)%Z ->
  py_index n k = Some (Z.to_nat (Z.of_nat n + k)).
Proof.
  intros H; unfold py_index.
  replace ((0 <=? k)%Z && (k <? Z.of_nat n)%Z) with false
    by (symmetry; apply andb_false_iff; left; apply Z.leb_gt; lia).
  replace ((- Z.of_nat n <=? k)%Z && (k <? 0)%Z) with true; [reflexivity|].
  symmetry; apply andb_true_iff; split; [apply Z.leb_le | apply Z.ltb_lt]; lia.
Qed.

Lemma py_get_nonneg x k :
  (0 <= k < Z.of_nat (length x))%Z ->
  py_get x k = Some (nth (Z.to_nat k) x 0).
Proof.
  intros H; unfold py_get; rewrite py_index_nonneg by exact H; cbn [bind].
  apply nth_error_nth'; lia.
Qed.

Lemma py_get_neg x k :
  (- Z.of_nat (length x) <= k < 0)%Z ->
  py_get x k = Some (nth (Z.to_nat (Z.of_nat (length x) + k)) x 0).
Proof.
  intros H; unfold py_get; rewrite py_index_neg by exact H; cbn [bind].
  apply nth_error_nth'; lia.
Qed.

Lemma column_spec x k j :
  py_index (shape1 x) k = Some j ->
  exists l, column x k = Some l /\ length l = shape0 x /\
            forall i, (i < shape0 x)%nat -> nth i l 0 = item x i j.
Proof.
  intros H; unfold column; rewrite H; cbn [bind].
  eexists; split; [reflexivity|]; split;
    [rewrite length_map, length_seq; reflexivity|].
  intros i Hi.
  rewrite nth_indep with (d' := item x 0 j)
    by (rewrite length_map, length_seq; exact Hi).
  rewrite (map_nth (fun i0 => item x i0 j)), seq_nth by exact Hi.
  reflexivity.
Qed.

Lemma row_spec x k i :
  py_index (shape0 x) k = Some i ->
  exists l, row x k = Some l /\ length l = shape1 x /\
            forall j, (j < shape1 x)%nat -> nth j l 0 = item x i j.
Proof.
  intros H; unfold row; rewrite H; cbn [bind].
  eexists; split; [reflexivity|]; split;
    [rewrite length_map, length_seq; reflexivity|].
  intros j Hj.
  rewrite nth_indep with (d' := item x i 0)
    by (rewrite length_map, length_seq; exact Hj).
  rewrite (map_nth (fun j0 => item x i j0)), seq_nth by exact Hj.
  reflexivity.
Qed.

Lemma extrapolate_spec base v u s d n :
  length base = n -> length v = n -> length u = n ->
  length (extrapolate base v u s d) = n /\
  forall i, (i < n)%nat ->
    nth i (extrapolate base v u s d) 0 =
    nth i base 0 + s * ((nth i v 0 - nth i u 0) / d).
Proof.
  intros Lb Lv Lu; unfold extrapolate, vadd, smul, vdivs, vsub.
  assert (L1 : length (map2 Rminus v u) = n)
    by (rewrite map2_length; congruence).
  split; [rewrite map2_length; rewrite ?length_map; congruence|].
  intros i Hi.
  rewrite (map2_nth Rplus 0 0) by (rewrite ?length_map; congruence || lia).
  f_equal.
  rewrite nth_indep with (d' := s * 0) by (rewrite !length_map; lia).
  rewrite (map_nth (fun w => s * w)); f_equal.
  rewrite nth_indep with (d' := 0 / d) by (rewrite length_map; lia).
  rewrite (map_nth (fun w => w / d)); f_equal.
  apply map2_nth; [congruence | lia].
Qed.

Lemma insert_index_spec n k :
  (0 <= k <= Z.of_nat n)%Z \/ (- Z.of_nat n <= k < 0)%Z ->
  insert_index n k =
  Some (Z.to_nat (if (k <? 0)%Z then Z.of_nat n + k else k)).
Proof.
  intros H; unfold insert_index.
  destruct (Z.ltb_spec k 0) as [Hneg|Hpos].
  - replace ((0 <=? k)%Z && (k <=? Z.of_nat n)%Z) with false
      by (symmetry; apply andb_false_iff; left; apply Z.leb_gt; lia).
    replace ((- Z.of_nat n <=? k)%Z) with true
      by (symmetry; apply Z.leb_le; lia).
    reflexivity.
  - replace ((0 <=? k)%Z && (k <=? Z.of_nat n)%Z) with true; [reflexivity|].
    symmetry; apply andb_true_iff; split; apply Z.leb_le; lia.
Qed.

Lemma insert_column_spec x k vals j0 :
  insert_index (shape1 x) k = Some j0 -> length vals = shape0 x ->
  exists y,
    insert_column x k vals = Some y /\ wf y /\
    shape0 y = shape0 x /\ shape1 y = S (shape1 x) /\
    forall i j, (i < shape0 x)%nat -> (j < S (shape1 x))%nat ->
      item y i j =
      if (j <? j0)%nat then item x i j
      else if (j =? j0)%nat then nth i vals 0 else item x i (j - 1).
Proof.
  intros Hk Hl; unfold insert_column; rewrite Hk, Hl, Nat.eqb_refl.
  cbn [bind]; eexists; split; [reflexivity|].
  split; [apply tabulate2_wf|]; split; [reflexivity|]; split; [reflexivity|].
  intros i j Hi Hj; apply tabulate2_item; assumption.
Qed.

Lemma insert_row_spec x k vals i0 :
  insert_index (shape0 x) k = Some i0 -> length vals = shape1 x ->
  exists y,
    insert_row x k vals = Some y /\ wf y /\
    shape0 y = S (shape0 x) /\ shape1 y = shape1 x /\
    forall i j, (i < S (shape0 x))%nat -> (j < shape1 x)%nat ->
      item y i j =
      if (i <? i0)%nat then item x i j
      else if (i =? i0)%nat then nth j vals 0 else item x (i - 1) j.
Proof.
  intros Hk Hl; unfold insert_row; rewrite Hk, Hl, Nat.eqb_refl.
  cbn [bind]; eexists; split; [reflexivity|].
  split; [apply tabulate2_wf|]; split; [reflexivity|]; split; [reflexivity|].
  intros i j Hi Hj; apply tabulate2_item; assumption.
Qed.

Lemma py_index_at n k (i : nat) :
  (0 <= k < Z.of_nat n)%Z /\ Z.to_nat k = i \/
  (- Z.of_nat n <= k < 0)%Z /\ Z.to_nat (Z.of_nat n + k) = i ->
  py_index n k = Some i.
Proof.
  intros [[H <-]|[H <-]]; [apply py_index_nonneg | apply py_index_neg];
    exact H.
Qed.

Lemma py_get_at x k (i : nat) :
  (0 <= k < Z.of_nat (length x))%Z /\ Z.to_nat k = i \/
  (- Z.of_nat (length x) <= k < 0)%Z /\
    Z.to_nat (Z.of_nat (length x) + k) = i ->
  py_get x k = Some (nth i x 0).
Proof.
  intros [[H <-]|[H <-]]; [apply py_get_nonneg | apply py_get_neg]; exact H.
Qed.

Lemma insert_index_at n k (i : nat) :
  (0 <= k <= Z.of_nat n)%Z /\ Z.to_nat k = i \/
  (- Z.of_nat n <= k < 0)%Z /\ Z.to_nat (Z.of_nat n + k) = i ->
  insert_index n k = Some i.
Proof.
  intros [[H <-]|[H <-]]; rewrite insert_index_spec by lia;
    destruct (Z.ltb_spec k 0); try lia; reflexivity.
Qed.

(** Resolve the comparisons of indices left by the four insertions. *)
Ltac index_cases :=
  repeat match goal with
         | |- context [(?x <? ?y)%nat] =>
             destruct (Nat.ltb_spec x y); try lia
         | |- context [(?x =? ?y)%nat] =>
             destruct (Nat.eqb_spec x y); try lia
         end.

Section plot_grid_facts.
Variables (a R_ : list R) (DoS : ndarray) (n m : nat).
Hypothesis WD : wf DoS.
Hypothesis D0 : shape0 DoS = S (S n).
Hypothesis D1 : shape1 DoS = S (S m).
Hypothesis La : (3 <= length a)%nat.
Hypothesis LR : (3 <= length R_)%nat.

(** The extrapolated values of lines 652, 655, 658 and 661 are named after
    the boundary the comments give them. *)
Let left (i : nat) : R :=
  item DoS i 0
  + (nth 0 a 0 - nth 1 a 0)
    * ((item DoS i 1 - item DoS i 0) / (nth 2 a 0 - nth 1 a 0)).
Let right (i : nat) : R :=
  item DoS i (S m)
  + (nth (length a - 1) a 0 - nth (length a - 2) a 0)
    * ((item DoS i (S m) - item DoS i m)
       / (nth (length a - 2) a 0 - nth (length a - 3) a 0)).

Lemma plot_grid_columns :
  exists g2,
    (forall k : ndarray -> option ndarray,
        (c0 <- column DoS 0 ;; c1 <- column DoS 1 ;;
         a0 <- py_get a 0 ;; a1 <- py_get a 1 ;; a2 <- py_get a 2 ;;
         D <- insert_column DoS 0
                (extrapolate c0 c1 c0 (a0 - a1) (a2 - a1)) ;;
         cl <- column D (-1) ;; cl2 <- column D (-2) ;;
         al <- py_get a (-1) ;; al2 <- py_get a (-2) ;;
         al3 <- py_get a (-3) ;;
         D <- insert_column D (-1)
                (extrapolate cl cl cl2 (al - al2) (al2 - al3)) ;;
         k D) = k g2) /\
    wf g2 /\ shape0 g2 = S (S n) /\ shape1 g2 = S (S (S (S m))) /\
    forall i, (i < S (S n))%nat ->
      item g2 i 0 = left i /\
      (forall j, (j < S m)%nat -> item g2 i (S j) = item DoS i j) /\
      item g2 i (S (S m)) = right i /\
      item g2 i (S (S (S m))) = item DoS i (S m).
Proof.
  destruct (column_spec DoS 0 0) as (c0 & Hc0 & Lc0 & Ic0);
    [apply py_index_at; left; split; [rewrite D1; lia | reflexivity]|].
  destruct (column_spec DoS 1 1) as (c1 & Hc1 & Lc1 & Ic1);
    [apply py_index_at; left; split; [rewrite D1; lia | reflexivity]|].
  destruct (extrapolate_spec c0 c1 c0 (nth 0 a 0 - nth 1 a 0)
              (nth 2 a 0 - nth 1 a 0) (shape0 DoS) Lc0 Lc1 Lc0)
    as (Le1 & Ie1).
  destruct (insert_column_spec DoS 0 _ 0
              ltac:(apply insert_index_at; left; split; [lia | reflexivity])
              Le1)
    as (g1 & Hg1 & W1 & S10 & S11 & I1).
  destruct (column_spec g1 (-1) (S (S m))) as (cl & Hcl & Lcl & Icl);
    [apply py_index_at; right; rewrite S11, D1; split; lia|].
  destruct (column_spec g1 (-2) (S m)) as (cl2 & Hcl2 & Lcl2 & Icl2);
    [apply py_index_at; right; rewrite S11, D1; split; lia|].
  destruct (extrapolate_spec cl cl cl2
              (nth (length a - 1) a 0 - nth (length a - 2) a 0)
              (nth (length a - 2) a 0 - nth (length a - 3) a 0)
              (shape0 g1) Lcl Lcl Lcl2)
    as (Le2 & Ie2).
  destruct (insert_column_spec g1 (-1) _ (S (S m))
              ltac:(apply insert_index_at; right; rewrite S11, D1;
                    split; lia)
              Le2)
    as (g2 & Hg2 & W2 & S20 & S21 & I2).
  exists g2; split; [|split; [exact W2|split; [congruence|split;
                      [congruence|]]]].
  - intros k; rewrite Hc0, Hc1; cbn [bind].
    rewrite (py_get_at a 0 0), (py_get_at a 1 1), (py_get_at a 2 2)
      by (left; split; [lia | reflexivity]).
    cbn [bind]; rewrite Hg1; cbn [bind]; rewrite Hcl, Hcl2; cbn [bind].
    rewrite (py_get_at a (-1) (length a - 1)),
            (py_get_at a (-2) (length a - 2)),
            (py_get_at a (-3) (length a - 3)) by (right; split; lia).
    cbn [bind]; rewrite Hg2; reflexivity.
  - intros i Hi.
    assert (Hi1 : (i < shape0 DoS)%nat) by lia.
    assert (Hi2 : (i < shape0 g1)%nat) by lia.
    assert (G1 : forall j, (j < S (S (S m)))%nat ->
               item g1 i j = if (j =? 0)%nat then left i
                             else item DoS i (j - 1)).
    { intros j Hj; rewrite I1 by lia.
      destruct j as [|j]; cbn [Nat.ltb Nat.leb Nat.eqb]; [|reflexivity].
      rewrite Ie1, Ic0, Ic1 by lia; reflexivity. }
    split; [|split; [|split]].
    + rewrite I2, G1 by lia; reflexivity.
    + intros j Hj; rewrite I2 by lia.
      replace (S j <? S (S m))%nat with true
        by (symmetry; apply Nat.ltb_lt; lia).
      rewrite G1 by lia; cbn [Nat.eqb]; f_equal; lia.
    + rewrite I2 by lia.
      rewrite Nat.ltb_irrefl, Nat.eqb_refl, Ie2, Icl, Icl2 by lia.
      rewrite !G1 by lia; cbn [Nat.eqb]; unfold right.
      replace (S (S m) - 1)%nat with (S m) by lia.
      replace (S m - 1)%nat with m by lia; reflexivity.
    + rewrite I2 by lia.
      replace (S (S (S m)) <? S (S m))%nat with false
        by (symmetry; apply Nat.ltb_ge; lia).
      replace (S (S (S m)) =? S (S m))%nat with false
        by (symmetry; apply Nat.eqb_neq; lia).
      replace (S (S (S m)) - 1)%nat with (S (S m)) by lia.
      rewrite G1 by lia; cbn [Nat.eqb]; f_equal; lia.
Qed.

End plot_grid_facts.

Section plot_grid_rows.
Variables (R_ : list R) (x : ndarray) (n M : nat).
Hypothesis X0 : shape0 x = S (S n).
Hypothesis X1 : shape1 x = M.
Hypothesis LR : (3 <= length R_)%nat.

Let bottom (j : nat) : R :=
  item x 0 j
  + (nth 0 R_ 0 - nth 1 R_ 0)
    * ((item x 1 j - item x 0 j) / (nth 2 R_ 0 - nth 1 R_ 0)).
Let top (j : nat) : R :=
  item x (S n) j
  + (nth (length R_ - 1) R_ 0 - nth (length R_ - 2) R_ 0)
    * ((item x (S n) j - item x n j)
       / (nth (length R_ - 2) R_ 0 - nth (length R_ - 3) R_ 0)).

Lemma plot_grid_rows :
  exists g4,
    (r0 <- row x 0 ;; r1 <- row x 1 ;;
     R0 <- py_get R_ 0 ;; R1 <- py_get R_ 1 ;; R2 <- py_get R_ 2 ;;
     D <- insert_row x 0 (extrapolate r0 r1 r0 (R0 - R1) (R2 - R1)) ;;
     rl <- row D (-1) ;; rl2 <- row D (-2) ;;
     Rl <- py_get R_ (-1) ;; Rl2 <- py_get R_ (-2) ;;
     Rl3 <- py_get R_ (-3) ;;
     insert_row D (-1) (extrapolate rl rl rl2 (Rl - Rl2) (Rl2 - Rl3)))
    = Some g4 /\
    wf g4 /\ shape0 g4 = S (S (S (S n))) /\ shape1 g4 = M /\
    forall j, (j < M)%nat ->
      item g4 0 j = bottom j /\
      (forall i, (i < S n)%nat -> item g4 (S i) j = item x i j) /\
      item g4 (S (S n)) j = top j /\
      item g4 (S (S (S n))) j = item x (S n) j.
Proof.
  destruct (row_spec x 0 0) as (r0 & Hr0 & Lr0 & Ir0);
    [apply py_index_at; left; split; [rewrite X0; lia | reflexivity]|].
  destruct (row_spec x 1 1) as (r1 & Hr1 & Lr1 & Ir1);
    [apply py_index_at; left; split; [rewrite X0; lia | reflexivity]|].
  destruct (extrapolate_spec r0 r1 r0 (nth 0 R_ 0 - nth 1 R_ 0)
              (nth 2 R_ 0 - nth 1 R_ 0) (shape1 x) Lr0 Lr1 Lr0)
    as (Le1 & Ie1).
  destruct (insert_row_spec x 0 _ 0
              ltac:(apply insert_index_at; left; split; [lia | reflexivity])
              Le1)
    as (g1 & Hg1 & W1 & S10 & S11 & I1).
  destruct (row_spec g1 (-1) (S (S n))) as (rl & Hrl & Lrl & Irl);
    [apply py_index_at; right; rewrite S10, X0; split; lia|].
  destruct (row_spec g1 (-2) (S n)) as (rl2 & Hrl2 & Lrl2 & Irl2);
    [apply py_index_at; right; rewrite S10, X0; split; lia|].
  destruct (extrapolate_spec rl rl rl2
              (nth (length R_ - 1) R_ 0 - nth (length R_ - 2) R_ 0)
              (nth (length R_ - 2) R_ 0 - nth (length R_ - 3) R_ 0)
              (shape1 g1) Lrl Lrl Lrl2)
    as (Le2 & Ie2).
  destruct (insert_row_spec g1 (-1) _ (S (S n))
              ltac:(apply insert_index_at; right; rewrite S10, X0;
                    split; lia)
              Le2)
    as (g2 & Hg2 & W2 & S20 & S21 & I2).
  exists g2; split; [|split; [exact W2|split; [congruence|split;
                      [congruence|]]]].
  - rewrite Hr0, Hr1; cbn [bind].
    rewrite (py_get_at R_ 0 0), (py_get_at R_ 1 1), (py_get_at R_ 2 2)
      by (left; split; [lia | reflexivity]).
    cbn [bind]; rewrite Hg1; cbn [bind]; rewrite Hrl, Hrl2; cbn [bind].
    rewrite (py_get_at R_ (-1) (length R_ - 1)),
            (py_get_at R_ (-2) (length R_ - 2)),
            (py_get_at R_ (-3) (length R_ - 3)) by (right; split; lia).
    cbn [bind]; exact Hg2.
  - intros j Hj.
    assert (Hj1 : (j < shape1 x)%nat) by lia.
    assert (Hj2 : (j < shape1 g1)%nat) by lia.
    assert (G1 : forall i, (i < S (S (S n)))%nat ->
               item g1 i j = if (i =? 0)%nat then bottom j
                             else item x (i - 1) j).
    { intros i Hi; rewrite I1 by lia.
      destruct i as [|i]; cbn [Nat.ltb Nat.leb Nat.eqb]; [|reflexivity].
      rewrite Ie1, Ir0, Ir1 by lia; reflexivity. }
    split; [|split; [|split]].
    + rewrite I2, G1 by lia; reflexivity.
    + intros i Hi; rewrite I2 by lia.
      replace (S i <? S (S n))%nat with true
        by (symmetry; apply Nat.ltb_lt; lia).
      rewrite G1 by lia; cbn [Nat.eqb]; f_equal; lia.
    + rewrite I2 by lia.
      rewrite Nat.ltb_irrefl, Nat.eqb_refl, Ie2, Irl, Irl2 by lia.
      rewrite !G1 by lia; cbn [Nat.eqb]; unfold top.
      replace (S (S n) - 1)%nat with (S n) by lia.
      replace (S n - 1)%nat with n by lia; reflexivity.
    + rewrite I2 by lia.
      replace (S (S (S n)) <? S (S n))%nat with false
        by (symmetry; apply Nat.ltb_ge; lia).
      replace (S (S (S n)) =? S (S n))%nat with false
        by (symmetry; apply Nat.eqb_neq; lia).
      replace (S (S (S n)) - 1)%nat with (S (S n)) by lia.
      rewrite G1 by lia; cbn [Nat.eqb]; f_equal; lia.
Qed.

End plot_grid_rows.

Lemma plot_grid_last_column a R_ DoS n m :
  shape0 DoS = S (S n) -> shape1 DoS = S (S m) ->
  (3 <= length a)%nat -> (3 <= length R_)%nat ->
  exists g,
    plot_grid a R_ DoS = Some g /\
    shape0 g = S (S (S (S n))) /\ shape1 g = S (S (S (S m))) /\
    (forall i, (i < S n)%nat ->
       item g (S i) (S (S (S m))) = item DoS i (S m)) /\
    (forall j, (j < S m)%nat ->
       item g (S (S (S n))) (S j) = item DoS (S n) j).
Proof.
  intros D0 D1 La LR.
  destruct (plot_grid_columns a R_ DoS n m D0 D1 La LR)
    as (g2 & Hk & W2 & S0 & S1 & I2).
  destruct (plot_grid_rows R_ g2 n (S (S (S (S m)))) S0 S1 LR)
    as (g4 & Hg4 & W4 & S40 & S41 & I4).
  exists g4; split; [unfold plot_grid; rewrite Hk; exact Hg4|].
  split; [exact S40|]; split; [exact S41|]; split.
  - intros i Hi.
    destruct (I4 (S (S (S m))) ltac:(lia)) as (_ & H4 & _ & _).
    destruct (I2 i ltac:(lia)) as (_ & _ & _ & H2).
    rewrite H4, H2 by lia; reflexivity.
  - intros j Hj.
    destruct (I4 (S j) ltac:(lia)) as (_ & _ & _ & H4).
    destruct (I2 (S n) ltac:(lia)) as (_ & H2 & _ & _).
    rewrite H4, H2 by lia; reflexivity.
Qed.

Lemma plot_axis_facts around4 edges k :
  length edges = S k ->
  exists ax,
    plot_axis around4 edges = Some ax /\ length ax = S (S k) /\
    nth 0 ax 0 = around4 (nth 0 edges 0) /\
    nth (S k) ax 0 = around4 (nth k edges 0) /\
    forall j, (j < k)%nat ->
      nth (S j) ax 0 = around4 (0.5 * (nth (S j) edges 0 + nth j edges 0)).
Proof.
  intros Hl; unfold plot_axis.
  rewrite (py_get_at edges 0 0)
    by (left; split; [lia | reflexivity]).
  rewrite (py_get_at edges (-1) k) by (right; split; lia).
  cbn [bind].
  set (cents := smul 0.5 (vadd (tl edges) (removelast edges))).
  assert (Lt : length (tl edges) = k)
    by (destruct edges; [discriminate | simpl in *; lia]).
  assert (Lr : length (removelast edges) = k)
    by (rewrite removelast_length; lia).
  assert (Lc : length cents = k).
  { unfold cents, smul, vadd; rewrite length_map, map2_length; lia. }
  assert (Ic : forall j, (j < k)%nat ->
             nth j cents 0 = 0.5 * (nth (S j) edges 0 + nth j edges 0)).
  { intros j Hj; unfold cents, smul, vadd.
    rewrite nth_indep with (d' := 0.5 * 0)
      by (rewrite length_map, map2_length; lia).
    rewrite (map_nth (fun u => 0.5 * u)); f_equal.
    rewrite (map2_nth Rplus 0 0) by lia.
    rewrite removelast_nth by lia.
    destruct edges; [discriminate | reflexivity]. }
  eexists; split; [reflexivity|]; split.
  - rewrite length_map; cbn [length]; rewrite length_app; cbn [length]; lia.
  - assert (Hnth : forall i, (i < S (S k))%nat ->
              nth i (map around4 (nth 0 edges 0 :: cents ++ [nth k edges 0])) 0
              = around4 (nth i (nth 0 edges 0 :: cents ++ [nth k edges 0]) 0)).
    { intros i Hi.
      rewrite nth_indep with (d' := around4 0); [apply map_nth|].
      rewrite length_map; cbn [length]; rewrite length_app; cbn [length];
        lia. }
    split; [rewrite Hnth by lia; reflexivity|]; split.
    + rewrite Hnth by lia; cbn [nth].
      rewrite app_nth2, Lc, Nat.sub_diag by lia; reflexivity.
    + intros j Hj; rewrite Hnth by lia; cbn [nth].
      rewrite app_nth1 by lia; f_equal; apply Ic, Hj.
Qed.

(** X15: lines 650-662 on a grid with at least two rows and two columns,
    entry by entry.  The result has two more rows and columns.  Row [i] of
    [DoS] sits at row [i + 1], but the last row at the last row of the
    result, and so for the columns: [np.insert(..., -1, ...)] inserts
    before the last entry.  Column [0] holds the values extrapolated to the
    left boundary and row [0] those extrapolated to the lower boundary; the
    values extrapolated to the right and upper boundaries sit one place
    before the last column and row; the four entries where these meet
    extrapolate the extrapolated columns. *)
Theorem plot_grid_spec a R_ DoS n m :
  shape0 DoS = S (S n) -> shape1 DoS = S (S m) ->
  (3 <= length a)%nat -> (3 <= length R_)%nat ->
  let row := fun i => if (i <? S n)%nat then S i else S (S i) in
  let col := fun j => if (j <? S m)%nat then S j else S (S j) in
  let left := fun i =>
    item DoS i 0
    + (nth 0 a 0 - nth 1 a 0)
      * ((item DoS i 1 - item DoS i 0) / (nth 2 a 0 - nth 1 a 0)) in
  let right := fun i =>
    item DoS i (S m)
    + (nth (length a - 1) a 0 - nth (length a - 2) a 0)
      * ((item DoS i (S m) - item DoS i m)
         / (nth (length a - 2) a 0 - nth (length a - 3) a 0)) in
  let bottom := fun x : nat -> R =>
    x 0%nat
    + (nth 0 R_ 0 - nth 1 R_ 0)
      * ((x 1%nat - x 0%nat) / (nth 2 R_ 0 - nth 1 R_ 0)) in
  let top := fun x : nat -> R =>
    x (S n)
    + (nth (length R_ - 1) R_ 0 - nth (length R_ - 2) R_ 0)
      * ((x (S n) - x n)
         / (nth (length R_ - 2) R_ 0 - nth (length R_ - 3) R_ 0)) in
  exists g,
    plot_grid a R_ DoS = Some g /\ wf g /\
    shape0 g = S (S (S (S n))) /\ shape1 g = S (S (S (S m))) /\
    (forall i j, (i < S (S n))%nat -> (j < S (S m))%nat ->
       item g (row i) (col j) = item DoS i j) /\
    (forall i, (i < S (S n))%nat ->
       item g (row i) 0 = left i /\ item g (row i) (S (S m)) = right i) /\
    (forall j, (j < S (S m))%nat ->
       item g 0 (col j) = bottom (fun i => item DoS i j) /\
       item g (S (S n)) (col j) = top (fun i => item DoS i j)) /\
    item g 0 0 = bottom left /\ item g 0 (S (S m)) = bottom right /\
    item g (S (S n)) 0 = top left /\ item g (S (S n)) (S (S m)) = top right.
Proof.
  intros D0 D1 La LR row col left right bottom top.
  destruct (plot_grid_columns a R_ DoS n m D0 D1 La LR)
    as (g2 & Hk & W2 & S0 & S1 & I2).
  destruct (plot_grid_rows R_ g2 n (S (S (S (S m)))) S0 S1 LR)
    as (g4 & Hg4 & W4 & S40 & S41 & I4).
  exists g4; split; [unfold plot_grid; rewrite Hk; exact Hg4|].
  split; [exact W4|]; split; [exact S40|]; split; [exact S41|].
  assert (Hrow : forall i c, (i < S (S n))%nat -> (c < S (S (S (S m))))%nat ->
            item g4 (row i) c = item g2 i c).
  { intros i c Hi Hc; destruct (I4 c Hc) as (_ & Hmid & _ & Hlast).
    unfold row; destruct (Nat.ltb_spec i (S n)) as [Hlt|Hge].
    - apply Hmid, Hlt.
    - replace i with (S n) by lia; exact Hlast. }
  assert (Hcol : forall i j, (i < S (S n))%nat -> (j < S (S m))%nat ->
            item g2 i (col j) = item DoS i j).
  { intros i j Hi Hj; destruct (I2 i Hi) as (_ & Hmid & _ & Hlast).
    unfold col; destruct (Nat.ltb_spec j (S m)) as [Hlt|Hge].
    - apply Hmid, Hlt.
    - replace j with (S m) by lia; exact Hlast. }
  assert (Hc : forall j, (j < S (S m))%nat -> (col j < S (S (S (S m))))%nat).
  { intros j Hj; unfold col; destruct (Nat.ltb_spec j (S m)); lia. }
  assert (Hleft : forall i, (i < S (S n))%nat -> item g2 i 0 = left i)
    by (intros i Hi; apply (I2 i Hi)).
  assert (Hright : forall i, (i < S (S n))%nat ->
            item g2 i (S (S m)) = right i)
    by (intros i Hi; apply (I2 i Hi)).
  split; [|split; [|split; [|split; [|split; [|split]]]]].
  - intros i j Hi Hj; rewrite Hrow, Hcol by auto; reflexivity.
  - intros i Hi; rewrite !Hrow by (try assumption; lia).
    split; [apply Hleft | apply Hright]; exact Hi.
  - intros j Hj; destruct (I4 (col j) (Hc j Hj)) as (Hb & _ & Ht & _).
    rewrite Hb, Ht, !Hcol by (try assumption; lia).
    split; reflexivity.
  - destruct (I4 0%nat ltac:(lia)) as (Hb & _).
    rewrite Hb, !Hleft by lia; reflexivity.
  - destruct (I4 (S (S m)) ltac:(lia)) as (Hb & _).
    rewrite Hb, !Hright by lia; reflexivity.
  - destruct (I4 0%nat ltac:(lia)) as (_ & _ & Ht & _).
    rewrite Ht, !Hleft by lia; reflexivity.
  - destruct (I4 (S (S m)) ltac:(lia)) as (_ & _ & Ht & _).
    rewrite Ht, !Hright by lia; reflexivity.
Qed.

Lemma plot_grid_spec_witness :
  let a := [1; 1.5; 2] in
  let R_ := [1; 2; 3] in
  let row := fun i => if (i <? 1)%nat then S i else S (S i) in
  let col := fun j => if (j <? 1)%nat then S j else S (S j) in
  let left := fun i =>
    item ex_a i 0
    + (nth 0 a 0 - nth 1 a 0)
      * ((item ex_a i 1 - item ex_a i 0) / (nth 2 a 0 - nth 1 a 0)) in
  let right := fun i =>
    item ex_a i 1
    + (nth (length a - 1) a 0 - nth (length a - 2) a 0)
      * ((item ex_a i 1 - item ex_a i 0)
         / (nth (length a - 2) a 0 - nth (length a - 3) a 0)) in
  let bottom := fun x : nat -> R =>
    x 0%nat
    + (nth 0 R_ 0 - nth 1 R_ 0)
      * ((x 1%nat - x 0%nat) / (nth 2 R_ 0 - nth 1 R_ 0)) in
  let top := fun x : nat -> R =>
    x 1%nat
    + (nth (length R_ - 1) R_ 0 - nth (length R_ - 2) R_ 0)
      * ((x 1%nat - x 0%nat)
         / (nth (length R_ - 2) R_ 0 - nth (length R_ - 3) R_ 0)) in
  exists g,
    plot_grid a R_ ex_a = Some g /\ wf g /\
    shape0 g = 4%nat /\ shape1 g = 4%nat /\
    (forall i j, (i < 2)%nat -> (j < 2)%nat ->
       item g (row i) (col j) = item ex_a i j) /\
    (forall i, (i < 2)%nat ->
       item g (row i) 0 = left i /\ item g (row i) 2 = right i) /\
    (forall j, (j < 2)%nat ->
       item g 0 (col j) = bottom (fun i => item ex_a i j) /\
       item g 2 (col j) = top (fun i => item ex_a i j)) /\
    item g 0 0 = bottom left /\ item g 0 2 = bottom right /\
    item g 2 0 = top left /\ item g 2 2 = top right.
Proof.
  apply (plot_grid_spec [1; 1.5; 2] [1; 2; 3] ex_a 0 0);
    try reflexivity; simpl; lia.
Defined.

(** X16: lines 644-662 for [M >= 2] by [N >= 2] bins: the two axes have as
    many points as the grid has columns and rows; each axis runs from the
    rounded first edge over the rounded bin centres to the rounded last
    edge; the grid is the padded grid of these axes; but at the last point
    of each axis, the outer edge, the grid holds the values of the last
    bins of [DoS], not the extrapolated ones. *)
Theorem plot_input_spec around4 aedges Redges DoS n m :
  length aedges = S (S (S m)) -> length Redges = S (S (S n)) ->
  shape0 DoS = S (S n) -> shape1 DoS = S (S m) ->
  exists a R_ g,
    plot_input around4 aedges Redges DoS = Some (a, R_, g) /\
    plot_grid a R_ DoS = Some g /\
    length a = shape1 g /\ length R_ = shape0 g /\
    (nth 0 a 0 = around4 (nth 0 aedges 0) /\
     (forall j, (j < S (S m))%nat ->
        nth (S j) a 0 =
        around4 (0.5 * (nth (S j) aedges 0 + nth j aedges 0))) /\
     nth (length a - 1) a 0 = around4 (nth (S (S m)) aedges 0)) /\
    (nth 0 R_ 0 = around4 (nth 0 Redges 0) /\
     (forall i, (i < S (S n))%nat ->
        nth (S i) R_ 0 =
        around4 (0.5 * (nth (S i) Redges 0 + nth i Redges 0))) /\
     nth (length R_ - 1) R_ 0 = around4 (nth (S (S n)) Redges 0)) /\
    (forall i, (i < S n)%nat ->
       item g (S i) (length a - 1) = item DoS i (S m)) /\
    (forall j, (j < S m)%nat ->
       item g (length R_ - 1) (S j) = item DoS (S n) j).
Proof.
  intros La LR D0 D1; unfold plot_input.
  destruct (plot_axis_facts around4 aedges (S (S m)) La)
    as (a & Ha & Lax & A0 & Al & Ac).
  destruct (plot_axis_facts around4 Redges (S (S n)) LR)
    as (R_ & HR & LRx & R0 & Rl & Rc).
  destruct (plot_grid_last_column a R_ DoS n m D0 D1 ltac:(lia) ltac:(lia))
    as (g & Hg & G0 & G1 & Hcol & Hrow).
  rewrite Ha, HR; cbn [bind]; rewrite Hg; cbn [bind].
  exists a, R_, g; split; [reflexivity|]; split; [exact Hg|].
  split; [congruence|]; split; [congruence|].
  rewrite Lax, LRx.
  replace (S (S (S (S m))) - 1)%nat with (S (S (S m))) by lia.
  replace (S (S (S (S n))) - 1)%nat with (S (S (S n))) by lia.
  split; [split; [exact A0 | split; [exact Ac | exact Al]]|].
  split; [split; [exact R0 | split; [exact Rc | exact Rl]]|].
  split; [exact Hcol | exact Hrow].
Qed.

Lemma plot_input_spec_witness :
  exists a R_ g,
    plot_input (fun x => x) [1; 2; 4] [1; 3; 9] ex_a = Some (a, R_, g) /\
    plot_grid a R_ ex_a = Some g /\
    length a = shape1 g /\ length R_ = shape0 g /\
    (nth 0 a 0 = nth 0 [1; 2; 4] 0 /\
     (forall j, (j < 2)%nat ->
        nth (S j) a 0 = 0.5 * (nth (S j) [1; 2; 4] 0 + nth j [1; 2; 4] 0)) /\
     nth (length a - 1) a 0 = nth 2 [1; 2; 4] 0) /\
    (nth 0 R_ 0 = nth 0 [1; 3; 9] 0 /\
     (forall i, (i < 2)%nat ->
        nth (S i) R_ 0 = 0.5 * (nth (S i) [1; 3; 9] 0 + nth i [1; 3; 9] 0)) /\
     nth (length R_ - 1) R_ 0 = nth 2 [1; 3; 9] 0) /\
    (forall i, (i < 1)%nat -> item g (S i) (length a - 1) = item ex_a i 1) /\
    (forall j, (j < 1)%nat -> item g (length R_ - 1) (S j) = item ex_a 1 j).
Proof.
  apply (plot_input_spec (fun x => x) [1; 2; 4] [1; 3; 9] ex_a 0 0);
    reflexivity.
Defined.

(** ** [find_ck]: the breakpoints *)

Lemma cos_half_pow4 t : cos (0.5 * t) ^ 4 = ((1 + cos t) / 2) ^ 2.
Proof.
  pose proof (cos_2a_cos (0.5 * t)) as H.
  replace (2 * (0.5 * t)) with t in H by lra.
  replace (cos (0.5 * t) ^ 4) with ((cos (0.5 * t) * cos (0.5 * t)) ^ 2)
    by ring.
  f_equal; lra.
Qed.

Lemma cos_PI_minus t : cos (PI - t) = - cos t.
Proof.
  replace (PI - t) with (- t + PI) by ring.
  rewrite neg_cos, cos_neg; reflexivity.
Qed.

Lemma ratio_bounds amax s : 0 < amax -> 0 <= s <= amax -> 0 <= s / amax <= 1.
Proof.
  intros HA Hs; pose proof (Rinv_0_lt_compat amax HA) as Hi.
  assert (amax * / amax = 1) by (field; lra).
  unfold Rdiv; split; nra.
Qed.

(** The breakpoints without the angles: with [c = sqrt(1 - (s/amax)^2)],
    [k1] and [k2] are [((1 - c)/2)^2/amax^2] and [k5] and [k3] are
    [((1 + c)/2)^2/amax^2]. *)
Lemma k_low_form amax s :
  0 < amax -> 0 <= s <= amax ->
  cos (0.5 * (PI - asin (s / amax))) ^ 4 / amax ^ 2 =
  ((1 - sqrt (1 - (s / amax) ^ 2)) / 2) ^ 2 / amax ^ 2.
Proof.
  intros HA Hs.
  assert (Hx : -1 <= s / amax <= 1)
    by (pose proof (ratio_bounds amax s HA Hs); lra).
  rewrite cos_half_pow4, cos_PI_minus, cos_asin by exact Hx.
  unfold Rsqr; replace (s / amax * (s / amax)) with ((s / amax) ^ 2) by ring.
  f_equal; f_equal; lra.
Qed.

Lemma k_high_form amax s :
  0 < amax -> 0 <= s <= amax ->
  cos (0.5 * asin (s / amax)) ^ 4 / amax ^ 2 =
  ((1 + sqrt (1 - (s / amax) ^ 2)) / 2) ^ 2 / amax ^ 2.
Proof.
  intros HA Hs.
  assert (Hx : -1 <= s / amax <= 1)
    by (pose proof (ratio_bounds amax s HA Hs); lra).
  rewrite cos_half_pow4, cos_asin by exact Hx.
  unfold Rsqr; replace (s / amax * (s / amax)) with ((s / amax) ^ 2) by ring.
  reflexivity.
Qed.

Lemma root_facts amax s :
  0 < amax -> 0 <= s <= amax ->
  let c := sqrt (1 - (s / amax) ^ 2) in
  0 <= c /\ c * c = 1 - (s / amax) * (s / amax).
Proof.
  intros HA Hs c; pose proof (ratio_bounds amax s HA Hs) as Hx.
  split; [apply sqrt_pos|].
  unfold c; rewrite sqrt_sqrt; [ring | nra].
Qed.

Lemma high_le_cap amax s :
  0 < amax -> 0 < s <= amax ->
  ((1 + sqrt (1 - (s / amax) ^ 2)) / 2) ^ 2 / amax ^ 2 <= 27 / 64 * / s ^ 2.
Proof.
  intros HA Hs.
  destruct (root_facts amax s HA ltac:(lra)) as [Hc0 Hc2].
  pose proof (ratio_bounds amax s HA ltac:(lra)) as Hx.
  set (c := sqrt (1 - (s / amax) ^ 2)) in *; set (x := s / amax) in *.
  assert (key : (1 + c) ^ 2 * (x * x) <= 27 / 16).
  { pose proof (Rle_0_sqr (c - 1 / 2)) as Hsq; unfold Rsqr in Hsq.
    assert (0 <= (c - 1 / 2) * (c - 1 / 2) * (c * c + 3 * c + 11 / 4))
      by (apply Rmult_le_pos; nra).
    assert (Hx2 : x * x = 1 - c * c) by lra.
    rewrite Hx2; nra. }
  replace (((1 + c) / 2) ^ 2 / amax ^ 2)
    with ((1 + c) ^ 2 * (x * x) / 4 * / s ^ 2)
    by (unfold x; field; lra).
  apply Rmult_le_compat_r; [|lra].
  apply Rlt_le, Rinv_0_lt_compat, pow_lt; lra.
Qed.

(** For [0 < smin < smax <= amax] the six breakpoints come in the order
    the case analysis of [find_ck] relies on. *)
Lemma breakpoints_order amax smin smax :
  0 < smin -> smin < smax -> smax <= amax ->
  k1 amax smin < k2 amax smax /\ k2 amax smax <= k3 amax smax /\
  k3 amax smax <= k4 smax /\ k3 amax smax <= k5 amax smin /\
  k4 smax <= k6 smin /\ k5 amax smin <= k6 smin.
Proof.
  intros H0 Hlt Hle.
  assert (HA : 0 < amax) by lra.
  unfold k1, k2, k3, k5.
  rewrite !k_low_form, !k_high_form by lra.
  destruct (root_facts amax smin HA ltac:(lra)) as [Hc1 Hc1'].
  destruct (root_facts amax smax HA ltac:(lra)) as [Hc2 Hc2'].
  pose proof (ratio_bounds amax smin HA ltac:(lra)) as Hx1.
  pose proof (ratio_bounds amax smax HA ltac:(lra)) as Hx2.
  assert (Hx : smin / amax < smax / amax).
  { unfold Rdiv; apply Rmult_lt_compat_r; [apply Rinv_0_lt_compat|]; lra. }
  assert (Hx1' : 0 < smin / amax)
    by (apply Rdiv_lt_0_compat; lra).
  pose proof (high_le_cap amax smin HA ltac:(lra)) as H56.
  pose proof (high_le_cap amax smax HA ltac:(lra)) as H34.
  set (c1 := sqrt (1 - (smin / amax) ^ 2)) in *.
  set (c2 := sqrt (1 - (smax / amax) ^ 2)) in *.
  assert (Hc : c2 < c1) by nra.
  assert (Hc1le : c1 <= 1) by nra.
  assert (Hinv : 0 < / amax ^ 2) by (apply Rinv_0_lt_compat, pow_lt; lra).
  unfold Rdiv at 1 3 5 7 9 11.
  repeat split.
  - apply Rmult_lt_compat_r; [exact Hinv | nra].
  - unfold Rdiv; apply Rmult_le_compat_r; [lra | nra].
  - exact H34.
  - unfold Rdiv; apply Rmult_le_compat_r; [lra | nra].
  - unfold k4, k6; apply Rmult_le_compat_l; [lra|].
    apply Rinv_le_contravar; [apply pow_lt; lra | nra].
  - exact H56.
Qed.

(** X17: for a star with [0 < smin < smax <= amax] the breakpoints of lines
    484-489 satisfy [k1 < k2 <= k3], [k3 <= k4 <= k6] and
    [k3 <= k5 <= k6]: the order in which both branches of [find_ck]
    integrate.  The test [k2 != k3] of lines 527, 534, 558 and 565 fails
    exactly for the stars with [smax = amax], those that line 172 capped. *)
Theorem find_ck_breakpoints amax smin smax :
  0 < smin -> smin < smax -> smax <= amax ->
  k1 amax smin < k2 amax smax /\ k2 amax smax <= k3 amax smax /\
  k3 amax smax <= k4 smax /\ k3 amax smax <= k5 amax smin /\
  k4 smax <= k6 smin /\ k5 amax smin <= k6 smin /\
  (Reqb (k2 amax smax) (k3 amax smax) = true <-> smax = amax).
Proof.
  intros H0 Hlt Hle.
  destruct (breakpoints_order amax _ _ H0 Hlt Hle)
    as (O12 & O23 & O34 & O35 & O46 & O56).
  repeat (split; [assumption|]).
  assert (HA : 0 < amax) by lra.
  rewrite Reqb_true; unfold k2, k3.
  rewrite k_low_form, k_high_form by lra.
  destruct (root_facts amax smax HA ltac:(lra)) as [Hc0 Hc2].
  pose proof (ratio_bounds amax smax HA ltac:(lra)) as Hx.
  assert (Hx' : smax = smax / amax * amax) by (field; lra).
  set (c := sqrt (1 - (smax / amax) ^ 2)) in *; set (x := smax / amax) in *.
  assert (Hi : 0 < / amax ^ 2) by (apply Rinv_0_lt_compat, pow_lt, HA).
  unfold Rdiv at 1 3; split.
  - intros E; apply Rmult_eq_reg_r in E; [|lra].
    assert (Hc : c = 0) by nra.
    assert (Hx1 : x = 1) by nra.
    nra.
  - intros E.
    assert (Hx1 : x = 1) by nra.
    assert (Hc : c = 0) by nra.
    rewrite Hc; f_equal; lra.
Qed.

Lemma find_ck_breakpoints_witness :
  k1 1 0.5 < k2 1 1 /\ k2 1 1 <= k3 1 1 /\
  k3 1 1 <= k4 1 /\ k3 1 1 <= k5 1 0.5 /\
  k4 1 <= k6 0.5 /\ k5 1 0.5 <= k6 0.5 /\
  (Reqb (k2 1 1) (k3 1 1) = true <-> 1 = 1).
Proof. apply (find_ck_breakpoints 1 0.5 1); lra. Defined.

(** X18: [find_ck] gives [ck = 0], whatever the quadrature returns, for a star
    with [smin = smax], and for a star with [0 < smin < smax <= amax] whose
    [kmin = Cmin/(pexp*Rexp**2)] is at least [k6 = 27/64*smin**(-2)]. *)
Theorem find_ck_zero quad sol3 sol4 amin amax smin smax Cmin pexp Rexp i :
  length smax = length smin -> (i < length smin)%nat ->
  nth i smin 0 = nth i smax 0 \/
  (0 < nth i smin 0 /\ nth i smin 0 < nth i smax 0 /\
   nth i smax 0 <= amax /\ k6 (nth i smin 0) <= Cmin / (pexp * Rexp ^ 2)) ->
  nth i (find_ck quad sol3 sol4 amin amax smin smax Cmin pexp Rexp) 0 = 0.
Proof.
  intros Hl Hi H; rewrite find_ck_nth by assumption.
  destruct H as [->|(H0 & Hlt & Hle & H6)];
    [apply find_ck_star_degenerate|].
  destruct (breakpoints_order amax _ _ H0 Hlt Hle)
    as (O12 & O23 & O34 & O35 & O46 & O56).
  apply find_ck_star_floor_above; cbv zeta; lra.
Qed.

Lemma find_ck_zero_witness :
  nth 0 (find_ck (fun _ _ _ => 1) (fun _ _ => 0) (fun _ _ => 0) 0.1 1
           [0.5] [1] 2 1 1) 0 = 0.
Proof.
  apply (find_ck_zero (fun _ _ _ => 1) (fun _ _ => 0) (fun _ _ => 0) 0.1 1
           [0.5] [1] 2 1 1 0 eq_refl); [simpl; lia|].
  right; cbn [nth]; unfold k6; repeat split; lra.
Defined.

(** X19: the comparisons with the breakpoints are strict on both sides: for a
    star with [0 < smin < smax <= amax] and [kmin] exactly [k1], no case
    before the last applies, and [ck] is the one integral of the last
    piece from [k1] to [k6]. *)
Theorem find_ck_star_at_k1
    quad sol3 sol4 amin amax Cmin pexp Rexp smin smax :
  0 < smin -> smin < smax -> smax <= amax ->
  Cmin / (pexp * Rexp ^ 2) = k1 amax smin ->
  let an := 1 / ln (amax / amin) in
  let cg :=
    an * (sqrt (1 - (smax / amax) ^ 2) - sqrt (1 - (smin / amax) ^ 2)
          + ln (smax / (sqrt (1 - (smax / amax) ^ 2) + 1))
          - ln (smin / (sqrt (1 - (smin / amax) ^ 2) + 1))) in
  let anp := an / cg in
  find_ck_star quad sol3 sol4 amin amax Cmin pexp Rexp smin smax =
  quad (fun k => anp / (2 * sqrt k) * (sol4 k smin - sol3 k smin))
       (k1 amax smin) (k6 smin).
Proof.
  intros H0 Hlt Hle Hk an cg anp; subst an cg anp.
  destruct (breakpoints_order amax _ _ H0 Hlt Hle)
    as (O12 & O23 & O34 & O35 & O46 & O56).
  unfold find_ck_star; cbv zeta; rewrite Hk; unfold Rgtb.
  replace (Reqb smin smax) with false
    by (symmetry; apply not_true_is_false; rewrite Reqb_true; lra).
  replace (Rltb (k1 amax smin) (k1 amax smin)) with false
    by (symmetry; apply Rltb_false; lra).
  replace (Rltb (k2 amax smax) (k1 amax smin)) with false
    by (symmetry; apply Rltb_false; lra).
  replace (Rltb (k3 amax smax) (k1 amax smin)) with false
    by (symmetry; apply Rltb_false; lra).
  replace (Rltb (k4 smax) (k1 amax smin)) with false
    by (symmetry; apply Rltb_false; lra).
  replace (Rltb (k5 amax smin) (k1 amax smin)) with false
    by (symmetry; apply Rltb_false; lra).
  replace (Rltb (k1 amax smin) (k6 smin)) with true
    by (symmetry; apply Rltb_true; lra).
  cbn [andb]; destruct (Rltb (k4 smax) (k5 amax smin)); reflexivity.
Qed.

Lemma find_ck_star_at_k1_witness :
  let an := 1 / ln (1 / 0.1) in
  let cg :=
    an * (sqrt (1 - (1 / 1) ^ 2) - sqrt (1 - (0.5 / 1) ^ 2)
          + ln (1 / (sqrt (1 - (1 / 1) ^ 2) + 1))
          - ln (0.5 / (sqrt (1 - (0.5 / 1) ^ 2) + 1))) in
  let anp := an / cg in
  find_ck_star (fun _ _ _ => 1) (fun _ _ => 0) (fun _ _ => 0) 0.1 1
    (k1 1 0.5) 1 1 0.5 1 =
  (fun _ _ _ => 1)
    (fun k => anp / (2 * sqrt k) * ((fun _ _ => 0) k 0.5 - (fun _ _ => 0) k 0.5))
    (k1 1 0.5) (k6 0.5).
Proof.
  apply (find_ck_star_at_k1 (fun _ _ _ => 1) (fun _ _ => 0) (fun _ _ => 0)
           0.1 1 (k1 1 0.5) 1 1 0.5 1); lra.
Defined.

(** X20: line 202 raises ([min] of an empty array) exactly when no entry of
    [ck] is positive, in particular for an empty target list. *)
Theorem ck_offset_raises ck :
  ck_offset ck = None <-> Forall (fun c => c <= 0) ck.
Proof.
  split; [|apply ck_offset_no_positive].
  intros H; apply Forall_forall; intros c Hc.
  destruct (Rle_lt_dec c 0) as [Hle|Hpos]; [exact Hle|exfalso].
  unfold ck_offset in H; rewrite take_mask_map_filter in H.
  assert (Hin : In c (filter (fun c0 => Rgtb c0 0) ck))
    by (apply filter_In; split; [exact Hc | apply Rgtb_true, Hpos]).
  destruct (filter _ ck) as [|u l]; [destruct Hin | discriminate].
Qed.

Section Float64_facts.
Import Floats.
Local Open Scope float_scope.

Lemma div_by_zero_not_finite v :
  is_finite (div v 0) = false.
Proof.
  unfold is_finite, is_nan, is_infinity.
  rewrite !eqb_spec, abs_spec, div_spec.
  destruct (Prim2SF v) as [[]|[]| |[] m e]; reflexivity.
Qed.

(** C4 at [a[j] = smin[i] = 1.0], [smax[i] = 2.0]: both integration bounds
    are [0.0], and whatever the quadrature returns is divided by
    [0.0 - 0.0]; the expected minimum contrast is NaN or infinite. *)
Theorem expected_Cmin_zero_width quad Cs dist_i :
  is_finite (Float64.expected_Cmin quad Cs 1 2 dist_i 1) = false.
Proof.
  unfold Float64.expected_Cmin.
  change (ltb 1 1) with false.
  change (ltb 2 1) with false.
  cbv iota zeta.
  change (sqrt (sub 1 (mul (div 1 1) (div 1 1)))) with 0.
  change (sub 0 0) with 0.
  apply div_by_zero_not_finite.
Qed.

(** With a quadrature that returns [0.0] over the empty interval, as
    QUADPACK does, the value is NaN. *)
Lemma expected_Cmin_zero_width_nan Cs dist_i :
  is_nan (Float64.expected_Cmin (fun _ _ _ => 0) Cs 1 2 dist_i 1) = true.
Proof. reflexivity. Qed.

End Float64_facts.
